(** * Block device abstraction of ganeti (lib/bdev.py)

    A shallow embedding of the block device layer: the abstract
    [BlockDev] class, the logical volume driver, the DRBD 8.x driver and
    the file driver, together with the properties of their lifecycle
    operations.

    Python objects are records; methods are state transformers over the
    receiver and the outside world (kernel, LVM tools, file system).
    Everything the module reaches through [utils.RunCmd], [open],
    [os.path], [time] and [pyparsing] is a field of the class [Env]. *)

From Stdlib Require Import ZArith QArith String Ascii List Bool Lia SpecFloat.
From stdpp Require Import gmap strings list fin_maps pretty sorting.

Open Scope string_scope.
Open Scope list_scope.
Open Scope Z_scope.

(** ** Python values *)

(** The scalars that occur in unique ids, argument vectors and parse
    results: [None], byte strings and integers. *)
Inductive pyval :=
| VNone
| VStr (s : string)
| VInt (n : Z).

#[global] Instance pyval_eq_dec : EqDecision pyval.
Proof. solve_decision. Defined.

(** Python's [==] on these scalars. *)
Definition py_eqb (a b : pyval) : bool := bool_decide (a = b).

(** Truth value of a scalar: [None], the empty string and [0] are false. *)
Definition py_truth (v : pyval) : bool :=
  match v with
  | VNone => false
  | VStr s => negb (String.eqb s "")
  | VInt n => negb (n =? 0)
  end.

(** [str(v)], as used by the [%s] conversion. *)
Definition py_str (v : pyval) : string :=
  match v with
  | VNone => "None"
  | VStr s => s
  | VInt n => pretty n
  end.

(** Values stored in the device-info dictionary: a parsed token or the
    tuple made of the tokens of an [address] statement. *)
Inductive infoval :=
| IVal (v : pyval)
| ITuple (l : list pyval).

#[global] Instance infoval_eq_dec : EqDecision infoval.
Proof. solve_decision. Defined.

(** ** Exceptions and results *)

(** The exception classes the module raises. The message is the format
    string of the source; the interpolated details do not steer control
    flow. *)
Inductive Exc :=
| BlockDeviceError (msg : string)
| ProgrammerError (msg : string)
| ValueError (msg : string)
| IndexError
| TypeError
| IOError.

#[global] Instance Exc_eq_dec : EqDecision Exc.
Proof. solve_decision. Defined.

(** Outcome of a call: a value, a raised exception, or [Diverge] when
    the polling loop of [_AssembleNet] exhausted the iterations the
    model follows. *)
Inductive Res (A : Type) :=
| Ret (a : A)
| Raise (e : Exc)
| Diverge.
Arguments Ret {A} a.
Arguments Raise {A} e.
Arguments Diverge {A}.

Definition is_Ret {A} (r : Res A) : bool :=
  match r with Ret _ => true | _ => false end.

(** ** String helpers (str methods and the regular expressions) *)

Definition LF : ascii := "010"%char.
Definition CR : ascii := "013"%char.

Definition is_digit (c : ascii) : bool :=
  let n := N_of_ascii c in ((48 <=? n) && (n <=? 57))%N.
Definition is_upper (c : ascii) : bool :=
  let n := N_of_ascii c in ((65 <=? n) && (n <=? 90))%N.
Definition is_lower (c : ascii) : bool :=
  let n := N_of_ascii c in ((97 <=? n) && (n <=? 122))%N.
Definition is_alnum (c : ascii) : bool :=
  is_upper c || is_lower c || is_digit c.
(** [\w] for byte strings: alphanumerics and the underscore. *)
Definition is_word (c : ascii) : bool :=
  is_alnum c || Ascii.eqb c "_".
(** Whitespace of [str.strip()]: space, tab, LF, VT, FF, CR. *)
Definition is_space (c : ascii) : bool :=
  let n := N_of_ascii c in ((n =? 32) || ((9 <=? n) && (n <=? 13)))%N.

(** [str.splitlines()] on a byte string: lines end at LF, CR or CR LF;
    the terminators are dropped and a trailing terminator opens no
    further line. [after_cr] remembers that the previous character was a
    CR, so that a following LF belongs to the same terminator. *)
Fixpoint splitlines_aux (after_cr : bool) (acc s : string) : list string :=
  match s with
  | EmptyString => if String.eqb acc "" then [] else [acc]
  | String c r =>
      if Ascii.eqb c LF then
        if after_cr then splitlines_aux false "" r
        else acc :: splitlines_aux false "" r
      else if Ascii.eqb c CR then acc :: splitlines_aux true "" r
      else splitlines_aux false (acc +:+ String c "") r
  end.

Definition splitlines (s : string) : list string := splitlines_aux false "" s.

Fixpoint lstrip (s : string) : string :=
  match s with
  | String c r => if is_space c then lstrip r else s
  | EmptyString => ""
  end.

Fixpoint rstrip (s : string) : string :=
  match s with
  | EmptyString => ""
  | String c r =>
      match rstrip r with
      | EmptyString => if is_space c then "" else String c ""
      | r' => String c r'
      end
  end.

(** [s.strip()] *)
Definition strip (s : string) : string := rstrip (lstrip s).

(** [s.split(sep)] for a one-character separator: always at least one
    field. *)
Fixpoint split_on (sep : ascii) (s : string) : list string :=
  match s with
  | EmptyString => [""]
  | String c r =>
      if Ascii.eqb c sep then "" :: split_on sep r
      else match split_on sep r with
           | f :: fs => String c f :: fs
           | [] => [String c ""]
           end
  end.

(** [s[:n]] *)
Fixpoint slice_to (n : nat) (s : string) : string :=
  match n, s with
  | S n', String c r => String c (slice_to n' r)
  | _, _ => ""
  end.

(** Pieces of the regular expressions. Every pattern of the module is
    matched from the start of a line ([re.match]); the repetitions below
    are followed by a character outside their class in each pattern, so
    the greedy reading never has to give characters back. *)

(** [ *] *)
Fixpoint skip_spaces (s : string) : string :=
  match s with
  | String c r => if Ascii.eqb c " " then skip_spaces r else s
  | EmptyString => ""
  end.

(** A greedy run of characters of one class: the run and what follows. *)
Fixpoint span (p : ascii -> bool) (s : string) : string * string :=
  match s with
  | String c r =>
      if p c then let '(a, b) := span p r in (String c a, b) else ("", s)
  | EmptyString => ("", "")
  end.

(** A literal: what follows it, when the subject starts with it. *)
Fixpoint eat (lit s : string) : option string :=
  match lit, s with
  | EmptyString, _ => Some s
  | String a l, String c r => if Ascii.eqb a c then eat l r else None
  | String _ _, EmptyString => None
  end.

(** [([0-9]+)]: a non-empty run of digits and what follows. *)
Definition digits1 (s : string) : option (string * string) :=
  let '(d, r) := span is_digit s in
  if String.eqb d "" then None else Some (d, r).

(** [int(d)] for a string of decimal digits. *)
Fixpoint int_of_digits_aux (acc : Z) (d : string) : Z :=
  match d with
  | String c r => int_of_digits_aux (10 * acc + (Z.of_N (N_of_ascii c) - 48)) r
  | EmptyString => acc
  end.
Definition int_of_digits (d : string) : Z := int_of_digits_aux 0 d.

(** ** The outside world *)

(** What [utils.RunCmd] returns. Of its fields only [failed] and
    [stdout] are inspected; [output], [fail_reason] and [cmd] only end
    up in log and exception messages. *)
Record RunResult := mkRunResult { failed : bool; stdout : string }.

(** Parse results of the [drbdsetup show] grammar of [_GetShowParser]:
    a statement is its keyword followed by the value tokens (numbers
    already converted by the parse action); the top level is a sequence
    of sections and statements. *)
Record Stmt := mkStmt { keyword : string; values : list pyval }.

Inductive Entry :=
| ESection (name : string) (body : list Stmt)
| EStmt (s : Stmt).

(** The collaborators of the module.
    - [run]: [utils.RunCmd], which may change the world;
    - [proc_drbd]: the text of /proc/drbd;
    - [path_exists]: [os.path.exists];
    - [open_w]: [open(path, 'w')], [None] when it raises [IOError];
    - [truncate]: [f.truncate(size)] and [f.close()] on the file just
      opened, [None] when it raises [IOError];
    - [time_time], [time_sleep]: the clock, in seconds;
    - [parseString]: the pyparsing grammar applied to the show output,
      [None] on [ParseException];
    - [py_int], [py_float]: the builtins [int] and [float] on strings,
      [None] on [ValueError]; a float is given by its value;
    - [dict_order]: the order in which a dictionary with the given
      integer keys is iterated;
    - [poll_fuel]: how many rounds of the polling loop are followed. *)
Class Env := {
  World : Type;
  run : list pyval -> World -> RunResult * World;
  proc_drbd : World -> string;
  path_exists : pyval -> World -> bool;
  open_w : pyval -> World -> option World;
  truncate : pyval -> Z -> World -> option World;
  time_time : World -> Q;
  time_sleep : Q -> World -> World;
  parseString : string -> option (list Entry);
  py_int : string -> option Z;
  py_float : string -> option Q;
  dict_order : list Z -> list Z;
  poll_fuel : nat
}.

(** ** Devices *)

(** The driver class of an object, with the attributes its constructor
    derives from the unique id. *)
Inductive DevClass :=
| LogicalVolume (_vg_name _lv_name : pyval)
| DRBD8 (_lhost _lport _rhost _rport : pyval)
| FileStorage (driver : pyval).

#[global] Instance DevClass_eq_dec : EqDecision DevClass.
Proof. solve_decision. Defined.

(** A [BlockDev] object. The children are owned by their parent: the
    device is a tree. *)
#[warnings="-register-all"]
Inductive BlockDev := mkDev {
  cls : DevClass;
  unique_id : list pyval;
  _children : list BlockDev;
  dev_path : pyval;
  major : option Z;
  minor : option Z
}.

Definition set_children (d : BlockDev) (cs : list BlockDev) : BlockDev :=
  mkDev (cls d) (unique_id d) cs (dev_path d) (major d) (minor d).
Definition set_dev_path (d : BlockDev) (p : pyval) : BlockDev :=
  mkDev (cls d) (unique_id d) (_children d) p (major d) (minor d).
Definition set_major (d : BlockDev) (m : option Z) : BlockDev :=
  mkDev (cls d) (unique_id d) (_children d) (dev_path d) m (minor d).
Definition set_minor (d : BlockDev) (m : option Z) : BlockDev :=
  mkDev (cls d) (unique_id d) (_children d) (dev_path d) (major d) m.

Section Bdev.
Context `{Env}.

(** ** State and monads *)

(** The state threaded through every call: the world and the commands
    run so far, oldest first. *)
Record St := mkSt { world : World; cmds : list (list pyval) }.

(** Class-level code: a state transformer with exceptions. *)
Definition Cmd (A : Type) : Type := St -> Res A * St.

Definition ret {A} (a : A) : Cmd A := fun s => (Ret a, s).
Definition raise {A} (e : Exc) : Cmd A := fun s => (Raise e, s).
Definition diverge {A} : Cmd A := fun s => (Diverge, s).
Definition bind {A B} (m : Cmd A) (k : A -> Cmd B) : Cmd B :=
  fun s =>
    match m s with
    | (Ret a, s') => k a s'
    | (Raise e, s') => (Raise e, s')
    | (Diverge, s') => (Diverge, s')
    end.

(** Methods: the receiver is part of the state, so that what a method
    assigned before raising stays assigned. *)
Definition Meth (A : Type) : Type := BlockDev -> St -> Res A * BlockDev * St.

Definition mret {A} (a : A) : Meth A := fun d s => (Ret a, d, s).
Definition mraise {A} (e : Exc) : Meth A := fun d s => (Raise e, d, s).
Definition mbind {A B} (m : Meth A) (k : A -> Meth B) : Meth B :=
  fun d s =>
    match m d s with
    | (Ret a, d', s') => k a d' s'
    | (Raise e, d', s') => (Raise e, d', s')
    | (Diverge, d', s') => (Diverge, d', s')
    end.
(** Class-level code called from a method. *)
Definition lift {A} (m : Cmd A) : Meth A :=
  fun d s => let '(r, s') := m s in (r, d, s').
(** Reading and assigning attributes of [self]. *)
Definition self : Meth BlockDev := fun d s => (Ret d, d, s).
Definition assign (f : BlockDev -> BlockDev) : Meth unit :=
  fun d s => (Ret tt, f d, s).

End Bdev.

Declare Scope cmd_scope.
Delimit Scope cmd_scope with cmd.
Notation "x <- m ;; k" := (bind m (fun x => k))
  (at level 100, m at next level, right associativity) : cmd_scope.
Notation "m ;;; k" := (bind m (fun _ => k))
  (at level 100, right associativity) : cmd_scope.

Declare Scope meth_scope.
Delimit Scope meth_scope with meth.
Notation "x <- m ;; k" := (mbind m (fun x => k))
  (at level 100, m at next level, right associativity) : meth_scope.
Notation "m ;;; k" := (mbind m (fun _ => k))
  (at level 100, right associativity) : meth_scope.

Open Scope cmd_scope.

(** ** Access to the world *)

Section World.
Context `{Env}.

(** [utils.RunCmd(argv)]: runs the command and records it. *)
Definition RunCmd (argv : list pyval) : Cmd RunResult :=
  fun s =>
    let '(r, w) := run argv (world s) in
    (Ret r, mkSt w (cmds s ++ [argv])).

Definition read_proc_drbd : Cmd string :=
  fun s => (Ret (proc_drbd (world s)), s).

Definition os_path_exists (p : pyval) : Cmd bool :=
  fun s => (Ret (path_exists p (world s)), s).

Definition time_now : Cmd Q :=
  fun s => (Ret (time_time (world s)), s).

Definition sleep (secs : Q) : Cmd unit :=
  fun s => (Ret tt, mkSt (time_sleep secs (world s)) (cmds s)).

(** Iteration over an association list in the order of the accumulated
    result: the body may raise. *)
Fixpoint foldM {A B} (f : B -> A -> Res B) (l : list A) (b : B) : Res B :=
  match l with
  | [] => Ret b
  | a :: l' =>
      match f b a with
      | Ret b' => foldM f l' b'
      | Raise e => Raise e
      | Diverge => Diverge
      end
  end.

(** A pure computation with exceptions, run as a command. *)
Definition lift_res {A} (r : Res A) : Cmd A := fun s => (r, s).

End World.

(** ** BlockDev: the abstract class *)

(** [(sync_percent, estimated_time, is_degraded, ldisk)] *)
Definition SyncStatus : Type := option Q * option Z * bool * bool.

Section BlockDevClass.
Context `{Env}.

(** [BlockDev.__init__] *)
Definition BlockDev_init (c : DevClass) (unique_id : list pyval)
    (children : list BlockDev) : BlockDev :=
  mkDev c unique_id children VNone None None.

(** The methods of the children, reached by dynamic dispatch. *)
Variable child_Assemble : Meth bool.
Variable child_Open : Meth (option bool).
Variable child_Shutdown : Meth bool.

(** [for child in self._children: child.Shutdown()]. [done] are the
    children already visited (with what the call left of them), [todo]
    the ones still to visit. *)
Fixpoint shutdown_children (done todo : list BlockDev) (s : St)
    : Res unit * list BlockDev * St :=
  match todo with
  | [] => (Ret tt, done, s)
  | child :: rest =>
      match child_Shutdown child s with
      | (Ret _, child', s') => shutdown_children (done ++ [child']) rest s'
      | (Raise e, child', s') => (Raise e, done ++ child' :: rest, s')
      | (Diverge, child', s') => (Diverge, done ++ child' :: rest, s')
      end
  end.

(** The loop of [BlockDev.Assemble]. The result is [status] when the
    loop ends (by exhaustion or by [break]); an exception leaves through
    [Raise]. A child that is not a [BlockDev] cannot occur in a typed
    child list, so the [TypeError] branch has no counterpart. *)
Fixpoint assemble_children (done todo : list BlockDev) (s : St)
    : Res bool * list BlockDev * St :=
  match todo with
  | [] => (Ret true, done, s)
  | child :: rest =>
      match child_Assemble child s with
      | (Ret status, child1, s1) =>
          if negb status then (Ret false, done ++ child1 :: rest, s1)
          else
            match child_Open child1 s1 with
            | (Ret _, child2, s2) =>
                assemble_children (done ++ [child2]) rest s2
            | (Raise (BlockDeviceError msg), child2, s2) =>
                match shutdown_children [] (done ++ child2 :: rest) s2 with
                | (Ret _, cs, s3) => (Raise (BlockDeviceError msg), cs, s3)
                | (Raise e, cs, s3) => (Raise e, cs, s3)
                | (Diverge, cs, s3) => (Diverge, cs, s3)
                end
            | (Raise e, child2, s2) => (Raise e, done ++ child2 :: rest, s2)
            | (Diverge, child2, s2) => (Diverge, done ++ child2 :: rest, s2)
            end
      | (Raise e, child1, s1) => (Raise e, done ++ child1 :: rest, s1)
      | (Diverge, child1, s1) => (Diverge, done ++ child1 :: rest, s1)
      end
  end.

(** [BlockDev.Assemble] *)
Definition BlockDev_Assemble : Meth bool :=
  fun d s =>
    match assemble_children [] (_children d) s with
    | (Ret status, cs, s1) =>
        if negb status then
          match shutdown_children [] cs s1 with
          | (Ret _, cs', s2) => (Ret status, set_children d cs', s2)
          | (Raise e, cs', s2) => (Raise e, set_children d cs', s2)
          | (Diverge, cs', s2) => (Diverge, set_children d cs', s2)
          end
        else (Ret status, set_children d cs, s1)
    | (Raise e, cs, s1) => (Raise e, set_children d cs, s1)
    | (Diverge, cs, s1) => (Diverge, set_children d cs, s1)
    end.

End BlockDevClass.

(** Comparison of floats, kept as exact rationals. *)
Definition Qltb (a b : Q) : bool := negb (Qle_bool b a).

(** [min(a, b)] and [max(a, b)] of the builtins: the first argument
    stays unless the second is strictly better. *)
Definition py_min (a b : Q) : Q := if Qltb b a then b else a.
Definition py_max (a b : Z) : Z := if a <? b then b else a.

Section SyncStatusFold.
Context `{Env}.

(** [BlockDev.GetSyncStatus]: the default of the abstract class. *)
Definition BlockDev_GetSyncStatus : Meth SyncStatus :=
  mret (None, None, false, false).

(** Dynamic dispatch of [GetSyncStatus], for [self] and the children. *)
Variable GetSyncStatus : Meth SyncStatus.

(** One round of the loop body of [CombinedSyncStatus]: the running
    [(min_percent, max_time, is_degraded, ldisk)] and a child's status. *)
Definition combine_status (acc c : SyncStatus) : SyncStatus :=
  let '(min_percent, max_time, is_degraded, ldisk) := acc in
  let '(c_percent, c_time, c_degraded, c_ldisk) := c in
  (match min_percent with
   | None => c_percent
   | Some p => match c_percent with
               | Some cp => Some (py_min p cp)
               | None => Some p
               end
   end,
   match max_time with
   | None => c_time
   | Some t => match c_time with
               | Some ct => Some (py_max t ct)
               | None => Some t
               end
   end,
   is_degraded || c_degraded,
   ldisk || c_ldisk).

Fixpoint combine_children (done todo : list BlockDev) (acc : SyncStatus)
    (s : St) : Res SyncStatus * list BlockDev * St :=
  match todo with
  | [] => (Ret acc, done, s)
  | child :: rest =>
      match GetSyncStatus child s with
      | (Ret c, child', s') =>
          combine_children (done ++ [child']) rest (combine_status acc c) s'
      | (Raise e, child', s') => (Raise e, done ++ child' :: rest, s')
      | (Diverge, child', s') => (Diverge, done ++ child' :: rest, s')
      end
  end.

(** [BlockDev.CombinedSyncStatus] *)
Definition CombinedSyncStatus : Meth SyncStatus :=
  fun d s =>
    match GetSyncStatus d s with
    | (Ret own, d1, s1) =>
        let '(r, cs, s2) := combine_children [] (_children d1) own s1 in
        (r, set_children d1 cs, s2)
    | other => other
    end.

End SyncStatusFold.

(** ** LogicalVolume *)

(** [^ *Block device *([0-9]+):([0-9]+).*$] *)
Definition block_device_match (line : string) : option (string * string) :=
  match eat "Block device" (skip_spaces line) with
  | Some r =>
      match digits1 (skip_spaces r) with
      | Some (ma, r1) =>
          match eat ":" r1 with
          | Some r2 =>
              match digits1 r2 with
              | Some (mi, _) => Some (ma, mi)
              | None => None
              end
          | None => None
          end
      | None => None
      end
  | None => None
  end.

(** The tag sanitizer of [LogicalVolume.SetInfo]. *)
Definition tag_first_ok (c : ascii) : bool :=
  is_alnum c || Ascii.eqb c "_" || Ascii.eqb c "+" || Ascii.eqb c ".".
Definition tag_rest_ok (c : ascii) : bool :=
  Ascii.eqb c "-" || is_alnum c || Ascii.eqb c "_" || Ascii.eqb c "+"
  || Ascii.eqb c ".".

(** [re.sub('^[^A-Za-z0-9_+.]', '_', text)] *)
Definition sub_first (text : string) : string :=
  match text with
  | String c r => if tag_first_ok c then text else String "_" r
  | EmptyString => ""
  end.

(** [re.sub('[^-A-Za-z0-9_+.]', '_', text)] *)
Fixpoint sub_rest (text : string) : string :=
  match text with
  | String c r => String (if tag_rest_ok c then c else "_"%char) (sub_rest r)
  | EmptyString => ""
  end.

Definition sanitize_tag (text : string) : string :=
  slice_to 128 (sub_rest (sub_first text)).

(** Order of [list.sort()] on [(free_space, name)] tuples. *)
Definition pv_le (a b : Q * string) : bool :=
  Qltb a.1 b.1 || (Qeq_bool a.1 b.1 && String.leb a.2 b.2).

#[global] Instance pv_le_dec (a b : Q * string) : Decision (pv_le a b).
Proof. unfold Is_true. destruct (pv_le a b); [left | right]; tauto. Defined.

(** ** Floats

    A Python float is an IEEE 754 binary64 number. A finite float is
    kept as the rational number it denotes, which is exact for
    comparisons; arithmetic on floats rounds, and is done on the
    binary64 numbers themselves, with the addition of [SpecFloat]. *)
Definition prec : Z := 53.
Definition emax : Z := 1024.

(** The binary64 number nearest to a rational, ties to even: the
    quotient is taken to [prec + 2] bits at least and its last bit made
    sticky, then rounded. On the value of a float it gives that float. *)
Definition float_of_Q (q : Q) : spec_float :=
  let n := Qnum q in
  let d := Z.pos (Qden q) in
  if n =? 0 then S754_zero false
  else
    let k := Z.max 0 (prec + 2 + Z.log2 d - Z.log2 (Z.abs n)) in
    let '(quo, rem) := Z.div_eucl (Z.abs n * 2 ^ k) d in
    let m := 2 * quo + (if rem =? 0 then 0 else 1) in
    binary_normalize prec emax (if n <? 0 then - m else m) (- k - 1) false.

(** The value of a finite float. *)
Definition Q_of_float (f : spec_float) : option Q :=
  match f with
  | S754_zero _ => Some (inject_Z 0)
  | S754_finite sign m e =>
      let m := if sign then Z.neg m else Z.pos m in
      Some (Qred (if 0 <=? e then inject_Z (m * 2 ^ e)
                  else Qmake m (Z.to_pos (2 ^ (- e)))))
  | S754_infinity _ | S754_nan => None
  end.

(** [acc + x] for a float [acc] and the float of value [x]. *)
Definition float_add (acc : spec_float) (x : Q) : spec_float :=
  SFadd prec emax acc (float_of_Q x).

(** [sum(l)] on a list of floats: the additions are made from the left,
    starting from [0], each one rounded. *)
Definition py_sum (l : list Q) : spec_float :=
  fold_left float_add l (S754_zero false).

(** [f < n] for a float and an integer, which Python compares by
    value. *)
Definition float_ltb_int (f : spec_float) (n : Z) : bool :=
  match f with
  | S754_nan => false
  | S754_infinity sign => sign
  | _ =>
      match Q_of_float f with
      | Some q => Qltb q (inject_Z n)
      | None => false
      end
  end.

Section LogicalVolumeClass.
Context `{Env}.

(** The two attributes of a logical volume; other classes have none. *)
Definition lv_names (d : BlockDev) : pyval * pyval :=
  match cls d with
  | LogicalVolume vg lv => (vg, lv)
  | _ => (VNone, VNone)
  end.

(** [LogicalVolume.Attach] *)
Fixpoint lv_attach_scan (lines : list string) : option (Z * Z) :=
  match lines with
  | [] => None
  | line :: rest =>
      match block_device_match line with
      | Some (ma, mi) => Some (int_of_digits ma, int_of_digits mi)
      | None => lv_attach_scan rest
      end
  end.

Definition LogicalVolume_Attach : Meth bool :=
  fun d s =>
    match RunCmd [VStr "lvdisplay"; dev_path d] s with
    | (Ret result, s1) =>
        if failed result then (Ret false, d, s1)
        else
          match lv_attach_scan (splitlines (stdout result)) with
          | Some (ma, mi) =>
              (Ret true, set_minor (set_major d (Some ma)) (Some mi), s1)
          | None => (Ret false, d, s1)
          end
    | (Raise e, s1) => (Raise e, d, s1)
    | (Diverge, s1) => (Diverge, d, s1)
    end.

(** [LogicalVolume.__init__]: the result of [Attach] is dropped. *)
Definition LogicalVolume_init (unique_id : list pyval)
    (children : list BlockDev) : Cmd BlockDev :=
  match unique_id with
  | [vg_name; lv_name] =>
      let d := BlockDev_init (LogicalVolume vg_name lv_name) unique_id children in
      let d := set_dev_path d
                 (VStr ("/dev/" +:+ py_str vg_name +:+ "/" +:+ py_str lv_name)) in
      fun s => let '(r, d', s') := LogicalVolume_Attach d s in
               match r with
               | Ret _ => (Ret d', s')
               | Raise e => (Raise e, s')
               | Diverge => (Diverge, s')
               end
  | _ => raise (ValueError "Invalid configuration data %s")
  end.

(** [LogicalVolume.GetPVInfo]: [None] when the listing fails or a row
    does not have four fields. *)
Fixpoint pv_rows (vg_name : pyval) (lines : list string)
    (data : list (Q * string)) : Res (option (list (Q * string))) :=
  match lines with
  | [] => Ret (Some data)
  | line :: rest =>
      match split_on ":" (strip line) with
      | [f0; f1; f2; f3] =>
          if negb (py_eqb (VStr f1) vg_name) then pv_rows vg_name rest data
          else
            match f3 with
            | EmptyString => Raise IndexError
            | String c _ =>
                if negb (Ascii.eqb c "a") then pv_rows vg_name rest data
                else
                  match py_float f2 with
                  | Some free => pv_rows vg_name rest (data ++ [(free, f0)])
                  | None => Raise (ValueError "invalid literal for float()")
                  end
            end
      | _ => Ret None
      end
  end.

Definition GetPVInfo (vg_name : pyval) : Cmd (option (list (Q * string))) :=
  result <- RunCmd [VStr "pvs"; VStr "--noheadings"; VStr "--nosuffix";
                    VStr "--units=m"; VStr "-opv_name,vg_name,pv_free,pv_attr";
                    VStr "--unbuffered"; VStr "--separator=:"] ;;
  if failed result then ret None
  else lift_res (pv_rows vg_name (splitlines (stdout result)) []).

(** [pvs_info.sort(); pvs_info.reverse()] *)
Definition sort_reverse (pvs_info : list (Q * string)) : list (Q * string) :=
  rev (merge_sort (fun a b => pv_le a b) pvs_info).

(** [LogicalVolume.Create] *)
Definition LogicalVolume_Create (unique_id : list pyval)
    (children : list BlockDev) (size : Z) : Cmd BlockDev :=
  match unique_id with
  | [vg_name; lv_name] =>
      pvs_info <- GetPVInfo vg_name ;;
      match pvs_info with
      | None | Some [] =>
          raise (BlockDeviceError "Can't compute PV info for vg %s")
      | Some pvs_info =>
          let pvs_info := sort_reverse pvs_info in
          let pvlist := map (fun pv => VStr pv.2) pvs_info in
          let free_size := py_sum (map fst pvs_info) in
          if float_ltb_int free_size size then
            raise (BlockDeviceError "Not enough free space: required %s, available %s")
          else
            result <- RunCmd ([VStr "lvcreate";
                               VStr ("-L" +:+ pretty size +:+ "m");
                               VStr ("-n" +:+ py_str lv_name);
                               vg_name] ++ pvlist) ;;
            if failed result then raise (BlockDeviceError "%s - %s")
            else LogicalVolume_init unique_id children
      end
  | _ => raise (ValueError "Invalid configuration data %s")
  end.

(** [LogicalVolume.Assemble] *)
Definition LogicalVolume_Assemble : Meth bool :=
  fun d s =>
    let '(r, s1) := RunCmd [VStr "lvchange"; VStr "-ay"; dev_path d] s in
    match r with
    | Ret result => (Ret (negb (failed result)), d, s1)
    | Raise e => (Raise e, d, s1)
    | Diverge => (Diverge, d, s1)
    end.

(** [LogicalVolume.Shutdown]: a no-op. *)
Definition LogicalVolume_Shutdown : Meth bool := mret true.

(** [LogicalVolume.Open]: a no-op. *)
Definition LogicalVolume_Open (force : bool) : Meth (option bool) := mret None.

(** [LogicalVolume.GetSyncStatus] *)
Definition LogicalVolume_GetSyncStatus : Meth SyncStatus :=
  fun d s =>
    let '(r, s1) := RunCmd [VStr "lvs"; VStr "--noheadings"; VStr "-olv_attr";
                            dev_path d] s in
    match r with
    | Ret result =>
        if failed result then (Ret (None, None, true, true), d, s1)
        else
          let out := strip (stdout result) in
          if negb (String.length out =? 6)%nat then
            (Ret (None, None, true, true), d, s1)
          else
            let ldisk := match out with
                         | String c _ => Ascii.eqb c "v"
                         | EmptyString => false
                         end in
            (Ret (None, None, ldisk, ldisk), d, s1)
    | Raise e => (Raise e, d, s1)
    | Diverge => (Diverge, d, s1)
    end.

(** The part of [LogicalVolume.SetInfo] after the call of the base
    class: sanitize the text and add it as a tag. *)
Definition LogicalVolume_SetInfo_own (d : BlockDev) (text : string) : Cmd unit :=
  let text := sub_first text in
  let text := sub_rest text in
  let text := slice_to 128 text in
  result <- RunCmd [VStr "lvchange"; VStr "--addtag"; VStr text; dev_path d] ;;
  if failed result then raise (BlockDeviceError "Command: %s error: %s - %s")
  else ret tt.

End LogicalVolumeClass.

(** ** BaseDRBD *)

(** The lines handed to the patterns below come from [splitlines], so
    they hold no line terminator: [.] matches each of their characters
    and [$] only their end. *)

Definition _DRBD_MAJOR : Z := 147.
Definition _ST_UNCONFIGURED : string := "Unconfigured".
Definition _MAX_MINORS : Z := 255.

Record Version := mkVersion {
  k_major : Z; k_minor : Z; k_point : Z; api : Z; proto : Z;
  proto2 : option string
}.

(** [_VERSION_RE]:
    [^version: (\d+)\.(\d+)\.(\d+) \(api:(\d+)/proto:(\d+)(?:-(\d+))?\)] *)
Definition version_match (line : string) : option Version :=
  r ← eat "version: " line; '(a, r) ← digits1 r;
  r ← eat "." r; '(b, r) ← digits1 r;
  r ← eat "." r; '(c, r) ← digits1 r;
  r ← eat " (api:" r; '(d, r) ← digits1 r;
  r ← eat "/proto:" r; '(e, r) ← digits1 r;
  let mk := mkVersion (int_of_digits a) (int_of_digits b) (int_of_digits c)
                      (int_of_digits d) (int_of_digits e) in
  match (r1 ← eat "-" r; '(f, r2) ← digits1 r1; _ ← eat ")" r2; Some f) with
  | Some f => Some (mk (Some f))
  | None => _ ← eat ")" r; Some (mk None)
  end.

(** [^ *([0-9]+):.*$] of [_MassageProcData] *)
Definition lmatch (line : string) : option string :=
  '(d, r) ← digits1 (skip_spaces line); _ ← eat ":" r; Some d.

(** [^ *([0-9]+): cs:([^ ]+).*$] of [_GetUsedDevs] *)
Definition valid_line (line : string) : option (string * string) :=
  '(d, r) ← digits1 (skip_spaces line);
  r ← eat ": cs:" r;
  let '(state, _) := span (fun c => negb (Ascii.eqb c " ")) r in
  if String.eqb state "" then None else Some (d, state).

(** [^ *([0-9]+): cs:Unconfigured$] of [_FindUnusedMinor] *)
Definition unused_line (line : string) : option string :=
  '(d, r) ← digits1 (skip_spaces line);
  r ← eat ": cs:Unconfigured" r;
  if String.eqb r "" then Some d else None.

(** [^ *([0-9]+): cs:] of [_FindUnusedMinor] *)
Definition used_line (line : string) : option string :=
  '(d, r) ← digits1 (skip_spaces line); _ ← eat ": cs:" r; Some d.

(** [_MassageProcData]: the lines of /proc/drbd joined per minor.
    [old] is the pair [(old_minor, old_line)], absent before the first
    minor line. *)
Fixpoint massage_loop (data : list string) (results : gmap Z string)
    (old : option (Z * string)) : gmap Z string :=
  match data with
  | [] =>
      match old with
      | Some (old_minor, old_line) => <[old_minor := old_line]> results
      | None => results
      end
  | line :: rest =>
      match lmatch line with
      | Some d =>
          let results' :=
            match old with
            | Some (old_minor, old_line) => <[old_minor := old_line]> results
            | None => results
            end in
          massage_loop rest results' (Some (int_of_digits d, line))
      | None =>
          match old with
          | Some (old_minor, old_line) =>
              massage_loop rest results
                (Some (old_minor, old_line +:+ " " +:+ strip line))
          | None => massage_loop rest results None
          end
      end
  end.

Definition _MassageProcData (data : list string) : gmap Z string :=
  massage_loop data ∅ None.

(** [_DevPath]: ["/dev/drbd%d" % minor] *)
Definition _DevPath (minor : Z) : string := "/dev/drbd" +:+ pretty minor.

(** [_SetFromMinor] *)
Definition _SetFromMinor (d : BlockDev) (minor : option Z) : BlockDev :=
  mkDev (cls d) (unique_id d) (_children d)
        (match minor with
         | None => VNone
         | Some m => VStr (_DevPath m)
         end)
        (major d) minor.

(** [max(highest, minor)], where [highest] may still be [None], which
    Python 2 orders below every number. *)
Definition max_highest (highest : option Z) (minor : Z) : Z :=
  match highest with
  | None => minor
  | Some h => py_max h minor
  end.

(** The loop of [_FindUnusedMinor] and what follows it. *)
Fixpoint find_unused_scan (data : list string) (highest : option Z) : Res Z :=
  match data with
  | [] =>
      match highest with
      | None => Ret 0
      | Some h =>
          if _MAX_MINORS <=? h then
            Raise (BlockDeviceError "Can't find a free DRBD minor")
          else Ret (h + 1)
      end
  | line :: rest =>
      match unused_line line with
      | Some d => Ret (int_of_digits d)
      | None =>
          match used_line line with
          | Some d =>
              find_unused_scan rest (Some (max_highest highest (int_of_digits d)))
          | None => find_unused_scan rest highest
          end
      end
  end.

(** The dictionary [used_devs] of [_GetUsedDevs]. *)
Fixpoint used_devs_scan (data : list string)
    (used_devs : gmap Z (string * string)) : gmap Z (string * string) :=
  match data with
  | [] => used_devs
  | line :: rest =>
      match valid_line line with
      | None => used_devs_scan rest used_devs
      | Some (d, state) =>
          if String.eqb state _ST_UNCONFIGURED then used_devs_scan rest used_devs
          else used_devs_scan rest (<[int_of_digits d := (state, line)]> used_devs)
      end
  end.

(** Membership and comparison on the device-info dictionary. *)
Definition has_key (k : string) (info : gmap string infoval) : bool :=
  match info !! k with Some _ => true | None => false end.
Definition key_is (k : string) (v : infoval) (info : gmap string infoval) : bool :=
  bool_decide (info !! k = Some v).

(** The massaging of the parse results in [_GetDevInfo]. *)
Definition this_host_stmt (data : gmap string infoval) (lst : Stmt)
    : Res (gmap string infoval) :=
  if String.eqb (keyword lst) "disk" then
    match values lst with
    | v :: _ => Ret (<["local_dev" := IVal v]> data)
    | [] => Raise IndexError
    end
  else if String.eqb (keyword lst) "meta-disk" then
    match values lst with
    | v1 :: v2 :: _ =>
        Ret (<["meta_index" := IVal v2]> (<["meta_dev" := IVal v1]> data))
    | _ => Raise IndexError
    end
  else if String.eqb (keyword lst) "address" then
    Ret (<["local_addr" := ITuple (values lst)]> data)
  else Ret data.

Definition remote_host_stmt (data : gmap string infoval) (lst : Stmt)
    : Res (gmap string infoval) :=
  if String.eqb (keyword lst) "address" then
    Ret (<["remote_addr" := ITuple (values lst)]> data)
  else Ret data.

(** A top-level statement starts with a keyword made of alphanumerics
    and [-]; it is never one of the two section names. *)
Definition massage_entry (data : gmap string infoval) (section : Entry)
    : Res (gmap string infoval) :=
  match section with
  | ESection sname body =>
      if String.eqb sname "_this_host" then foldM this_host_stmt body data
      else if String.eqb sname "_remote_host" then foldM remote_host_stmt body data
      else Ret data
  | EStmt _ => Ret data
  end.

Section BaseDRBDClass.
Context `{Env}.

(** [BaseDRBD._GetProcData] *)
Definition _GetProcData : Cmd (list string) :=
  text <- read_proc_drbd ;;
  let data := splitlines text in
  match data with
  | [] => raise (BlockDeviceError "Can't read any data from /proc/drbd")
  | _ => ret data
  end.

(** [BaseDRBD._GetVersion] *)
Definition _GetVersion : Cmd Version :=
  proc_data <- _GetProcData ;;
  match proc_data with
  | [] => raise IndexError
  | l :: _ =>
      let first_line := strip l in
      match version_match first_line with
      | None => raise (BlockDeviceError "Can't parse DRBD version from '%s'")
      | Some v => ret v
      end
  end.

(** [BaseDRBD._GetUsedDevs] *)
Definition _GetUsedDevs : Cmd (gmap Z (string * string)) :=
  data <- _GetProcData ;;
  ret (used_devs_scan data ∅).

(** [BaseDRBD._CheckMetaSize] *)
Definition _CheckMetaSize (meta_device : pyval) : Cmd bool :=
  result <- RunCmd [VStr "blockdev"; VStr "--getsize"; meta_device] ;;
  if failed result then ret false
  else
    match py_int (stdout result) with
    | None => ret false
    | Some sectors =>
        let bytes := sectors * 512 in
        if bytes <? 128 * 1024 * 1024 then ret false
        else if (128 + 32) * 1024 * 1024 <? bytes then ret false
        else ret true
    end.

End BaseDRBDClass.

(** ** DRBD8 *)

Section DRBD8Class.
Context `{Env}.

(** The four endpoints of a DRBD8 object; other classes have none. *)
Definition net_of (d : BlockDev) : pyval * pyval * pyval * pyval :=
  match cls d with
  | DRBD8 lhost lport rhost rport => (lhost, lport, rhost, rport)
  | _ => (VNone, VNone, VNone, VNone)
  end.

(** [DRBD8._InitMeta] *)
Definition _InitMeta (minor : Z) (dev_path : pyval) : Cmd unit :=
  result <- RunCmd [VStr "drbdmeta"; VStr "--force"; VStr (_DevPath minor);
                    VStr "v08"; dev_path; VStr "0"; VStr "create-md"] ;;
  if failed result then
    raise (BlockDeviceError "Can't initialize meta device: %s")
  else ret tt.

(** [DRBD8._FindUnusedMinor] *)
Definition _FindUnusedMinor : Cmd Z :=
  data <- _GetProcData ;;
  lift_res (find_unused_scan data None).

(** [DRBD8._IsValidMeta] *)
Definition _IsValidMeta (meta_device : pyval) : Cmd bool :=
  minor <- _FindUnusedMinor ;;
  let minor_path := _DevPath minor in
  result <- RunCmd [VStr "drbdmeta"; VStr minor_path; VStr "v08"; meta_device;
                    VStr "0"; VStr "dstate"] ;;
  if failed result then ret false else ret true.

(** [DRBD8._GetShowData] *)
Definition _GetShowData (minor : Z) : Cmd (option string) :=
  result <- RunCmd [VStr "drbdsetup"; VStr (_DevPath minor); VStr "show"] ;;
  if failed result then ret None else ret (Some (stdout result)).

(** [DRBD8._GetDevInfo] *)
Definition _GetDevInfo (out : option string) : Cmd (gmap string infoval) :=
  match out with
  | None | Some EmptyString => ret ∅
  | Some out =>
      match parseString out with
      | None => raise (BlockDeviceError "Can't parse drbdsetup show output: %s")
      | Some results => lift_res (foldM massage_entry results ∅)
      end
  end.

(** [DRBD8._MatchesLocal]; the unpacking of [self._children] raises
    unless there are exactly two of them. *)
Definition matches_local (backend meta : option BlockDev)
    (info : gmap string infoval) : bool :=
  let retval :=
    match backend with
    | Some b => has_key "local_dev" info && key_is "local_dev" (IVal (dev_path b)) info
    | None => negb (has_key "local_dev" info)
    end in
  match meta with
  | Some m =>
      let retval := retval && (has_key "meta_dev" info
                               && key_is "meta_dev" (IVal (dev_path m)) info) in
      retval && (has_key "meta_index" info
                 && key_is "meta_index" (IVal (VInt 0)) info)
  | None =>
      retval && (negb (has_key "meta_dev" info)
                 && negb (has_key "meta_index" info))
  end.

Definition _MatchesLocal (d : BlockDev) (info : gmap string infoval) : Res bool :=
  match _children d with
  | [] => Ret (matches_local None None info)
  | [backend; meta] => Ret (matches_local (Some backend) (Some meta) info)
  | _ => Raise (ValueError "too many values to unpack")
  end.

(** [DRBD8._MatchesNet] *)
Definition _MatchesNet (d : BlockDev) (info : gmap string infoval) : bool :=
  let '(lhost, lport, rhost, rport) := net_of d in
  if (py_eqb lhost VNone && negb (has_key "local_addr" info))
     && (py_eqb rhost VNone && negb (has_key "remote_addr" info)) then true
  else if py_eqb lhost VNone then false
  else if negb (has_key "local_addr" info && has_key "remote_addr" info) then false
  else
    let retval := key_is "local_addr" (ITuple [lhost; lport]) info in
    retval && key_is "remote_addr" (ITuple [rhost; rport]) info.

(** [DRBD8._ShutdownLocal], [_ShutdownNet], [_ShutdownAll] *)
Definition _ShutdownLocal (minor : Z) : Cmd bool :=
  result <- RunCmd [VStr "drbdsetup"; VStr (_DevPath minor); VStr "detach"] ;;
  ret (negb (failed result)).

Definition _ShutdownNet (minor : Z) : Cmd bool :=
  result <- RunCmd [VStr "drbdsetup"; VStr (_DevPath minor); VStr "disconnect"] ;;
  ret (negb (failed result)).

Definition _ShutdownAll (minor : Z) : Cmd bool :=
  result <- RunCmd [VStr "drbdsetup"; VStr (_DevPath minor); VStr "down"] ;;
  ret (negb (failed result)).

(** [DRBD8._AssembleLocal] *)
Definition _AssembleLocal (minor : Z) (backend meta : pyval) : Cmd bool :=
  valid <- _IsValidMeta meta ;;
  if negb valid then ret false
  else
    result <- RunCmd [VStr "drbdsetup"; VStr (_DevPath minor); VStr "disk";
                      backend; meta; VStr "0"; VStr "-e"; VStr "detach";
                      VStr "--create-device"] ;;
    ret (negb (failed result)).

(** The polling loop of [_AssembleNet]: [ok] when it ends. *)
Fixpoint poll_net (fuel : nat) (minor : Z) (lhost lport rhost rport : pyval)
    (timeout : Q) : Cmd bool :=
  match fuel with
  | O => diverge
  | S fuel' =>
      now <- time_now ;;
      if Qltb now timeout then
        out <- _GetShowData minor ;;
        info <- _GetDevInfo out ;;
        if negb (has_key "local_addr" info) || negb (has_key "remote_addr" info)
        then sleep (inject_Z 1) ;;; poll_net fuel' minor lhost lport rhost rport timeout
        else if negb (key_is "local_addr" (ITuple [lhost; lport]) info)
                || negb (key_is "remote_addr" (ITuple [rhost; rport]) info)
        then sleep (inject_Z 1) ;;; poll_net fuel' minor lhost lport rhost rport timeout
        else ret true
      else ret false
  end.

(** [DRBD8._AssembleNet] *)
Definition _AssembleNet (minor : Z) (net_info : pyval * pyval * pyval * pyval)
    (protocol : string) (dual_pri : bool) (hmac secret : pyval) : Cmd bool :=
  let '(lhost, lport, rhost, rport) := net_info in
  if py_eqb lhost VNone || py_eqb lport VNone || py_eqb rhost VNone
     || py_eqb rport VNone then _ShutdownNet minor
  else
    let args := [VStr "drbdsetup"; VStr (_DevPath minor); VStr "net";
                 VStr (py_str lhost +:+ ":" +:+ py_str lport);
                 VStr (py_str rhost +:+ ":" +:+ py_str rport);
                 VStr protocol;
                 VStr "-A"; VStr "discard-zero-changes";
                 VStr "-B"; VStr "consensus";
                 VStr "--create-device"] in
    let args := if dual_pri then args ++ [VStr "-m"] else args in
    let args := if py_truth hmac && py_truth secret
                then args ++ [VStr "-a"; hmac; VStr "-x"; secret] else args in
    result <- RunCmd args ;;
    if failed result then ret false
    else
      now <- time_now ;;
      let timeout := Qplus now (inject_Z 10) in
      ok <- poll_net poll_fuel minor lhost lport rhost rport timeout ;;
      if negb ok then ret false else ret true.

(** The show-info of a minor: [_GetDevInfo(_GetShowData(minor))]. *)
Definition show_info (minor : Z) : Cmd (gmap string infoval) :=
  out <- _GetShowData minor ;; _GetDevInfo out.

(** The loop of [DRBD8.Attach] over the used minors: the minor at which
    it breaks, or [None] when it runs to its [else] clause. *)
Fixpoint Attach_loop (d : BlockDev) (minors : list Z) : Cmd (option Z) :=
  match minors with
  | [] => ret None
  | minor :: rest =>
      info <- show_info minor ;;
      match_l <- lift_res (_MatchesLocal d info) ;;
      let match_r := _MatchesNet d info in
      if match_l && match_r then ret (Some minor)
      else
        found <- (if match_l && negb match_r && negb (has_key "local_addr" info)
                  then
                    res_r <- _AssembleNet minor (net_of d) "C" false VNone VNone ;;
                    if res_r then
                      info' <- show_info minor ;; ret (_MatchesNet d info')
                    else ret false
                  else ret false) ;;
        if (found : bool) then ret (Some minor)
        else if match_r && negb (has_key "local_dev" info) then ret (Some minor)
        else
          found <- (if match_l && has_key "local_dev" info
                       && negb match_r && has_key "local_addr" info
                    then
                      down <- _ShutdownNet minor ;;
                      if negb down then
                        raise (BlockDeviceError
                          "Device has correct local storage, wrong remote peer and is unable to disconnect in order to attach to the correct peer")
                      else
                        res_r <- _AssembleNet minor (net_of d) "C" false VNone VNone ;;
                        if res_r then
                          info' <- show_info minor ;; ret (_MatchesNet d info')
                        else ret false
                    else ret false) ;;
          if (found : bool) then ret (Some minor) else Attach_loop d rest
  end.

(** The minor [DRBD8.Attach] settles on. *)
Definition Attach_find (d : BlockDev) : Cmd (option Z) :=
  used_devs <- _GetUsedDevs ;;
  Attach_loop d (dict_order (map fst (map_to_list used_devs))).

(** [DRBD8.Attach] *)
Definition DRBD8_Attach : Meth bool :=
  fun d s =>
    match Attach_find d s with
    | (Ret minor, s') =>
        (Ret (bool_decide (minor <> None)), _SetFromMinor d minor, s')
    | (Raise e, s') => (Raise e, d, s')
    | (Diverge, s') => (Diverge, d, s')
    end.

(** [self.minor is None and not self.Attach()], the guard that opens
    several methods: the truth of the condition. *)
Definition not_attached : Meth bool :=
  fun d s =>
    match minor d with
    | Some _ => (Ret false, d, s)
    | None =>
        match DRBD8_Attach d s with
        | (Ret b, d', s') => (Ret (negb b), d', s')
        | other => other
        end
    end.

Open Scope meth_scope.

(** [DRBD8.Open] *)
Definition DRBD8_Open (force : bool) : Meth (option bool) :=
  na <- not_attached ;;
  if (na : bool) then mret (Some false)
  else
    d <- self ;;
    let cmd := [VStr "drbdsetup"; dev_path d; VStr "primary"] in
    let cmd := if force then cmd ++ [VStr "-o"] else cmd in
    result <- lift (RunCmd cmd) ;;
    if failed result then
      mraise (BlockDeviceError "Can't make drbd device primary: %s")
    else mret None.

(** [DRBD8.Shutdown] *)
Definition DRBD8_Shutdown : Meth bool :=
  na <- not_attached ;;
  if (na : bool) then mret true
  else
    d <- self ;;
    match minor d with
    | None => mraise TypeError
    | Some m =>
        down <- lift (_ShutdownAll m) ;;
        if negb down then mret false
        else
          assign (fun d => set_minor d None) ;;;
          assign (fun d => set_dev_path d VNone) ;;;
          mret true
    end.

(** [DRBD8.Remove] *)
Definition DRBD8_Remove : Meth bool := DRBD8_Shutdown.

Close Scope meth_scope.

(** The rightmost suffix of [s] at which [f] matches: what a leading
    greedy [.*] selects. *)
Fixpoint find_last {A} (f : string -> option A) (s : string) : option A :=
  match s with
  | EmptyString => f ""
  | String c r =>
      match find_last f r with
      | Some a => Some a
      | None => f s
      end
  end.

(** [ finish: ([0-9]+):([0-9]+):([0-9]+) .*$] *)
Definition finish_match (s : string) : option (string * string * string) :=
  r ← eat " finish: " s; '(h, r) ← digits1 r;
  r ← eat ":" r; '(m, r) ← digits1 r;
  r ← eat ":" r; '(sec, r) ← digits1 r;
  _ ← eat " " r; Some (h, m, sec).

(** [sync'ed: *([0-9.]+)%.* finish: ([0-9]+):([0-9]+):([0-9]+) .*$] *)
Definition synced_match (s : string)
    : option (string * (string * string * string)) :=
  r ← eat "sync'ed:" s;
  let '(p, r) := span (fun c => is_digit c || Ascii.eqb c ".") (skip_spaces r) in
  if String.eqb p "" then None
  else r ← eat "%" r; hms ← find_last finish_match r; Some (p, hms).

(** [ds:(\w+)/(\w+).*$] *)
Definition ds_match (s : string) : option (string * string) :=
  r ← eat "ds:" s;
  let '(a, r) := span is_word r in
  if String.eqb a "" then None
  else
    r ← eat "/" r;
    let '(b, _) := span is_word r in
    if String.eqb b "" then None else Some (a, b).

(** [(\w+)] followed by [tail]: the longest run of word characters
    after which [tail] matches. *)
Fixpoint word_then {A} (tail : string -> option A) (s : string)
    : option (string * A) :=
  match s with
  | String c r =>
      if is_word c then
        match word_then tail r with
        | Some (w, a) => Some (String c w, a)
        | None =>
            match tail r with
            | Some a => Some (String c "", a)
            | None => None
            end
        end
      else None
  | EmptyString => None
  end.

(** [^ *\d+: cs:(\w+).*ds:(\w+)/(\w+).*$]: groups 1 and 2. *)
Definition state_match (line : string) : option (string * string) :=
  '(_, r) ← digits1 (skip_spaces line);
  r ← eat ": cs:" r;
  '(cs, ds) ← word_then (find_last ds_match) r;
  Some (cs, ds.1).

Open Scope meth_scope.

(** [DRBD8.GetSyncStatus] *)
Definition DRBD8_GetSyncStatus : Meth SyncStatus :=
  na <- not_attached ;;
  if (na : bool) then
    mraise (BlockDeviceError "Can't attach to device in GetSyncStatus")
  else
    data <- lift _GetProcData ;;
    let proc_info := _MassageProcData data in
    d <- self ;;
    match minor d with
    | None => mraise (BlockDeviceError "Can't find myself in /proc (minor %d)")
    | Some m =>
        match proc_info !! m with
        | None => mraise (BlockDeviceError "Can't find myself in /proc (minor %d)")
        | Some line =>
            sync <- lift (lift_res
              match find_last synced_match line with
              | Some (p, (hours, minutes, seconds)) =>
                  match py_float p with
                  | Some sync_percent =>
                      Ret (Some sync_percent,
                           Some (int_of_digits hours * 3600
                                 + int_of_digits minutes * 60
                                 + int_of_digits seconds))
                  | None => Raise (ValueError "invalid literal for float()")
                  end
              | None => Ret (None, None)
              end) ;;
            match state_match line with
            | None => mraise (BlockDeviceError "Can't find my data in /proc (minor %d)")
            | Some (client_state, local_disk_state) =>
                let ldisk := negb (String.eqb local_disk_state "UpToDate") in
                let is_degraded := negb (String.eqb client_state "Connected") in
                mret (sync.1, sync.2, is_degraded || ldisk, ldisk)
            end
        end
    end.

Close Scope meth_scope.

(** The part of [DRBD8.Assemble] that configures a fresh minor once
    the children are up: the minor to record, or [None] where the
    method returns [False]. *)
Definition assemble_fresh (d : BlockDev) : Cmd (option Z) :=
  minor <- _FindUnusedMinor ;;
  local <- match _children d with
           | [] => ret (Some false)
           | [_] => raise IndexError
           | c0 :: c1 :: _ =>
               result <- _AssembleLocal minor (dev_path c0) (dev_path c1) ;;
               if negb result then ret None else ret (Some true)
           end ;;
  match local with
  | None => ret None
  | Some need_localdev_teardown =>
      let '(lhost, lport, rhost, rport) := net_of d in
      if py_truth lhost && py_truth lport && py_truth rhost && py_truth rport
      then
        result <- _AssembleNet minor (lhost, lport, rhost, rport)
                               "C" false VNone VNone ;;
        if negb result then
          (if (need_localdev_teardown : bool)
           then _ShutdownAll minor ;;; ret None
           else ret None)
        else ret (Some minor)
      else ret (Some minor)
  end.

(** [DRBD8.Assemble]. [super_Assemble] is [BlockDev.Assemble] with the
    methods of the children. [Attach] only assigns [minor] and
    [dev_path], through [_SetFromMinor]. *)
Definition DRBD8_Assemble (super_Assemble : Meth bool) : Meth bool :=
  fun d s =>
    match Attach_find d s with
    | (Ret found, s1) =>
        let d1 := _SetFromMinor d found in
        match found with
        | Some _ => (Ret true, d1, s1)
        | None =>
            match super_Assemble d1 s1 with
            | (Ret result, d2, s2) =>
                if negb result then (Ret result, d2, s2)
                else
                  match assemble_fresh d2 s2 with
                  | (Ret (Some minor), s3) =>
                      (Ret true, _SetFromMinor d2 (Some minor), s3)
                  | (Ret None, s3) => (Ret false, d2, s3)
                  | (Raise e, s3) => (Raise e, d2, s3)
                  | (Diverge, s3) => (Diverge, d2, s3)
                  end
            | other => other
            end
        end
    | (Raise e, s1) => (Raise e, d, s1)
    | (Diverge, s1) => (Diverge, d, s1)
    end.

(** [DRBD8.__init__]. A typed child list holds no [None], so the
    normalisation of [(None, None)] to the empty list has nothing to
    do. The result of [Attach] is dropped. *)
Definition DRBD8_init (unique_id : list pyval) (children : list BlockDev)
    : Cmd BlockDev :=
  version <- _GetVersion ;;
  if negb (k_major version =? 8) then
    raise (BlockDeviceError
      "Mismatch in DRBD kernel version and requested ganeti usage: kernel is %s.%s, ganeti wants 8.x")
  else if negb ((length children =? 0)%nat || (length children =? 2)%nat) then
    raise (ValueError "Invalid configuration data %s")
  else
    match unique_id with
    | [lhost; lport; rhost; rport] =>
        let d := set_major (BlockDev_init (DRBD8 lhost lport rhost rport)
                                          unique_id children)
                           (Some _DRBD_MAJOR) in
        fun s => let '(r, d', s') := DRBD8_Attach d s in
                 match r with
                 | Ret _ => (Ret d', s')
                 | Raise e => (Raise e, s')
                 | Diverge => (Diverge, s')
                 end
    | _ => raise (ValueError "Invalid configuration data %s")
    end.

End DRBD8Class.

(** ** FileStorage *)

Section FileStorageClass.
Context `{Env}.

(** [FileStorage.__init__] *)
Definition FileStorage_init (unique_id : list pyval) (children : list BlockDev)
    : Cmd BlockDev :=
  match children with
  | _ :: _ => raise (BlockDeviceError "Invalid setup for file device")
  | [] =>
      match unique_id with
      | [driver; path] =>
          ret (set_dev_path (BlockDev_init (FileStorage driver) unique_id children)
                            path)
      | _ => raise (ValueError "Invalid configuration data %s")
      end
  end.

(** [FileStorage.Assemble] *)
Definition FileStorage_Assemble : Meth bool :=
  fun d s =>
    if path_exists (dev_path d) (world s) then (Ret true, d, s)
    else (Raise (BlockDeviceError "File device '%s' does not exist."), d, s).

(** [FileStorage.Shutdown], [FileStorage.Open]: no-ops. *)
Definition FileStorage_Shutdown : Meth bool := mret true.
Definition FileStorage_Open (force : bool) : Meth (option bool) := mret None.

(** [FileStorage.Attach] *)
Definition FileStorage_Attach : Meth bool :=
  fun d s => (Ret (path_exists (dev_path d) (world s)), d, s).

(** [FileStorage.Create]. The handler of [IOError] formats its message
    with ["Could not create '%'" % err]; the conversion [%'] does not
    exist, so the formatting itself raises [ValueError]. *)
Definition FileStorage_Create (unique_id : list pyval)
    (children : list BlockDev) (size : Z) : Cmd BlockDev :=
  match unique_id with
  | [_; dev_path] =>
      fun s =>
        match open_w dev_path (world s) with
        | None => (Raise (ValueError "unsupported format character"), s)
        | Some w =>
            match truncate dev_path (size * 1024 * 1024) w with
            | None => (Raise IOError, mkSt w (cmds s))
            | Some w' => FileStorage_init unique_id children (mkSt w' (cmds s))
            end
        end
  | _ => raise (ValueError "Invalid configuration data %s")
  end.

End FileStorageClass.

(** ** Dynamic dispatch and the factory *)

Section Dispatch.
Context `{Env}.

Definition Attach : Meth bool :=
  fun d =>
    match cls d with
    | LogicalVolume _ _ => LogicalVolume_Attach d
    | DRBD8 _ _ _ _ => DRBD8_Attach d
    | FileStorage _ => FileStorage_Attach d
    end.

Definition Open (force : bool) : Meth (option bool) :=
  fun d =>
    match cls d with
    | LogicalVolume _ _ => LogicalVolume_Open force d
    | DRBD8 _ _ _ _ => DRBD8_Open force d
    | FileStorage _ => FileStorage_Open force d
    end.

Definition Shutdown : Meth bool :=
  fun d =>
    match cls d with
    | LogicalVolume _ _ => LogicalVolume_Shutdown d
    | DRBD8 _ _ _ _ => DRBD8_Shutdown d
    | FileStorage _ => FileStorage_Shutdown d
    end.

(** [FileStorage] inherits the default of the abstract class. *)
Definition GetSyncStatus : Meth SyncStatus :=
  fun d =>
    match cls d with
    | LogicalVolume _ _ => LogicalVolume_GetSyncStatus d
    | DRBD8 _ _ _ _ => DRBD8_GetSyncStatus d
    | FileStorage _ => BlockDev_GetSyncStatus d
    end.

(** [Assemble]: only [DRBD8] goes through [BlockDev.Assemble], and by
    it into the children. *)
Fixpoint Assemble (d : BlockDev) : St -> Res bool * BlockDev * St :=
  match cls d with
  | LogicalVolume _ _ => LogicalVolume_Assemble d
  | DRBD8 _ _ _ _ =>
      DRBD8_Assemble (BlockDev_Assemble Assemble (Open false) Shutdown) d
  | FileStorage _ => FileStorage_Assemble d
  end.

End Dispatch.

Section SetInfoClass.
Context `{Env}.

Variable child_SetInfo : BlockDev -> string -> Cmd unit.

(** [BlockDev.SetInfo]: [for child in self._children: child.SetInfo(text)].
    No driver assigns anything in [SetInfo], so the objects stay out of
    the state. *)
Fixpoint setinfo_children (children : list BlockDev) (text : string) : Cmd unit :=
  match children with
  | [] => ret tt
  | child :: rest => child_SetInfo child text ;;; setinfo_children rest text
  end.

Definition BlockDev_SetInfo (d : BlockDev) (text : string) : Cmd unit :=
  setinfo_children (_children d) text.

End SetInfoClass.

Section Factory.
Context `{Env}.

(** [SetInfo]: [LogicalVolume] overrides it and calls the base class
    first; the other drivers inherit it. *)
Fixpoint SetInfo (d : BlockDev) (text : string) : Cmd unit :=
  match cls d with
  | LogicalVolume _ _ =>
      BlockDev_SetInfo SetInfo d text ;;; LogicalVolume_SetInfo_own d text
  | _ => BlockDev_SetInfo SetInfo d text
  end.

(** [DRBD8.Create]: only the metadata is initialised. The metadata
    child is assembled and attached in place, so the constructor sees it
    as these calls left it. *)
Definition DRBD8_Create (unique_id : list pyval) (children : list BlockDev)
    (size : Z) : Cmd BlockDev :=
  match children with
  | [backend; meta] =>
      fun s =>
        match Assemble meta s with
        | (Ret _, meta1, s1) =>
            match Attach meta1 s1 with
            | (Ret attached, meta2, s2) =>
                (if negb attached then
                   raise (BlockDeviceError "Can't attach to meta device")
                 else
                   size_ok <- _CheckMetaSize (dev_path meta2) ;;
                   if negb size_ok then
                     raise (BlockDeviceError "Invalid meta device size")
                   else
                     minor <- _FindUnusedMinor ;;
                     _InitMeta minor (dev_path meta2) ;;;
                     valid <- _IsValidMeta (dev_path meta2) ;;
                     if negb valid then
                       raise (BlockDeviceError "Cannot initalize meta device")
                     else DRBD8_init unique_id [backend; meta2]) s2
            | (Raise e, _, s2) => (Raise e, s2)
            | (Diverge, _, s2) => (Diverge, s2)
            end
        | (Raise e, _, s1) => (Raise e, s1)
        | (Diverge, _, s1) => (Diverge, s1)
        end
  | _ => raise (ProgrammerError "Invalid setup for the drbd device")
  end.

(** The keys of [DEV_MAP]. A tag outside the map is a
    [ProgrammerError] of the caller; the type leaves it out. *)
Inductive DevType := LD_LV | LD_DRBD8 | LD_FILE.

(** [DEV_MAP[dev_type](unique_id, children)] *)
Definition new_device (dev_type : DevType) (unique_id : list pyval)
    (children : list BlockDev) : Cmd BlockDev :=
  match dev_type with
  | LD_LV => LogicalVolume_init unique_id children
  | LD_DRBD8 => DRBD8_init unique_id children
  | LD_FILE => FileStorage_init unique_id children
  end.

(** [FindDevice] *)
Definition FindDevice (dev_type : DevType) (unique_id : list pyval)
    (children : list BlockDev) : Cmd (option BlockDev) :=
  device <- new_device dev_type unique_id children ;;
  fun s =>
    match Attach device s with
    | (Ret true, device', s') => (Ret (Some device'), s')
    | (Ret false, _, s') => (Ret None, s')
    | (Raise e, _, s') => (Raise e, s')
    | (Diverge, _, s') => (Diverge, s')
    end.

(** [Create] *)
Definition Create (dev_type : DevType) (unique_id : list pyval)
    (children : list BlockDev) (size : Z) : Cmd BlockDev :=
  match dev_type with
  | LD_LV => LogicalVolume_Create unique_id children size
  | LD_DRBD8 => DRBD8_Create unique_id children size
  | LD_FILE => FileStorage_Create unique_id children size
  end.

End Factory.

(** ** A simulated node

    A world made of canned command replies, for running the drivers on
    concrete inputs. A reply marked [r_once] is consumed by the command
    that draws it, so that a later identical command meets the next
    reply; a command without a reply fails. *)

Module Sim.

Record Rule := mkRule {
  r_argv : list pyval;
  r_result : RunResult;
  r_once : bool
}.

Record SimWorld := mkWorld {
  proc : string;
  rules : list Rule;
  files : list pyval;
  clock : Q
}.

Fixpoint fire (argv : list pyval) (rs : list Rule) : RunResult * list Rule :=
  match rs with
  | [] => (mkRunResult true "", [])
  | r :: rest =>
      if bool_decide (r_argv r = argv) then
        (r_result r, if r_once r then rest else r :: rest)
      else let '(res, rest') := fire argv rest in (res, r :: rest')
  end.

Definition sim_run (argv : list pyval) (w : SimWorld) : RunResult * SimWorld :=
  let '(res, rs) := fire argv (rules w) in
  (res, mkWorld (proc w) rs (files w) (clock w)).

(** Decimal numerals, the only ones the simulated tools print; as a
    float a numeral is the binary64 number nearest to it. *)
Definition dec_int (s : string) : option Z :=
  match digits1 (strip s) with
  | Some (d, EmptyString) => Some (int_of_digits d)
  | _ => None
  end.

Definition dec_float (s : string) : option Q :=
  match digits1 (strip s) with
  | Some (d, EmptyString) =>
      Q_of_float (float_of_Q (inject_Z (int_of_digits d)))
  | Some (d, String "." f) =>
      match digits1 f with
      | Some (fd, EmptyString) =>
          Q_of_float
            (float_of_Q (Qmake (int_of_digits (d +:+ fd))
                               (Pos.pow 10 (Pos.of_nat (String.length fd)))))
      | _ => None
      end
  | _ => None
  end.

(** Show outputs of the simulated [drbdsetup] and what the grammar
    makes of them. *)
Definition show_text (peer : string) : string :=
  "_this_host { disk /dev/vg0/lv1; meta-disk /dev/vg0/lv1meta [ 0 ]; address 10.0.0.1:11000; } _remote_host { address "
  +:+ peer +:+ ":11000; }".

Definition show_parse (peer : string) : list Entry :=
  [ESection "_this_host"
     [mkStmt "disk" [VStr "/dev/vg0/lv1"];
      mkStmt "meta-disk" [VStr "/dev/vg0/lv1meta"; VInt 0];
      mkStmt "address" [VStr "10.0.0.1"; VInt 11000]];
   ESection "_remote_host"
     [mkStmt "address" [VStr peer; VInt 11000]]].

Definition show_local_text : string :=
  "_this_host { disk /dev/vg0/lv1; meta-disk /dev/vg0/lv1meta [ 0 ]; }".

Definition show_local_parse : list Entry :=
  [ESection "_this_host"
     [mkStmt "disk" [VStr "/dev/vg0/lv1"];
      mkStmt "meta-disk" [VStr "/dev/vg0/lv1meta"; VInt 0]]].

Definition sim_parse (out : string) : option (list Entry) :=
  if String.eqb out (show_text "10.0.0.2") then Some (show_parse "10.0.0.2")
  else if String.eqb out (show_text "10.0.0.9") then Some (show_parse "10.0.0.9")
  else if String.eqb out show_local_text then Some show_local_parse
  else None.

#[global] Instance sim_env : Env := {|
  World := SimWorld;
  run := sim_run;
  proc_drbd := proc;
  path_exists := fun p w => bool_decide (p ∈ files w);
  open_w := fun p w => Some (mkWorld (proc w) (rules w) (p :: files w) (clock w));
  truncate := fun p size w => Some w;
  time_time := clock;
  time_sleep := fun secs w =>
    mkWorld (proc w) (rules w) (files w) (Qred (Qplus (clock w) secs));
  parseString := sim_parse;
  py_int := dec_int;
  py_float := dec_float;
  dict_order := fun keys => keys;
  poll_fuel := 12
|}.

Definition start (w : SimWorld) : St := mkSt w [].

(** The reply of a command that succeeds with the given output. *)
Definition ok (argv : list string) (out : string) (once : bool) : Rule :=
  mkRule (map VStr argv) (mkRunResult false out) once.
(** The reply of a command that fails. *)
Definition ko (argv : list string) (once : bool) : Rule :=
  mkRule (map VStr argv) (mkRunResult true "") once.

End Sim.

(** * Properties *)

(** ** The tag sanitizer *)

(** The two character classes as the specification spells them, and the
    sanitizer as it words it: the first character is kept when it is in
    [[A-Za-z0-9_+.]], a later one when it is in [[-A-Za-z0-9_+.]]; any
    other becomes an underscore. *)
Definition first_class : string :=
  "ABCDEFGHIJKLMNOPQRSTUVWXYZabcdefghijklmnopqrstuvwxyz0123456789_+.".
Definition rest_class : string := "-" +:+ first_class.

Fixpoint in_class (cl : string) (c : ascii) : bool :=
  match cl with
  | EmptyString => false
  | String a r => Ascii.eqb a c || in_class r c
  end.

Fixpoint tag_spec (first : bool) (text : string) : string :=
  match text with
  | EmptyString => ""
  | String c r =>
      String (if in_class (if first then first_class else rest_class) c
              then c else "_"%char)
             (tag_spec false r)
  end.

Lemma tag_first_ok_class c : tag_first_ok c = in_class first_class c.
Proof. destruct c as [[] [] [] [] [] [] [] []]; reflexivity. Qed.

Lemma tag_rest_ok_class c : tag_rest_ok c = in_class rest_class c.
Proof. destruct c as [[] [] [] [] [] [] [] []]; reflexivity. Qed.

Lemma tag_first_rest c : tag_first_ok c = true -> tag_rest_ok c = true.
Proof.
  unfold tag_first_ok, tag_rest_ok. intros Hc.
  destruct (Ascii.eqb c "-"); simpl; [reflexivity | exact Hc].
Qed.

Lemma sub_rest_spec text : sub_rest text = tag_spec false text.
Proof.
  induction text as [| c r IH]; cbn [sub_rest tag_spec]; [reflexivity |].
  rewrite IH, tag_rest_ok_class. reflexivity.
Qed.

Lemma sub_first_rest_spec text : sub_rest (sub_first text) = tag_spec true text.
Proof.
  destruct text as [| c r]; cbn [sub_first tag_spec]; [reflexivity |].
  rewrite <- tag_first_ok_class.
  destruct (tag_first_ok c) eqn:Hc; cbn [sub_rest]; rewrite sub_rest_spec.
  - rewrite (tag_first_rest _ Hc). reflexivity.
  - reflexivity.
Qed.

Lemma length_tag_spec b text : String.length (tag_spec b text) = String.length text.
Proof.
  revert b. induction text as [| c r IH]; intros b; simpl; [reflexivity |].
  rewrite IH. reflexivity.
Qed.

Lemma length_slice_to n text :
  String.length (slice_to n text) = Nat.min n (String.length text).
Proof.
  revert text. induction n as [| n IH]; intros [| c r]; simpl; try reflexivity.
  rewrite IH. reflexivity.
Qed.

(** C9. For every input string the tag sanitizer of the logical volume
    [SetInfo] turns a first character outside [[A-Za-z0-9_+.]] and every
    later character outside [[-A-Za-z0-9_+.]] into an underscore and
    keeps the first 128 characters; a volume without children then
    applies the tag with [lvchange --addtag] as its only command. So ["foo bar"] becomes ["foo_bar"], [" lead"]
    becomes ["_lead"], and an input of 200 characters gives a tag of 128. *)
Theorem C9_tag_sanitizer :
  forall (E : Env) (text : string),
    sanitize_tag text = slice_to 128 (tag_spec true text)
    /\ String.length (sanitize_tag text) = Nat.min 128 (String.length text)
    /\ sanitize_tag "foo bar" = "foo_bar"
    /\ sanitize_tag " lead" = "_lead"
    /\ (String.length text = 200%nat ->
        String.length (sanitize_tag text) = 128%nat)
    /\ (forall (vg_name lv_name path : pyval) (unique_id : list pyval)
               (ma mi : option Z) (s : St),
          (SetInfo (mkDev (LogicalVolume vg_name lv_name) unique_id [] path ma mi)
                   text s).2.(cmds)
          = cmds s ++ [[VStr "lvchange"; VStr "--addtag";
                        VStr (sanitize_tag text); path]]).
Proof.
  intros E text.
  assert (Hlen : String.length (sanitize_tag text)
                 = Nat.min 128 (String.length text)).
  { unfold sanitize_tag.
    rewrite length_slice_to, sub_first_rest_spec, length_tag_spec. reflexivity. }
  split; [| split; [exact Hlen | split; [reflexivity | split; [reflexivity | split]]]].
  - unfold sanitize_tag. rewrite sub_first_rest_spec. reflexivity.
  - intros H200. rewrite Hlen, H200. reflexivity.
  - intros vg_name lv_name path unique_id ma mi s.
    cbn [SetInfo cls BlockDev_SetInfo _children setinfo_children].
    unfold LogicalVolume_SetInfo_own, bind, ret, RunCmd, sanitize_tag.
    cbn [dev_path].
    destruct (run _ (world s)) as [result w] eqn:Hrun.
    destruct (failed result); reflexivity.
Qed.

(** ** Minor allocation *)

(** The allocation as the specification words it: the minor of the first
    line whose state is [Unconfigured]; failing that, one more than the
    highest minor seen on a [N: cs:] line, unless that is 255 or more;
    zero when no minor is seen. *)
Definition unconfigured_minors (data : list string) : list Z :=
  omap (fun line => int_of_digits <$> unused_line line) data.

Definition minors_seen (data : list string) : list Z :=
  omap (fun line => int_of_digits <$> used_line line) data.

Definition minor_allocation (data : list string) : Res Z :=
  match unconfigured_minors data with
  | m :: _ => Ret m
  | [] =>
      match minors_seen data with
      | [] => Ret 0
      | m :: ms =>
          let highest_used := foldr Z.max m ms in
          if 255 <=? highest_used then
            Raise (BlockDeviceError "Can't find a free DRBD minor")
          else Ret (highest_used + 1)
      end
  end.

(** The text of a file with the given lines. *)
Definition file_text (lines : list string) : string :=
  foldr (fun line acc => line +:+ String LF acc) "" lines.

Lemma py_max_Zmax a b : py_max a b = Z.max a b.
Proof. unfold py_max. destruct (Z.ltb_spec a b); lia. Qed.

(** Once a minor has been seen, the scan of the remaining lines. *)
Lemma find_unused_scan_some data h :
  find_unused_scan data (Some h) =
  match unconfigured_minors data with
  | m :: _ => Ret m
  | [] =>
      if 255 <=? foldl Z.max h (minors_seen data) then
        Raise (BlockDeviceError "Can't find a free DRBD minor")
      else Ret (foldl Z.max h (minors_seen data) + 1)
  end.
Proof.
  revert h. induction data as [| line rest IH]; intros h; simpl.
  - reflexivity.
  - unfold unconfigured_minors, minors_seen in *. simpl.
    destruct (unused_line line) as [d |] eqn:Hu; simpl; [reflexivity |].
    destruct (used_line line) as [d |] eqn:Hd; simpl.
    + rewrite IH, py_max_Zmax. reflexivity.
    + apply IH.
Qed.

Lemma foldl_max_foldr (h : Z) (l : list Z) :
  foldl Z.max h l = foldr Z.max h l.
Proof.
  revert h. induction l as [| a l IH]; intros h; simpl; [reflexivity |].
  rewrite IH. clear IH.
  induction l as [| b l IH]; simpl; [lia |].
  rewrite IH. lia.
Qed.

Lemma find_unused_scan_spec data :
  find_unused_scan data None = minor_allocation data.
Proof.
  unfold minor_allocation.
  induction data as [| line rest IH]; simpl; [reflexivity |].
  unfold unconfigured_minors, minors_seen in *. simpl.
  destruct (unused_line line) as [d |] eqn:Hu; simpl; [reflexivity |].
  destruct (used_line line) as [d |] eqn:Hd; simpl; [| exact IH].
  rewrite find_unused_scan_some. unfold unconfigured_minors, minors_seen.
  destruct (omap _ rest) as [| m ms]; [| reflexivity].
  cbv zeta. rewrite foldl_max_foldr.
  destruct (omap (fun line0 => int_of_digits <$> used_line line0) rest)
    as [| m ms] eqn:Hseen; simpl; [reflexivity |].
  replace (Z.max m (foldr Z.max (int_of_digits d) ms))
    with (Z.max (int_of_digits d) (foldr Z.max m ms)); [reflexivity |].
  clear. induction ms as [| c l IH]; simpl; lia.
Qed.

(** The three situations of the specification, as proc files. *)
Definition proc_one_unconfigured : string :=
  file_text ["version: 8.0.12 (api:86/proto:86)";
             " 0: cs:Connected st:Primary/Secondary ds:UpToDate/UpToDate C r---";
             " 1: cs:WFConnection st:Secondary/Unknown ds:UpToDate/DUnknown C r---";
             " 2: cs:Unconfigured";
             " 3: cs:Connected st:Secondary/Primary ds:UpToDate/UpToDate C r---"].

Definition proc_0_and_254 : string :=
  file_text ["version: 8.0.12 (api:86/proto:86)";
             " 0: cs:Connected st:Primary/Secondary ds:UpToDate/UpToDate C r---";
             "254: cs:Connected st:Primary/Secondary ds:UpToDate/UpToDate C r---"].

Definition proc_255 : string :=
  file_text ["version: 8.0.12 (api:86/proto:86)";
             "255: cs:Connected st:Primary/Secondary ds:UpToDate/UpToDate C r---"].

(** C2, as amended. For every content of /proc/drbd that has at least
    one line, the allocation returns the minor of the first
    [Unconfigured] line; without such a line, one more than the highest
    minor on a [N: cs:] line, zero when there is no such line, and
    [BlockDeviceError] when the highest minor is 255 or more. A content
    without any line is refused with [BlockDeviceError] before the scan
    starts, where the allocation as specified gives zero. Minors 0, 1,
    3 in use and 2 unconfigured give 2; minors 0 and 254 give 255;
    minor 255 fails. *)
Theorem C2_find_unused_minor :
  forall (E : Env) (s : St),
    _FindUnusedMinor s
    = (match splitlines (proc_drbd (world s)) with
       | [] => Raise (BlockDeviceError "Can't read any data from /proc/drbd")
       | data => minor_allocation data
       end, s)
    /\ minor_allocation (splitlines proc_one_unconfigured) = Ret 2
    /\ minor_allocation (splitlines proc_0_and_254) = Ret 255
    /\ minor_allocation (splitlines proc_255)
       = Raise (BlockDeviceError "Can't find a free DRBD minor").
Proof.
  intros E s.
  split; [| split; [| split]]; try (vm_compute; reflexivity).
  unfold _FindUnusedMinor, _GetProcData, read_proc_drbd, bind, lift_res.
  destruct (splitlines (proc_drbd (world s))) as [| l ls] eqn:Hl; [reflexivity |].
  unfold ret. rewrite find_unused_scan_spec. reflexivity.
Qed.

(** On the proc file with minor 2 unconfigured the allocation gives 2. *)
Lemma C2_find_unused_minor_witness :
  splitlines proc_one_unconfigured <> []
  /\ @_FindUnusedMinor Sim.sim_env
       (Sim.start (Sim.mkWorld proc_one_unconfigured [] [] 0))
     = (Ret 2, Sim.start (Sim.mkWorld proc_one_unconfigured [] [] 0)).
Proof.
  assert (Hne : splitlines proc_one_unconfigured <> []).
  { vm_compute. discriminate. }
  split; [exact Hne |].
  destruct (C2_find_unused_minor Sim.sim_env
              (Sim.start (Sim.mkWorld proc_one_unconfigured [] [] 0)))
    as (Hrun & Hex & _).
  rewrite Hrun.
  exact (f_equal (fun r => (r, Sim.start (Sim.mkWorld proc_one_unconfigured [] [] 0)))
                 Hex).
Defined.

(** On the empty content no minor appears at all, and the allocation as
    specified is zero; [_FindUnusedMinor] raises, because
    [_GetProcData] refuses a file without any line. *)
Lemma C2_empty_content_counterexample :
  unconfigured_minors (splitlines "") = []
  /\ minors_seen (splitlines "") = []
  /\ minor_allocation (splitlines "") = Ret 0
  /\ @_FindUnusedMinor Sim.sim_env (Sim.start (Sim.mkWorld "" [] [] 0))
     = (Raise (BlockDeviceError "Can't read any data from /proc/drbd"),
        Sim.start (Sim.mkWorld "" [] [] 0)).
Proof. repeat split. Qed.

(** ** Metadata size *)

(** The bounds as the specification words them: 128 MiB <= size <= 160
    MiB, with 512-byte sectors. *)
Definition MiB : Z := 1024 * 1024.
Definition meta_size_ok (sectors : Z) : bool :=
  (128 * MiB <=? sectors * 512) && (sectors * 512 <=? 160 * MiB).

(** C8. The metadata check multiplies the sector count printed by
    [blockdev --getsize] by 512 and accepts exactly the sizes between
    128 MiB and 160 MiB, both included; it answers false when the query
    fails or does not print an integer. 128 MiB and 160 MiB pass, 127
    MiB and 161 MiB do not. *)
Theorem C8_check_meta_size :
  forall (E : Env) (meta_device : pyval) (s : St),
    let argv := [VStr "blockdev"; VStr "--getsize"; meta_device] in
    let result := (run argv (world s)).1 in
    _CheckMetaSize meta_device s
    = (Ret (negb (failed result)
            && match py_int (stdout result) with
               | Some sectors => meta_size_ok sectors
               | None => false
               end),
       mkSt (run argv (world s)).2 (cmds s ++ [argv]))
    /\ meta_size_ok (128 * MiB / 512) = true
    /\ meta_size_ok (160 * MiB / 512) = true
    /\ meta_size_ok (127 * MiB / 512) = false
    /\ meta_size_ok (161 * MiB / 512) = false.
Proof.
  intros E meta_device s argv result.
  split; [| repeat split; reflexivity].
  unfold _CheckMetaSize, bind, RunCmd, ret. subst result argv.
  destruct (run _ (world s)) as [result w]. simpl.
  destruct (failed result); simpl; [reflexivity |].
  destruct (py_int (stdout result)) as [sectors |]; [| reflexivity].
  unfold meta_size_ok, MiB.
  destruct (Z.ltb_spec (sectors * 512) (128 * 1024 * 1024));
    destruct (Z.ltb_spec ((128 + 32) * 1024 * 1024) (sectors * 512));
    destruct (Z.leb_spec (128 * (1024 * 1024)) (sectors * 512));
    destruct (Z.leb_spec (sectors * 512) (160 * (1024 * 1024)));
    simpl; try reflexivity; lia.
Qed.

(** ** Creation of a logical volume *)

Definition pvs_argv : list pyval :=
  [VStr "pvs"; VStr "--noheadings"; VStr "--nosuffix"; VStr "--units=m";
   VStr "-opv_name,vg_name,pv_free,pv_attr"; VStr "--unbuffered";
   VStr "--separator=:"].

(** The argument vector of the create tool for the given size, names and
    physical volumes. *)
Definition lvcreate_argv (size : Z) (vg_name lv_name : pyval)
    (pvs : list (Q * string)) : list pyval :=
  [VStr "lvcreate"; VStr ("-L" +:+ pretty size +:+ "m");
   VStr ("-n" +:+ py_str lv_name); vg_name]
  ++ map (fun pv => VStr pv.2) pvs.

Lemma Qltb_lt a b : Qltb a b = true <-> (a < b)%Q.
Proof.
  unfold Qltb. rewrite negb_true_iff.
  split.
  - intros Hb. apply Qnot_le_lt. intros Hle.
    apply Qle_bool_iff in Hle. congruence.
  - intros Hlt. destruct (Qle_bool b a) eqn:Hb; [| reflexivity].
    apply Qle_bool_iff in Hb. exfalso. exact (Qlt_not_le _ _ Hlt Hb).
Qed.

Lemma pv_le_fst a b : pv_le a b -> (a.1 <= b.1)%Q.
Proof.
  unfold pv_le. intros Hle. apply Is_true_true in Hle.
  apply orb_true_iff in Hle as [Hlt | Heq].
  - apply Qlt_le_weak, Qltb_lt, Hlt.
  - apply andb_true_iff in Heq as [Heq _].
    apply Qeq_bool_eq in Heq. rewrite Heq. apply Qle_refl.
Qed.

#[global] Instance pv_le_total : Total (fun a b : Q * string => pv_le a b).
Proof.
  intros a b. unfold pv_le.
  destruct (Qltb a.1 b.1) eqn:Hab; [left; exact I |].
  destruct (Qltb b.1 a.1) eqn:Hba; [right; exact I |].
  assert (Heq : (a.1 == b.1)%Q).
  { apply Qle_antisym.
    - destruct (Qlt_le_dec b.1 a.1) as [Hlt | Hle]; [| exact Hle].
      apply Qltb_lt in Hlt. congruence.
    - destruct (Qlt_le_dec a.1 b.1) as [Hlt | Hle]; [| exact Hle].
      apply Qltb_lt in Hlt. congruence. }
  rewrite (Qeq_eq_bool _ _ Heq), (Qeq_eq_bool _ _ (Qeq_sym _ _ Heq)). simpl.
  destruct (String.leb_total a.2 b.2) as [Hs | Hs]; rewrite Hs;
    [left | right]; exact I.
Qed.

Lemma Sorted_weaken {A} (R R' : A -> A -> Prop) (l : list A) :
  (forall x y, R x y -> R' x y) -> Sorted R l -> Sorted R' l.
Proof.
  intros HR. induction 1 as [| a l Hs IH Hhd]; constructor; [exact IH |].
  destruct Hhd; constructor. apply HR. assumption.
Qed.

Lemma StronglySorted_rev_flip {A} (R : A -> A -> Prop) (l : list A) :
  StronglySorted R l -> StronglySorted (fun a b => R b a) (rev l).
Proof.
  induction 1 as [| a l Hs IH Hall]; simpl; [constructor |].
  apply StronglySorted_app_2.
  - intros x1 x2 Hx1 Hx2. apply list_elem_of_singleton in Hx2 as ->.
    rewrite Forall_forall in Hall. apply Hall.
    rewrite rev_alt in Hx1. change (rev_append l []) with (reverse l) in Hx1.
    rewrite elem_of_reverse in Hx1. exact Hx1.
  - exact IH.
  - repeat constructor.
Qed.

(** The list handed to the create tool holds the accepted physical
    volumes, largest free space first. *)
Lemma sort_reverse_sorted (data : list (Q * string)) :
  sort_reverse data ≡ₚ data
  /\ StronglySorted (fun a b => (b.1 <= a.1)%Q) (sort_reverse data).
Proof.
  unfold sort_reverse. split.
  - rewrite <- (merge_sort_Permutation (fun a b => pv_le a b) data) at 2.
    symmetry. apply Permutation_rev.
  - apply (StronglySorted_rev_flip (fun a b => (a.1 <= b.1)%Q)).
    apply Sorted_StronglySorted.
    + intros x y z Hxy Hyz. eapply Qle_trans; eassumption.
    + eapply Sorted_weaken; [| apply Sorted_merge_sort, pv_le_total].
      intros x y. apply pv_le_fst.
Qed.

Lemma GetPVInfo_cmds `{Env} vg_name s r s1 :
  GetPVInfo vg_name s = (r, s1) -> cmds s1 = cmds s ++ [pvs_argv].
Proof.
  unfold GetPVInfo, bind, RunCmd, lift_res, ret.
  destruct (run _ (world s)) as [result w].
  destruct (failed result); intros Heq; inversion Heq; reflexivity.
Qed.

(** C5, as amended. With the accepted physical volumes [data] of the
    listing, creation hands the create tool the vector
    [lvcreate -L<size>m -n<lv> <vg> <pv...>], the name glued to [-n],
    with the physical volumes in descending order of free space; it
    raises [BlockDeviceError] without running the tool when no volume is
    accepted or when the sum of their free space is below the requested
    size. The sum is the float sum that Python computes, adding the
    free sizes in that descending order and rounding each addition: on
    the free sizes 1021.14, 1.43 and 1.43 it is 1023.9999999999999,
    which is below 1024. *)
Theorem C5_lv_create :
  forall (E : Env) (vg_name lv_name : pyval) (children : list BlockDev)
         (size : Z) (s s1 : St) (data : list (Q * string)),
    GetPVInfo vg_name s = (Ret (Some data), s1) ->
    let pvs := sort_reverse data in
    let created := LogicalVolume_Create [vg_name; lv_name] children size s in
    cmds s1 = cmds s ++ [pvs_argv]
    /\ pvs ≡ₚ data
    /\ StronglySorted (fun a b => (b.1 <= a.1)%Q) pvs
    /\ match data with
       | [] =>
           created
           = (Raise (BlockDeviceError "Can't compute PV info for vg %s"), s1)
       | _ :: _ =>
           if float_ltb_int (py_sum (map fst pvs)) size then
             created
             = (Raise (BlockDeviceError
                         "Not enough free space: required %s, available %s"), s1)
           else
             let argv := lvcreate_argv size vg_name lv_name pvs in
             let result := (run argv (world s1)).1 in
             let s2 := mkSt (run argv (world s1)).2 (cmds s1 ++ [argv]) in
             created
             = if failed result then (Raise (BlockDeviceError "%s - %s"), s2)
               else LogicalVolume_init [vg_name; lv_name] children s2
       end
    /\ (forall a b c : Q,
          Sim.dec_float "1021.14" = Some a -> Sim.dec_float "1.43" = Some b ->
          Sim.dec_float "1.43" = Some c ->
          py_sum [a; b; c] = S754_finite false 9007199254740991 (-43)
          /\ float_ltb_int (py_sum [a; b; c]) 1024 = true).
Proof.
  intros E vg_name lv_name children size s s1 data Hpv pvs created.
  destruct (sort_reverse_sorted data) as [Hperm Hsorted].
  split; [exact (GetPVInfo_cmds _ _ _ _ Hpv) |].
  split; [exact Hperm |]. split; [exact Hsorted |].
  split.
  2:{ intros a b c Ha Hb Hc. vm_compute in Ha, Hb, Hc.
      injection Ha as <-. injection Hb as <-. injection Hc as <-.
      split; vm_compute; reflexivity. }
  subst created. unfold LogicalVolume_Create, bind. rewrite Hpv.
  destruct data as [| pv data']; [reflexivity |].
  set (data := pv :: data') in *.
  fold pvs.
  destruct (float_ltb_int (py_sum (map fst pvs)) size); [reflexivity |].
  unfold RunCmd, lvcreate_argv. simpl.
  destruct (run _ (world s1)) as [result w2]. simpl.
  destruct (failed result); reflexivity.
Qed.

(** The node of the first scenario: two physical volumes in [vg0]; the
    create tool accepts the name glued to [-n] or apart from it. *)
Definition lv_scenario : Sim.SimWorld :=
  Sim.mkWorld ""
    [Sim.ok ["pvs"; "--noheadings"; "--nosuffix"; "--units=m";
             "-opv_name,vg_name,pv_free,pv_attr"; "--unbuffered";
             "--separator=:"]
            (file_text ["/dev/sda:vg0:2048:a-"; "/dev/sdb:vg0:512:a-"]) false;
     Sim.ok ["lvcreate"; "-L1024m"; "-nlv1"; "vg0"; "/dev/sda"; "/dev/sdb"]
            "" false;
     Sim.ok ["lvcreate"; "-L1024m"; "-n"; "lv1"; "vg0"; "/dev/sda"; "/dev/sdb"]
            "" false;
     Sim.ok ["lvdisplay"; "/dev/vg0/lv1"]
            (file_text ["  --- Logical volume ---";
                        "  LV Name                /dev/vg0/lv1";
                        "  Block device           253:2"]) false]
    [] 0.

(** In the first scenario the listing accepts both volumes and they
    are handed over largest first. *)
Lemma C5_lv_create_witness :
  (@GetPVInfo Sim.sim_env (VStr "vg0") (Sim.start lv_scenario)).1
  = Ret (Some [(inject_Z 2048, "/dev/sda"); (inject_Z 512, "/dev/sdb")])
  /\ sort_reverse [(inject_Z 2048, "/dev/sda"); (inject_Z 512, "/dev/sdb")]
     ≡ₚ [(inject_Z 2048, "/dev/sda"); (inject_Z 512, "/dev/sdb")].
Proof.
  split; [reflexivity |].
  exact (proj1 (proj2 (C5_lv_create Sim.sim_env (VStr "vg0") (VStr "lv1") [] 1024
                         (Sim.start lv_scenario) _ _ eq_refl))).
Defined.

(** In the first scenario creation succeeds, and the create tool was
    run with [-nlv1], not with [-n] and [lv1] as two arguments. *)
Lemma C5_lvcreate_argv_counterexample :
  let created := @LogicalVolume_Create Sim.sim_env [VStr "vg0"; VStr "lv1"] []
                   1024 (Sim.start lv_scenario) in
  is_Ret created.1 = true
  /\ cmds created.2
     = [pvs_argv;
        map VStr ["lvcreate"; "-L1024m"; "-nlv1"; "vg0"; "/dev/sda"; "/dev/sdb"];
        map VStr ["lvdisplay"; "/dev/vg0/lv1"]]
  /\ map VStr ["lvcreate"; "-L1024m"; "-n"; "lv1"; "vg0"; "/dev/sda"; "/dev/sdb"]
     ∉ cmds created.2.
Proof.
  cbv zeta.
  set (created := LogicalVolume_Create _ _ _ _).
  assert (Hcmds : cmds created.2
                  = [pvs_argv;
                     map VStr ["lvcreate"; "-L1024m"; "-nlv1"; "vg0";
                               "/dev/sda"; "/dev/sdb"];
                     map VStr ["lvdisplay"; "/dev/vg0/lv1"]]) by reflexivity.
  split; [reflexivity |]. split; [exact Hcmds |].
  rewrite Hcmds. intros Hin.
  apply elem_of_cons in Hin as [Hin | Hin]; [discriminate |].
  apply elem_of_cons in Hin as [Hin | Hin]; [discriminate |].
  apply elem_of_cons in Hin as [Hin | Hin]; [discriminate |].
  inversion Hin.
Qed.

(** Three physical volumes whose free sizes add up to 1024.00 on paper:
    the float sum, taken largest first, is 1023.9999999999999, and a
    volume of 1024 MiB is refused without the create tool being run. *)
Definition float_scenario : Sim.SimWorld :=
  Sim.mkWorld ""
    [Sim.ok ["pvs"; "--noheadings"; "--nosuffix"; "--units=m";
             "-opv_name,vg_name,pv_free,pv_attr"; "--unbuffered";
             "--separator=:"]
            (file_text ["/dev/sda:vg0:1.43:a-"; "/dev/sdb:vg0:1021.14:a-";
                        "/dev/sdc:vg0:1.43:a-"]) false;
     Sim.ok ["lvcreate"; "-L1024m"; "-nlv1"; "vg0"; "/dev/sdb"; "/dev/sdc";
             "/dev/sda"] "" false]
    [] 0.

Example lv_create_float_sum :
  @LogicalVolume_Create Sim.sim_env [VStr "vg0"; VStr "lv1"] [] 1024
    (Sim.start float_scenario)
  = (Raise (BlockDeviceError "Not enough free space: required %s, available %s"),
     @mkSt Sim.sim_env float_scenario [pvs_argv]).
Proof. reflexivity. Qed.

(** ** Aggregation of the sync status *)

(** The fold across the whole tree, as the specification words it: the
    status of every node of the tree, the device first, combined with
    the rule of [combine_status]. *)
#[warnings="-register-all"]
Fixpoint tree_nodes (d : BlockDev) : list BlockDev :=
  d :: flat_map tree_nodes (_children d).

Fixpoint statuses `{Env} (l : list BlockDev) : Cmd (list SyncStatus) :=
  match l with
  | [] => ret []
  | d :: rest =>
      c <- (fun s => let '(r, _, s') := GetSyncStatus d s in (r, s')) ;;
      cs <- statuses rest ;;
      ret (c :: cs)
  end.

Definition tree_sync_status `{Env} (d : BlockDev) : Cmd SyncStatus :=
  sts <- statuses (tree_nodes d) ;;
  match sts with
  | own :: rest => ret (foldl combine_status own rest)
  | [] => ret (None, None, false, false)
  end.

Section DirectChildren.
Context `{Env}.
Variable child_GetSyncStatus : Meth SyncStatus.

(** The children are asked for their status in list order and each
    call returns. *)
Inductive asked : list BlockDev -> St -> list SyncStatus -> list BlockDev
                  -> St -> Prop :=
| asked_nil s : asked [] s [] [] s
| asked_cons c cs s st c' s1 sts cs' s' :
    child_GetSyncStatus c s = (Ret st, c', s1) ->
    asked cs s1 sts cs' s' ->
    asked (c :: cs) s (st :: sts) (c' :: cs') s'.

Lemma combine_children_asked done todo acc s sts todo' s' :
  asked todo s sts todo' s' ->
  combine_children child_GetSyncStatus done todo acc s
  = (Ret (foldl combine_status acc sts), done ++ todo', s').
Proof.
  intros Hasked. revert done acc.
  induction Hasked as [s | c cs s st c' s1 sts cs' s' Hc Hasked IH];
    intros done acc; simpl.
  - rewrite app_nil_r. reflexivity.
  - rewrite Hc, IH, <- app_assoc. reflexivity.
Qed.

(** What [CombinedSyncStatus] computes on every device: the status of
    the device combined with the statuses of its direct children, in
    list order. *)
Lemma CombinedSyncStatus_direct_children d s own d1 s1 sts cs s2 :
  child_GetSyncStatus d s = (Ret own, d1, s1) ->
  asked (_children d1) s1 sts cs s2 ->
  CombinedSyncStatus child_GetSyncStatus d s
  = (Ret (foldl combine_status own sts), set_children d1 cs, s2).
Proof.
  intros Hown Hasked. unfold CombinedSyncStatus. rewrite Hown.
  rewrite (combine_children_asked [] _ own _ _ _ _ Hasked). reflexivity.
Qed.

End DirectChildren.

(** A mirror over a mirror: the inner mirror sits on a logical volume
    that lost its backing storage (type [v]); both mirrors are connected
    and up to date in /proc/drbd. *)
Definition lv_dev (name : string) (mi : Z) : BlockDev :=
  mkDev (LogicalVolume (VStr "vg0") (VStr name)) [VStr "vg0"; VStr name] []
        (VStr ("/dev/vg0/" +:+ name)) (Some 253) (Some mi).

Definition inner_mirror : BlockDev :=
  mkDev (DRBD8 (VStr "10.0.0.1") (VInt 11000) (VStr "10.0.0.2") (VInt 11000))
        [VStr "10.0.0.1"; VInt 11000; VStr "10.0.0.2"; VInt 11000]
        [lv_dev "data" 0; lv_dev "meta0" 1]
        (VStr "/dev/drbd0") (Some 147) (Some 0).

Definition outer_mirror : BlockDev :=
  mkDev (DRBD8 (VStr "10.0.0.1") (VInt 11001) (VStr "10.0.0.3") (VInt 11001))
        [VStr "10.0.0.1"; VInt 11001; VStr "10.0.0.3"; VInt 11001]
        [inner_mirror; lv_dev "meta1" 2]
        (VStr "/dev/drbd1") (Some 147) (Some 1).

Definition stacked_scenario : Sim.SimWorld :=
  Sim.mkWorld
    (file_text ["version: 8.0.12 (api:86/proto:86)";
                " 0: cs:Connected st:Secondary/Secondary ds:UpToDate/UpToDate C r---";
                "    ns:0 nr:0 dw:0 dr:0 al:0 bm:0 lo:0 pe:0 ua:0 ap:0";
                " 1: cs:Connected st:Primary/Secondary ds:UpToDate/UpToDate C r---";
                "    ns:0 nr:0 dw:0 dr:0 al:0 bm:0 lo:0 pe:0 ua:0 ap:0"])
    [Sim.ok ["lvs"; "--noheadings"; "-olv_attr"; "/dev/vg0/data"] "  vwi-a-" false;
     Sim.ok ["lvs"; "--noheadings"; "-olv_attr"; "/dev/vg0/meta0"] "  -wi-ao" false;
     Sim.ok ["lvs"; "--noheadings"; "-olv_attr"; "/dev/vg0/meta1"] "  -wi-ao" false]
    [] 0.

(** C4. [CombinedSyncStatus] is meant to equal the fold of the per-node
    statuses across the whole tree (percent: first non-absent, then
    minimum; time: first non-absent, then maximum; both flags: or). It
    combines the device with its direct children only: on the stacked
    mirror it reports no degradation, because it asks each child for
    [GetSyncStatus], while the fold across the tree sees the degraded
    volume under the inner mirror. On a parent with two leaf children
    the combination is as specified: [(absent, absent, false, false)]
    with [(30, 600, false, false)] and [(70, 300, true, false)] gives
    [(30, 600, true, false)]. *)
Theorem C4_combined_sync_status_one_level :
  (@CombinedSyncStatus Sim.sim_env GetSyncStatus outer_mirror
     (Sim.start stacked_scenario)).1.1
  = Ret (None, None, false, false)
  /\ (@tree_sync_status Sim.sim_env outer_mirror (Sim.start stacked_scenario)).1
     = Ret (None, None, true, true)
  /\ foldl combine_status (None, None, false, false)
       [(Some (inject_Z 30), Some 600, false, false);
        (Some (inject_Z 70), Some 300, true, false)]
     = (Some (inject_Z 30), Some 600, true, false).
Proof. split; [| split]; reflexivity. Qed.

(** ** Assembling the children *)

Section AssembleRollback.
Context `{Env}.
Variable child_Assemble : Meth bool.
Variable child_Open : Meth (option bool).
Variable child_Shutdown : Meth bool.

(** The children of a prefix of the list were brought up in list order:
    each one assembled, then opened. *)
Inductive brought_up : list BlockDev -> St -> list BlockDev -> St -> Prop :=
| bu_nil s : brought_up [] s [] s
| bu_cons c cs s c1 s1 o c2 s2 cs' s' :
    child_Assemble c s = (Ret true, c1, s1) ->
    child_Open c1 s1 = (Ret o, c2, s2) ->
    brought_up cs s2 cs' s' ->
    brought_up (c :: cs) s (c2 :: cs') s'.


(** The two ways in which a child ends the loop with an exception that
    the method does not handle: its [Assemble] raises, or its [Open]
    raises something other than [BlockDeviceError]. *)
Inductive child_raises (c : BlockDev) (s : St) : Exc -> BlockDev -> St -> Prop :=
| cr_assemble e c1 s1 :
    child_Assemble c s = (Raise e, c1, s1) ->
    child_raises c s e c1 s1
| cr_open e c1 s1 c2 s2 :
    child_Assemble c s = (Ret true, c1, s1) ->
    child_Open c1 s1 = (Raise e, c2, s2) ->
    (forall msg, e <> BlockDeviceError msg) ->
    child_raises c s e c2 s2.




Lemma assemble_children_brought_up pre rest done s pre' s1 :
  brought_up pre s pre' s1 ->
  assemble_children child_Assemble child_Open child_Shutdown done (pre ++ rest) s
  = assemble_children child_Assemble child_Open child_Shutdown
      (done ++ pre') rest s1.
Proof.
  intros Hup. revert done.
  induction Hup as [s | c cs s c1 s1 o c2 s2 cs' s' Ha Ho Hup IH]; intros done.
  - rewrite app_nil_r. reflexivity.
  - simpl. rewrite Ha. simpl. rewrite Ho. rewrite IH, <- app_assoc. reflexivity.
Qed.


(** What [BlockDev.Assemble] does once a child raises outside the
    handler: nothing more. *)
Lemma BlockDev_Assemble_raises d pre child post s pre' s1 e c1 s2 :
  _children d = pre ++ child :: post ->
  brought_up pre s pre' s1 ->
  child_raises child s1 e c1 s2 ->
  BlockDev_Assemble child_Assemble child_Open child_Shutdown d s
  = (Raise e, set_children d (pre' ++ c1 :: post), s2).
Proof.
  intros Hch Hup Hfail. unfold BlockDev_Assemble. rewrite Hch.
  rewrite (assemble_children_brought_up _ _ [] _ _ _ Hup).
  cbn [assemble_children app].
  destruct Hfail as [e c1 s2 Ha | e c1' s1' c2 s2 Ha Ho Hne].
  - rewrite Ha. reflexivity.
  - rewrite Ha. cbn [negb]. rewrite Ho.
    destruct e; try reflexivity. destruct (Hne msg eq_refl).
Qed.

End AssembleRollback.


(** The fifth scenario: a mirror over two logical volumes, not yet
    assembled; the first volume can be activated, the second cannot. *)
Definition mirror_new : BlockDev :=
  mkDev (DRBD8 (VStr "10.0.0.1") (VInt 11000) (VStr "10.0.0.2") (VInt 11000))
        [VStr "10.0.0.1"; VInt 11000; VStr "10.0.0.2"; VInt 11000]
        [lv_dev "lv1" 0; lv_dev "lv1meta" 1]
        VNone (Some 147) None.

Definition rollback_scenario : Sim.SimWorld :=
  Sim.mkWorld (file_text ["version: 8.0.12 (api:86/proto:86)"])
    [Sim.ok ["lvchange"; "-ay"; "/dev/vg0/lv1"] "" false;
     Sim.ko ["lvchange"; "-ay"; "/dev/vg0/lv1meta"] false]
    [] 0.



(** The order of the walk made visible: with a [Shutdown] that records
    the path of the device it is called on, the record follows the list
    from its head. *)
Example shutdown_children_forward :
  (shutdown_children
     (fun c s => (Ret true, c, @mkSt Sim.sim_env (world s) (cmds s ++ [[dev_path c]])))
     [] [lv_dev "a" 0; lv_dev "b" 1; lv_dev "c" 2]
     (Sim.start rollback_scenario)).2.(cmds)
  = [[VStr "/dev/vg0/a"]; [VStr "/dev/vg0/b"]; [VStr "/dev/vg0/c"]].
Proof. reflexivity. Qed.

(** A file device, and a mirror whose first child is itself a mirror,
    up on minor 3 and not yet attached to by the object, and whose
    second child is a file device without its file. Shutting the inner
    mirror down would show as [drbdsetup /dev/drbd3 down]. *)
Definition file_dev (path : string) : BlockDev :=
  mkDev (FileStorage (VStr "loop")) [VStr "loop"; VStr path] []
        (VStr path) None None.




(** ** Shutdown *)

Lemma DRBD8_Attach_inv `{Env} d s r d' s' :
  DRBD8_Attach d s = (r, d', s') ->
  (exists found, Attach_find d s = (Ret found, s')
                 /\ r = Ret (bool_decide (found <> None))
                 /\ d' = _SetFromMinor d found)
  \/ (d' = d /\ is_Ret r = false /\ (Attach_find d s).2 = s').
Proof.
  unfold DRBD8_Attach.
  destruct (Attach_find d s) as [[found | e |] s1]; intros Heq; inversion Heq; subst.
  - left. exists found. repeat split.
  - right. repeat split.
  - right. repeat split.
Qed.

Lemma _ShutdownAll_run `{Env} m s :
  _ShutdownAll m s
  = (Ret (negb (failed (run [VStr "drbdsetup"; VStr (_DevPath m); VStr "down"]
                            (world s)).1)),
     mkSt (run [VStr "drbdsetup"; VStr (_DevPath m); VStr "down"] (world s)).2
          (cmds s ++ [[VStr "drbdsetup"; VStr (_DevPath m); VStr "down"]])).
Proof.
  unfold _ShutdownAll, bind, RunCmd, ret.
  destruct (run _ (world s)) as [result w]. reflexivity.
Qed.

(** The part of [DRBD8.Shutdown] after the guard, on a device with
    minor [m]. *)
Definition shutdown_down `{Env} (d : BlockDev) (m : Z) (s : St)
    : Res bool * BlockDev * St :=
  let down := _ShutdownAll m s in
  match down.1 with
  | Ret true => (Ret true, set_dev_path (set_minor d None) VNone, down.2)
  | Ret false => (Ret false, d, down.2)
  | Raise e => (Raise e, d, down.2)
  | Diverge => (Diverge, d, down.2)
  end.

Lemma DRBD8_Shutdown_unfold `{Env} d s :
  DRBD8_Shutdown d s
  = match not_attached d s with
    | (Ret true, d1, s1) => (Ret true, d1, s1)
    | (Ret false, d1, s1) =>
        match minor d1 with
        | Some m => shutdown_down d1 m s1
        | None => (Raise TypeError, d1, s1)
        end
    | (Raise e, d1, s1) => (Raise e, d1, s1)
    | (Diverge, d1, s1) => (Diverge, d1, s1)
    end.
Proof.
  unfold DRBD8_Shutdown, mbind.
  destruct (not_attached d s) as [[[[] | e |] d1] s1]; try reflexivity.
  unfold self, mret, mraise. destruct (minor d1) as [m |]; [| reflexivity].
  unfold shutdown_down, lift, assign. rewrite _ShutdownAll_run. simpl.
  destruct (failed _); reflexivity.
Qed.

(** The guard [self.minor is None and not self.Attach()]. *)
Lemma not_attached_inv `{Env} d s r d1 s1 :
  not_attached d s = (r, d1, s1) ->
  (exists m, minor d = Some m /\ r = Ret false /\ d1 = d /\ s1 = s)
  \/ (minor d = None
      /\ exists found, Attach_find d s = (Ret found, s1)
                       /\ r = Ret (negb (bool_decide (found <> None)))
                       /\ d1 = _SetFromMinor d found)
  \/ (minor d = None /\ d1 = d /\ is_Ret r = false
      /\ (Attach_find d s).2 = s1).
Proof.
  unfold not_attached. destruct (minor d) as [m |] eqn:Hm.
  - intros Heq; inversion Heq; subst. left. exists m. repeat split.
  - destruct (DRBD8_Attach d s) as [[r0 d0] s0] eqn:Hat.
    apply DRBD8_Attach_inv in Hat
      as [(found & Hfind & -> & ->) | (-> & Hr & Hs)].
    + intros Heq; inversion Heq; subst. right. left. split; [reflexivity |].
      exists found. repeat split. exact Hfind.
    + destruct r0; simpl in Hr; try discriminate;
        intros Heq; inversion Heq; subst; right; right; repeat split.
Qed.

(** C6, as amended. After a [Shutdown] that returns true the children
    are as before. For the mirror driver the device's own [dev_path] and
    [minor] are then absent; for the logical volume and the file driver
    [Shutdown] is a no-op that returns true and leaves the whole device,
    [dev_path] and [minor] included, as it was. *)
Theorem C6_shutdown :
  forall (E : Env) (d d' : BlockDev) (s s' : St),
    Shutdown d s = (Ret true, d', s') ->
    _children d' = _children d
    /\ match cls d with
       | DRBD8 _ _ _ _ => dev_path d' = VNone /\ minor d' = None
       | LogicalVolume _ _ | FileStorage _ => d' = d /\ s' = s
       end.
Proof.
  intros E d d' s s' Hsd. unfold Shutdown in Hsd.
  destruct (cls d) eqn:Hcls.
  - inversion Hsd; subst. repeat split.
  - rewrite DRBD8_Shutdown_unfold in Hsd.
    destruct (not_attached d s) as [[r d1] s1] eqn:Hna.
    apply not_attached_inv in Hna
      as [(m & Hm & -> & -> & ->)
         | [(Hm & found & Hfind & -> & ->) | (Hm & -> & Hr & Hs)]].
    + rewrite Hm in Hsd. unfold shutdown_down in Hsd. cbv zeta in Hsd.
      destruct (_ShutdownAll m s) as [[[] | e |] s2]; simpl in Hsd;
        inversion Hsd; subst. repeat split.
    + destruct found as [m |].
      * rewrite bool_decide_eq_true_2 in Hsd by discriminate. simpl in Hsd.
        unfold shutdown_down in Hsd. cbv zeta in Hsd.
        destruct (_ShutdownAll m s1) as [[[] | e |] s2]; simpl in Hsd;
          inversion Hsd; subst. repeat split.
      * rewrite bool_decide_eq_false_2 in Hsd by (intros Hn; apply Hn; reflexivity).
        simpl in Hsd. inversion Hsd; subst. repeat split.
    + destruct r; simpl in Hr; try discriminate; inversion Hsd.
  - inversion Hsd; subst. repeat split.
Qed.

(** The mirror of the second scenario, attached to minor 3. *)
Definition mirror_attached : BlockDev :=
  mkDev (DRBD8 (VStr "10.0.0.1") (VInt 11000) (VStr "10.0.0.2") (VInt 11000))
        [VStr "10.0.0.1"; VInt 11000; VStr "10.0.0.2"; VInt 11000]
        [lv_dev "lv1" 0; lv_dev "lv1meta" 1]
        (VStr "/dev/drbd3") (Some 147) (Some 3).

Definition down_scenario : Sim.SimWorld :=
  Sim.mkWorld
    (file_text ["version: 8.0.12 (api:86/proto:86)";
                " 3: cs:Connected st:Secondary/Secondary ds:UpToDate/UpToDate C r---"])
    [Sim.ok ["drbdsetup"; "/dev/drbd3"; "down"] "" false]
    [] 0.

(** Shutting down the attached mirror clears its minor and path and
    keeps its two children. *)
Lemma C6_shutdown_witness :
  (Shutdown mirror_attached (Sim.start down_scenario)).1.1 = Ret true
  /\ _children (Shutdown mirror_attached (Sim.start down_scenario)).1.2
     = [lv_dev "lv1" 0; lv_dev "lv1meta" 1]
  /\ dev_path (Shutdown mirror_attached (Sim.start down_scenario)).1.2 = VNone
  /\ minor (Shutdown mirror_attached (Sim.start down_scenario)).1.2 = None.
Proof.
  split; [reflexivity |].
  exact (C6_shutdown Sim.sim_env mirror_attached
           (Shutdown mirror_attached (Sim.start down_scenario)).1.2
           (Sim.start down_scenario)
           (Shutdown mirror_attached (Sim.start down_scenario)).2 eq_refl).
Defined.

(** The logical volume of the first scenario, as its constructor builds
    it: after a [Shutdown] that returns true it still has its path and
    its minor. *)
Lemma C6_lv_shutdown_counterexample :
  (@LogicalVolume_init Sim.sim_env [VStr "vg0"; VStr "lv1"] []
     (Sim.start lv_scenario)).1
  = Ret (lv_dev "lv1" 2)
  /\ Shutdown (lv_dev "lv1" 2) (Sim.start lv_scenario)
     = (Ret true, lv_dev "lv1" 2, Sim.start lv_scenario)
  /\ dev_path (lv_dev "lv1" 2) = VStr "/dev/vg0/lv1"
  /\ minor (lv_dev "lv1" 2) = Some 2.
Proof. repeat split. Qed.

(** ** Commands issued by Attach *)

(** [drbdsetup <dev> down] *)
Definition is_down (argv : list pyval) : bool :=
  match argv with
  | [VStr "drbdsetup"; _; VStr "down"] => true
  | _ => false
  end.

Section Issues.
Context `{Env}.
Variable P : list pyval -> Prop.

(** Every command the computation runs satisfies [P]. *)
Definition issues {A} (m : Cmd A) : Prop :=
  forall s r s', m s = (r, s') ->
    exists l, cmds s' = cmds s ++ l /\ Forall P l.

Lemma issues_pure {A} (m : Cmd A) :
  (forall s, (m s).2 = s) -> issues m.
Proof.
  intros Hm s r s' Heq. exists []. rewrite app_nil_r.
  specialize (Hm s). rewrite Heq in Hm. simpl in Hm. subst. split; constructor.
Qed.

Lemma issues_ret {A} (a : A) : issues (ret a).
Proof. apply issues_pure. reflexivity. Qed.

Lemma issues_raise {A} (e : Exc) : issues (@raise _ A e).
Proof. apply issues_pure. reflexivity. Qed.

Lemma issues_diverge {A} : issues (@diverge _ A).
Proof. apply issues_pure. reflexivity. Qed.

Lemma issues_lift_res {A} (r : Res A) : issues (lift_res r).
Proof. apply issues_pure. reflexivity. Qed.

Lemma issues_bind {A B} (m : Cmd A) (k : A -> Cmd B) :
  issues m -> (forall a, issues (k a)) -> issues (bind m k).
Proof.
  intros Hm Hk s r s' Heq. unfold bind in Heq.
  destruct (m s) as [[a | e |] s1] eqn:Hms;
    destruct (Hm _ _ _ Hms) as (l1 & Hl1 & HP1).
  - destruct (Hk a _ _ _ Heq) as (l2 & Hl2 & HP2).
    exists (l1 ++ l2). rewrite Hl2, Hl1, app_assoc.
    split; [reflexivity | apply Forall_app; split; assumption].
  - inversion Heq; subst. exists l1. split; assumption.
  - inversion Heq; subst. exists l1. split; assumption.
Qed.

Lemma issues_RunCmd argv : P argv -> issues (RunCmd argv).
Proof.
  intros HP s r s' Heq. unfold RunCmd in Heq.
  destruct (run argv (world s)) as [res w]. inversion Heq; subst.
  exists [argv]. split; [reflexivity | repeat constructor; exact HP].
Qed.

Lemma issues_sleep secs : issues (sleep secs).
Proof.
  intros s r s' Heq. inversion Heq; subst. exists []. rewrite app_nil_r.
  split; constructor.
Qed.

Lemma issues_time_now : issues time_now.
Proof. apply issues_pure. reflexivity. Qed.

Lemma issues_read_proc_drbd : issues read_proc_drbd.
Proof. apply issues_pure. reflexivity. Qed.

End Issues.

Definition no_down (argv : list pyval) : Prop := is_down argv = false.

Ltac issues_step :=
  first
    [ apply issues_ret | apply issues_raise | apply issues_diverge
    | apply issues_lift_res | apply issues_sleep | apply issues_time_now
    | apply issues_read_proc_drbd
    | apply issues_RunCmd; reflexivity
    | apply issues_bind; [| intros ?]
    | match goal with
      | |- issues _ (if ?b then _ else _) => destruct b
      | |- issues _ (match ?x with _ => _ end) => destruct x
      | |- issues _ (let '(_, _) := ?x in _) => destruct x
      end ].

Section AttachIssues.
Context `{Env}.

Lemma issues__GetProcData : issues no_down _GetProcData.
Proof. unfold _GetProcData. repeat issues_step. Qed.

Lemma issues__GetUsedDevs : issues no_down _GetUsedDevs.
Proof.
  unfold _GetUsedDevs. apply issues_bind; [apply issues__GetProcData |].
  intros data. apply issues_ret.
Qed.

Lemma issues_show_info minor : issues no_down (show_info minor).
Proof.
  unfold show_info, _GetShowData, _GetDevInfo. repeat issues_step.
Qed.

Lemma issues__ShutdownNet minor : issues no_down (_ShutdownNet minor).
Proof. unfold _ShutdownNet. repeat issues_step. Qed.

Lemma issues_poll_net fuel minor lhost lport rhost rport timeout :
  issues no_down (poll_net fuel minor lhost lport rhost rport timeout).
Proof.
  induction fuel as [| fuel IH]; simpl; [apply issues_diverge |].
  apply issues_bind; [apply issues_time_now | intros now].
  destruct (Qltb now timeout); [| apply issues_ret].
  apply issues_bind; [unfold _GetShowData; repeat issues_step | intros out].
  apply issues_bind; [unfold _GetDevInfo; repeat issues_step | intros info].
  destruct (_ || _).
  - apply issues_bind; [apply issues_sleep | intros _; exact IH].
  - destruct (_ || _); [| apply issues_ret].
    apply issues_bind; [apply issues_sleep | intros _; exact IH].
Qed.

Lemma issues__AssembleNet minor net_info protocol dual_pri hmac secret :
  issues no_down (_AssembleNet minor net_info protocol dual_pri hmac secret).
Proof.
  unfold _AssembleNet. destruct net_info as [[[lhost lport] rhost] rport].
  destruct (_ || _); [apply issues__ShutdownNet |].
  apply issues_bind.
  - apply issues_RunCmd. destruct dual_pri, (py_truth hmac && py_truth secret);
      reflexivity.
  - intros result. destruct (failed result); [apply issues_ret |].
    apply issues_bind; [apply issues_time_now | intros now].
    apply issues_bind; [apply issues_poll_net | intros ok].
    destruct (negb ok); apply issues_ret.
Qed.

Lemma issues_Attach_loop d minors : issues no_down (Attach_loop d minors).
Proof.
  induction minors as [| minor rest IH]; simpl; [apply issues_ret |].
  apply issues_bind; [apply issues_show_info | intros info].
  apply issues_bind; [apply issues_lift_res | intros match_l].
  destruct (match_l && _MatchesNet d info); [apply issues_ret |].
  apply issues_bind.
  { destruct (_ && _); [| apply issues_ret].
    apply issues_bind; [apply issues__AssembleNet | intros res_r].
    destruct res_r; [| apply issues_ret].
    apply issues_bind; [apply issues_show_info | intros info'; apply issues_ret]. }
  intros found. destruct found; [apply issues_ret |].
  destruct (_ && _); [apply issues_ret |].
  apply issues_bind.
  { destruct (_ && _); [| apply issues_ret].
    apply issues_bind; [apply issues__ShutdownNet | intros down].
    destruct (negb down); [apply issues_raise |].
    apply issues_bind; [apply issues__AssembleNet | intros res_r].
    destruct res_r; [| apply issues_ret].
    apply issues_bind; [apply issues_show_info | intros info'; apply issues_ret]. }
  intros found. destruct found; [apply issues_ret | exact IH].
Qed.

Lemma issues_Attach_find d : issues no_down (Attach_find d).
Proof.
  unfold Attach_find. apply issues_bind; [apply issues__GetUsedDevs |].
  intros used. apply issues_Attach_loop.
Qed.

End AttachIssues.

(** C10. Shutting down a mirror that is not attached is a no-op that
    succeeds: when the minor is absent and [Attach] finds no matching
    kernel minor, [Shutdown] returns true; [minor] and [dev_path] stay
    absent, and none of the commands run on the way is [drbdsetup ...
    down]. *)
Theorem C10_shutdown_unattached :
  forall (E : Env) (d d1 : BlockDev) (s s1 : St),
    minor d = None ->
    DRBD8_Attach d s = (Ret false, d1, s1) ->
    DRBD8_Shutdown d s = (Ret true, d1, s1)
    /\ minor d1 = None
    /\ dev_path d1 = VNone
    /\ exists issued, cmds s1 = cmds s ++ issued
                      /\ Forall (fun argv => is_down argv = false) issued.
Proof.
  intros E d d1 s s1 Hm Hat.
  assert (Hsd : DRBD8_Shutdown d s = (Ret true, d1, s1)).
  { rewrite DRBD8_Shutdown_unfold. unfold not_attached. rewrite Hm, Hat.
    reflexivity. }
  split; [exact Hsd |].
  apply DRBD8_Attach_inv in Hat as [(found & Hfind & Hr & ->) | (_ & Hr & _)];
    [| discriminate].
  destruct found as [m |].
  - rewrite bool_decide_eq_true_2 in Hr by discriminate. discriminate.
  - split; [reflexivity |]. split; [reflexivity |].
    exact (issues_Attach_find d _ _ _ Hfind).
Qed.

(** The unassembled mirror of the fifth scenario on a node without any
    configured minor: [Attach] finds nothing and [Shutdown] succeeds
    without running a command. *)
Lemma C10_shutdown_unattached_witness :
  DRBD8_Shutdown mirror_new (Sim.start rollback_scenario)
  = (Ret true, mirror_new, Sim.start rollback_scenario)
  /\ minor mirror_new = None
  /\ dev_path mirror_new = VNone
  /\ exists issued,
       cmds (Sim.start rollback_scenario)
       = cmds (Sim.start rollback_scenario) ++ issued
       /\ Forall (fun argv => is_down argv = false) issued.
Proof.
  exact (C10_shutdown_unattached Sim.sim_env mirror_new mirror_new
           (Sim.start rollback_scenario) (Sim.start rollback_scenario)
           eq_refl eq_refl).
Defined.

(** ** Attach: the wrong-peer case *)

Section AttachLoop.
Context `{Env}.

(** Minors at which the loop does not break leave it to the rest. *)
Lemma Attach_loop_app d pre rest s0 s :
  Attach_loop d pre s0 = (Ret None, s) ->
  Attach_loop d (pre ++ rest) s0 = Attach_loop d rest s.
Proof.
  revert s0. induction pre as [| minor pre IH]; intros s0 Hpre.
  - simpl in Hpre. inversion Hpre; subst. reflexivity.
  - simpl in Hpre |- *. unfold bind in Hpre |- *.
    destruct (show_info minor s0) as [[info | e |] s1]; try discriminate.
    destruct (lift_res (_MatchesLocal d info) s1) as [[match_l | e |] s2];
      try discriminate.
    destruct (match_l && _MatchesNet d info); [discriminate |].
    match type of Hpre with
    | context [match ?c s2 with _ => _ end] =>
        destruct (c s2) as [[[] | e |] s3]; try discriminate
    end.
    destruct (_ && _); [discriminate |].
    match type of Hpre with
    | context [match ?c s3 with _ => _ end] =>
        destruct (c s3) as [[[] | e |] s4]; try discriminate
    end.
    apply IH. exact Hpre.
Qed.

(** The loop only ever breaks at one of the minors it is given. *)
Lemma Attach_loop_In d minors s m s' :
  Attach_loop d minors s = (Ret (Some m), s') -> m ∈ minors.
Proof.
  revert s. induction minors as [| minor rest IH]; intros s Hloop.
  - discriminate.
  - simpl in Hloop. unfold bind in Hloop.
    destruct (show_info minor s) as [[info | e |] s1]; try discriminate.
    destruct (lift_res (_MatchesLocal d info) s1) as [[match_l | e |] s2];
      try discriminate.
    destruct (match_l && _MatchesNet d info).
    { inversion Hloop; subst. left. }
    match type of Hloop with
    | context [match ?c s2 with _ => _ end] =>
        destruct (c s2) as [[[] | e |] s3]; try discriminate
    end.
    { inversion Hloop; subst. left. }
    destruct (_ && _).
    { inversion Hloop; subst. left. }
    match type of Hloop with
    | context [match ?c s3 with _ => _ end] =>
        destruct (c s3) as [[[] | e |] s4]; try discriminate
    end.
    { inversion Hloop; subst. left. }
    right. eapply IH. exact Hloop.
Qed.

Lemma _ShutdownNet_run m s :
  _ShutdownNet m s
  = (Ret (negb (failed (run [VStr "drbdsetup"; VStr (_DevPath m); VStr "disconnect"]
                            (world s)).1)),
     mkSt (run [VStr "drbdsetup"; VStr (_DevPath m); VStr "disconnect"] (world s)).2
          (cmds s ++ [[VStr "drbdsetup"; VStr (_DevPath m); VStr "disconnect"]])).
Proof.
  unfold _ShutdownNet, bind, RunCmd, ret.
  destruct (run _ (world s)) as [result w]. reflexivity.
Qed.

End AttachLoop.

Definition wrong_peer_msg : string :=
  "Device has correct local storage, wrong remote peer and is unable to disconnect in order to attach to the correct peer".

(** C1. When the loop of [Attach] reaches a used minor whose show-info
    matches our local configuration but not our network configuration,
    with both [local_dev] and [local_addr] present, the next command is
    the network disconnect of that minor. If the disconnect fails,
    [BlockDeviceError] is raised. Otherwise the net attach is run for
    that minor with our four endpoints and protocol C; the loop breaks
    at this minor exactly when the net attach succeeded and the show-info
    read again matches our network configuration; if not, it goes on
    with the remaining minors and does not settle on this one. Breaking
    at the minor makes [Attach] set [minor] and [dev_path] to
    [/dev/drbd<minor>]. *)
Theorem C1_attach_wrong_peer :
  forall (E : Env) (d : BlockDev) (pre : list Z) (minor0 : Z) (rest : list Z)
         (s0 s sI : St) (info : gmap string infoval),
    Attach_loop d pre s0 = (Ret None, s) ->
    minor0 ∉ rest ->
    show_info minor0 s = (Ret info, sI) ->
    _MatchesLocal d info = Ret true ->
    _MatchesNet d info = false ->
    has_key "local_dev" info = true ->
    has_key "local_addr" info = true ->
    let loop := Attach_loop d (pre ++ minor0 :: rest) s0 in
    let down := _ShutdownNet minor0 sI in
    let net := _AssembleNet minor0 (net_of d) "C" false VNone VNone down.2 in
    let reread := show_info minor0 net.2 in
    cmds down.2
    = cmds sI ++ [[VStr "drbdsetup"; VStr (_DevPath minor0); VStr "disconnect"]]
    /\ match down.1 with
       | Ret false => loop = (Raise (BlockDeviceError wrong_peer_msg), down.2)
       | Ret true =>
           match net.1 with
           | Ret true =>
               match reread.1 with
               | Ret info' =>
                   if _MatchesNet d info' then loop = (Ret (Some minor0), reread.2)
                   else loop = Attach_loop d rest reread.2
                        /\ loop.1 <> Ret (Some minor0)
               | Raise e => loop = (Raise e, reread.2)
               | Diverge => loop = (Diverge, reread.2)
               end
           | Ret false =>
               loop = Attach_loop d rest net.2 /\ loop.1 <> Ret (Some minor0)
           | Raise e => loop = (Raise e, net.2)
           | Diverge => loop = (Diverge, net.2)
           end
       | Raise _ | Diverge => False
       end
    /\ (forall (s00 : St) (used : gmap Z (string * string))
               (found : option Z) (sF : St),
          _GetUsedDevs s00 = (Ret used, s0) ->
          dict_order (map fst (map_to_list used)) = pre ++ minor0 :: rest ->
          loop = (Ret found, sF) ->
          DRBD8_Attach d s00
          = (Ret (bool_decide (found <> None)), _SetFromMinor d found, sF))
    /\ minor (_SetFromMinor d (Some minor0)) = Some minor0
    /\ dev_path (_SetFromMinor d (Some minor0))
       = VStr ("/dev/drbd" +:+ pretty minor0).
Proof.
  intros E d pre minor0 rest s0 s sI info Hpre Hnin Hshow Hl Hr Hdev Haddr
         loop down net reread.
  assert (Hloop : loop
                  = match down.1 with
                    | Ret false => (Raise (BlockDeviceError wrong_peer_msg), down.2)
                    | Ret true =>
                        match net.1 with
                        | Ret true =>
                            match reread.1 with
                            | Ret info' =>
                                if _MatchesNet d info'
                                then (Ret (Some minor0), reread.2)
                                else Attach_loop d rest reread.2
                            | Raise e => (Raise e, reread.2)
                            | Diverge => (Diverge, reread.2)
                            end
                        | Ret false => Attach_loop d rest net.2
                        | Raise e => (Raise e, net.2)
                        | Diverge => (Diverge, net.2)
                        end
                    | Raise e => (Raise e, down.2)
                    | Diverge => (Diverge, down.2)
                    end).
  { subst loop down net reread.
    rewrite (Attach_loop_app d pre (minor0 :: rest) s0 s Hpre).
    cbn [Attach_loop]. unfold bind, lift_res, ret, raise.
    rewrite Hshow, Hl, Hr. cbn [andb negb]. rewrite Haddr, Hdev.
    cbv beta iota. cbn [andb negb].
    destruct (_ShutdownNet minor0 sI) as [[[] | e |] s2]; cbn [fst snd negb];
      try reflexivity.
    destruct (_AssembleNet minor0 (net_of d) "C" false VNone VNone s2)
      as [[[] | e |] s3]; cbn [fst snd]; try reflexivity.
    destruct (show_info minor0 s3) as [[info' | e |] s4]; cbn [fst snd];
      try reflexivity.
    destruct (_MatchesNet d info'); reflexivity. }
  assert (Hrest : forall s', (Attach_loop d rest s').1 <> Ret (Some minor0)).
  { intros s' Heq. destruct (Attach_loop d rest s') as [r s''] eqn:Hrs.
    simpl in Heq. subst r. apply Hnin. eapply Attach_loop_In. exact Hrs. }
  split.
  { subst down. rewrite _ShutdownNet_run. reflexivity. }
  split.
  { rewrite Hloop. clear Hloop.
    assert (Hd : is_Ret down.1 = true).
    { subst down. rewrite _ShutdownNet_run. reflexivity. }
    destruct down.1 as [[] | e |]; try discriminate; [| reflexivity].
    destruct net.1 as [[] | e |]; try reflexivity.
    - destruct reread.1 as [info' | e |]; try reflexivity.
      destruct (_MatchesNet d info'); [reflexivity |].
      split; [reflexivity | apply Hrest].
    - split; [reflexivity | apply Hrest]. }
  split.
  { intros s00 used found sF Hused Horder Hfound.
    unfold DRBD8_Attach, Attach_find, bind. rewrite Hused, Horder.
    fold loop. rewrite Hfound. reflexivity. }
  split; reflexivity.
Qed.

(** The third scenario: minor 3 holds our local storage but is connected
    to 10.0.0.9; after the disconnect and the net attach [drbdsetup
    show] reports our peer 10.0.0.2. *)
Definition net_argv : list string :=
  ["drbdsetup"; "/dev/drbd3"; "net"; "10.0.0.1:11000"; "10.0.0.2:11000"; "C";
   "-A"; "discard-zero-changes"; "-B"; "consensus"; "--create-device"].

Definition wrong_peer_scenario : Sim.SimWorld :=
  Sim.mkWorld
    (file_text ["version: 8.0.12 (api:86/proto:86)";
                " 3: cs:Connected st:Secondary/Secondary ds:UpToDate/UpToDate C r---"])
    [Sim.ok ["drbdsetup"; "/dev/drbd3"; "show"] (Sim.show_text "10.0.0.9") true;
     Sim.ok ["drbdsetup"; "/dev/drbd3"; "show"] (Sim.show_text "10.0.0.2") false;
     Sim.ok ["drbdsetup"; "/dev/drbd3"; "disconnect"] "" false;
     Sim.ok net_argv "" false]
    [] 0.

(** In the third scenario [Attach] disconnects, attaches the network,
    polls once, reads the show-info again and binds minor 3. *)
Lemma C1_attach_wrong_peer_witness :
  exists sF : St,
    DRBD8_Attach mirror_new (Sim.start wrong_peer_scenario)
    = (Ret true, _SetFromMinor mirror_new (Some 3), sF)
    /\ cmds sF
       = [map VStr ["drbdsetup"; "/dev/drbd3"; "show"];
          map VStr ["drbdsetup"; "/dev/drbd3"; "disconnect"];
          map VStr net_argv;
          map VStr ["drbdsetup"; "/dev/drbd3"; "show"];
          map VStr ["drbdsetup"; "/dev/drbd3"; "show"]].
Proof.
  pose proof
    (fun info sI H3 =>
       C1_attach_wrong_peer Sim.sim_env mirror_new [] 3 []
         (Sim.start wrong_peer_scenario) (Sim.start wrong_peer_scenario)
         sI info eq_refl (not_elem_of_nil 3) H3) as HC1.
  specialize (HC1 _ _ eq_refl eq_refl eq_refl eq_refl eq_refl).
  destruct HC1 as (_ & _ & Hbind & _).
  eexists. split.
  - exact (Hbind (Sim.start wrong_peer_scenario) _ _ _ eq_refl eq_refl eq_refl).
  - reflexivity.
Defined.

(** ** Create *)

Section CreateInv.
Context `{Env}.

(** The object a constructor hands to [Attach]. *)
Definition fresh_lv (vg_name lv_name : pyval) (children : list BlockDev)
    : BlockDev :=
  mkDev (LogicalVolume vg_name lv_name) [vg_name; lv_name] children
        (VStr ("/dev/" +:+ py_str vg_name +:+ "/" +:+ py_str lv_name))
        None None.

Definition fresh_drbd8 (lhost lport rhost rport : pyval)
    (children : list BlockDev) : BlockDev :=
  mkDev (DRBD8 lhost lport rhost rport) [lhost; lport; rhost; rport] children
        VNone (Some _DRBD_MAJOR) None.


Lemma LogicalVolume_Attach_minor d s b d' s' :
  minor d = None -> major d = None ->
  LogicalVolume_Attach d s = (Ret b, d', s') ->
  dev_path d' = dev_path d /\ cls d' = cls d
  /\ (b = true <-> minor d' <> None)
  /\ (major d' <> None <-> minor d' <> None).
Proof.
  intros Hm Hma. unfold LogicalVolume_Attach, RunCmd.
  destruct (run _ (world s)) as [result w].
  destruct (failed result).
  - intros Heq; inversion Heq; subst. rewrite Hm, Hma.
    repeat split; try tauto; try discriminate.
  - destruct (lv_attach_scan _) as [[ma mi] |];
      intros Heq; inversion Heq; subst; simpl.
    + repeat split; try tauto; try discriminate.
    + rewrite Hm, Hma. repeat split; try tauto; try discriminate.
Qed.

Lemma LogicalVolume_Create_inv unique_id children size s dev s' :
  LogicalVolume_Create unique_id children size s = (Ret dev, s') ->
  exists s1, LogicalVolume_init unique_id children s1 = (Ret dev, s').
Proof.
  unfold LogicalVolume_Create.
  destruct unique_id as [| vg [| lv [| x l]]]; try discriminate.
  unfold bind.
  destruct (GetPVInfo vg s) as [[[[| pv data] |] | e |] s1]; try discriminate.
  destruct (float_ltb_int _ _); [discriminate |].
  destruct (RunCmd _ s1) as [[result | e |] s2]; try discriminate.
  destruct (failed result); [discriminate |].
  intros Heq. exists s2. exact Heq.
Qed.

Lemma DRBD8_init_inv unique_id children s dev s' :
  DRBD8_init unique_id children s = (Ret dev, s') ->
  exists lhost lport rhost rport s1 b,
    unique_id = [lhost; lport; rhost; rport]
    /\ DRBD8_Attach (fresh_drbd8 lhost lport rhost rport children) s1
       = (Ret b, dev, s').
Proof.
  unfold DRBD8_init, bind.
  destruct (_GetVersion s) as [[version | e |] s1]; try discriminate.
  destruct (negb (k_major version =? 8)); [discriminate |].
  destruct (negb _); [discriminate |].
  destruct unique_id as [| a [| b [| c [| e [| x l]]]]]; try discriminate.
  change (set_major _ _) with (fresh_drbd8 a b c e children).
  destruct (DRBD8_Attach (fresh_drbd8 a b c e children) s1)
    as [[[r | ex |] d'] s2] eqn:Hat; intros Heq; inversion Heq; subst.
  exists a, b, c, e, s1, r. split; [reflexivity | exact Hat].
Qed.

Lemma DRBD8_Create_inv unique_id children size s dev s' :
  DRBD8_Create unique_id children size s = (Ret dev, s') ->
  exists children' s1, DRBD8_init unique_id children' s1 = (Ret dev, s').
Proof.
  unfold DRBD8_Create.
  destruct children as [| backend [| meta [| x l]]]; try discriminate.
  destruct (Assemble meta s) as [[[a | e |] meta1] s1]; try discriminate.
  destruct (Attach meta1 s1) as [[[attached | e |] meta2] s2]; try discriminate.
  destruct attached; [| discriminate]. cbn [negb]. unfold bind.
  destruct (_CheckMetaSize (dev_path meta2) s2) as [[[] | e |] s3];
    try discriminate. cbn [negb].
  destruct (_FindUnusedMinor s3) as [[minor0 | e |] s4]; try discriminate.
  destruct (_InitMeta minor0 (dev_path meta2) s4) as [[[] | e |] s5];
    try discriminate.
  destruct (_IsValidMeta (dev_path meta2) s5) as [[[] | e |] s6];
    try discriminate. cbn [negb].
  intros Heq. exists [backend; meta2], s6. exact Heq.
Qed.

Lemma FileStorage_init_inv unique_id children s dev s' :
  FileStorage_init unique_id children s = (Ret dev, s') ->
  exists driver, dev = mkDev (FileStorage driver) unique_id [] (nth 1 unique_id VNone)
                             None None.
Proof.
  unfold FileStorage_init.
  destruct children; [| discriminate].
  destruct unique_id as [| a [| b [| x l]]]; try discriminate.
  intros Heq; inversion Heq; subst. exists a. reflexivity.
Qed.

Lemma FileStorage_Create_inv unique_id children size s dev s' :
  FileStorage_Create unique_id children size s = (Ret dev, s') ->
  exists s1, FileStorage_init unique_id children s1 = (Ret dev, s').
Proof.
  unfold FileStorage_Create.
  destruct unique_id as [| a [| b [| x l]]]; try discriminate.
  destruct (open_w b (world s)) as [w |]; [| discriminate].
  destruct (truncate b _ w) as [w' |]; [| discriminate].
  intros Heq. eexists. exact Heq.
Qed.

End CreateInv.

(** What [lvdisplay] shows of a volume in a world: its device numbers,
    when the command succeeds and a line of its output carries them. *)
Definition displayed `{Env} (path : pyval) (w : World) : option (Z * Z) :=
  let result := (run [VStr "lvdisplay"; path] w).1 in
  if failed result then None else lv_attach_scan (splitlines (stdout result)).

(** /proc/drbd can be read and shows no configured minor. *)
Definition no_configured_minor `{Env} (w : World) : Prop :=
  splitlines (proc_drbd w) <> []
  /\ used_devs_scan (splitlines (proc_drbd w)) ∅ = ∅.

(** The iteration over a dictionary yields keys of the dictionary. *)
Definition iterates_keys `{Env} : Prop :=
  forall keys k, k ∈ dict_order keys -> k ∈ keys.

(** The two commands with which [DRBD8.Create] ends before it calls the
    constructor: the initialisation of the metadata and its check. *)
Definition create_md_argv (minor : Z) (meta : pyval) : list pyval :=
  [VStr "drbdmeta"; VStr "--force"; VStr (_DevPath minor); VStr "v08"; meta;
   VStr "0"; VStr "create-md"].
Definition dstate_argv (minor : Z) (meta : pyval) : list pyval :=
  [VStr "drbdmeta"; VStr (_DevPath minor); VStr "v08"; meta; VStr "0";
   VStr "dstate"].

Section CreateOutcome.
Context `{Env}.








(** What a successful create of each driver has done and returns. *)
Definition created (dev_type : DevType) (unique_id : list pyval)
    (children : list BlockDev) (size : Z) (s : St) (dev : BlockDev) (s' : St)
    : Prop :=
  match dev_type with
  | LD_LV =>
      exists vg_name lv_name data s0,
        let argv := lvcreate_argv size vg_name lv_name (sort_reverse data) in
        let path :=
          VStr ("/dev/" +:+ py_str vg_name +:+ "/" +:+ py_str lv_name) in
        let s1 := mkSt (run argv (world s0)).2 (cmds s0 ++ [argv]) in
        unique_id = [vg_name; lv_name]
        /\ GetPVInfo vg_name s = (Ret (Some data), s0)
        /\ data <> []
        /\ float_ltb_int (py_sum (map fst (sort_reverse data))) size = false
        /\ failed (run argv (world s0)).1 = false
        /\ Attach (fresh_lv vg_name lv_name children) s1
           = (Ret (bool_decide (displayed path (world s1) <> None)), dev, s')
        /\ dev_path dev = path
        /\ (minor dev <> None <-> displayed path (world s1) <> None)
        /\ (major dev <> None <-> minor dev <> None)
        /\ forall s'',
             (Attach dev s'').1.1
             = Ret (bool_decide (displayed path (world s'') <> None))
  | LD_DRBD8 =>
      exists lhost lport rhost rport backend meta a meta1 s0 meta' s2 s3
             minor0 minor1 b,
        let create_md := create_md_argv minor0 (dev_path meta') in
        let s4 := mkSt (run create_md (world s3)).2 (cmds s3 ++ [create_md]) in
        let dstate := dstate_argv minor1 (dev_path meta') in
        let s1 := mkSt (run dstate (world s4)).2 (cmds s4 ++ [dstate]) in
        unique_id = [lhost; lport; rhost; rport]
        /\ children = [backend; meta]
        /\ Assemble meta s = (Ret a, meta1, s0)
        /\ Attach meta1 s0 = (Ret true, meta', s2)
        /\ _CheckMetaSize (dev_path meta') s2 = (Ret true, s3)
        /\ _FindUnusedMinor s3 = (Ret minor0, s3)
        /\ failed (run create_md (world s3)).1 = false
        /\ _FindUnusedMinor s4 = (Ret minor1, s4)
        /\ failed (run dstate (world s4)).1 = false
        /\ Attach (fresh_drbd8 lhost lport rhost rport [backend; meta']) s1
           = (Ret b, dev, s')
        /\ (b = true <-> minor dev <> None)
        /\ major dev = Some 147
        /\ dev_path dev
           = match minor dev with
             | Some m => VStr ("/dev/drbd" +:+ pretty m)
             | None => VNone
             end
        /\ (iterates_keys ->
            (no_configured_minor (world s1) ->
             b = false /\ minor dev = None /\ dev_path dev = VNone /\ s' = s1)
            /\ forall s'', no_configured_minor (world s'') ->
                 Attach dev s'' = (Ret false, _SetFromMinor dev None, s''))
  | LD_FILE =>
      exists driver path w1,
        unique_id = [driver; path]
        /\ open_w path (world s) = Some w1
        /\ truncate path (size * 1024 * 1024) w1 = Some (world s')
        /\ cmds s' = cmds s
        /\ dev = mkDev (FileStorage driver) unique_id [] path None None
        /\ Attach dev s' = (Ret (path_exists path (world s')), dev, s')
        /\ ((forall p w w', open_w p w = Some w' -> path_exists p w' = true) ->
            (forall p n w w' q, truncate p n w = Some w' ->
                                path_exists q w' = path_exists q w) ->
            Attach dev s' = (Ret true, dev, s'))
  end.

End CreateOutcome.





(** The constructor of a logical volume does not look at the answer of
    its [Attach]: where the create tool succeeds and [lvdisplay] then
    fails, the create succeeds all the same, and the volume comes back
    with its path and without device numbers. *)
Definition display_fails_scenario : Sim.SimWorld :=
  Sim.mkWorld ""
    [Sim.ok ["pvs"; "--noheadings"; "--nosuffix"; "--units=m";
             "-opv_name,vg_name,pv_free,pv_attr"; "--unbuffered";
             "--separator=:"]
            (file_text ["/dev/sda:vg0:2048:a-"; "/dev/sdb:vg0:512:a-"]) false;
     Sim.ok ["lvcreate"; "-L1024m"; "-nlv1"; "vg0"; "/dev/sda"; "/dev/sdb"]
            "" false;
     Sim.ko ["lvdisplay"; "/dev/vg0/lv1"] false]
    [] 0.

Example lv_create_display_fails :
  (@Create Sim.sim_env LD_LV [VStr "vg0"; VStr "lv1"] [] 1024
     (Sim.start display_fails_scenario)).1
  = Ret (fresh_lv (VStr "vg0") (VStr "lv1") [])
  /\ dev_path (fresh_lv (VStr "vg0") (VStr "lv1") []) = VStr "/dev/vg0/lv1"
  /\ minor (fresh_lv (VStr "vg0") (VStr "lv1") []) = None
  /\ (Attach (fresh_lv (VStr "vg0") (VStr "lv1") [])
        (@Create Sim.sim_env LD_LV [VStr "vg0"; VStr "lv1"] [] 1024
           (Sim.start display_fails_scenario)).2).1.1
     = Ret false.
Proof. repeat split. Qed.

(** * The remaining operations of the drivers *)

(** ** LogicalVolume: Remove, Rename, Snapshot, Close *)

Section LogicalVolumeMore.
Context `{Env}.

Open Scope meth_scope.

(** [not self.minor]: true for an absent minor and for minor 0. *)
Definition minor_falsy (d : BlockDev) : bool :=
  match minor d with
  | None => true
  | Some m => m =? 0
  end.

(** [LogicalVolume.Remove] *)
Definition LogicalVolume_Remove : Meth bool :=
  d <- self ;;
  gone <- (if minor_falsy d
           then attached <- LogicalVolume_Attach ;; mret (negb attached)
           else mret false) ;;
  if (gone : bool) then mret true
  else
    d <- self ;;
    let '(vg_name, lv_name) := lv_names d in
    result <- lift (RunCmd [VStr "lvremove"; VStr "-f";
                            VStr (py_str vg_name +:+ "/" +:+ py_str lv_name)]) ;;
    mret (negb (failed result)).

(** [LogicalVolume.Rename], on a new id of two elements
    [(new_vg, new_name)]; an id of another length is refused before
    anything else is looked at. The attribute [unique_id] is not
    assigned. *)
Definition LogicalVolume_Rename (new_vg new_name : pyval) : Meth unit :=
  d <- self ;;
  let '(vg_name, lv_name) := lv_names d in
  if negb (py_eqb new_vg vg_name) then
    mraise (ProgrammerError
      "Can't move a logical volume across volume groups (from %s to to %s)")
  else
    result <- lift (RunCmd [VStr "lvrename"; new_vg; lv_name; new_name]) ;;
    if failed result then
      mraise (BlockDeviceError "Failed to rename the logical volume: %s")
    else
      assign (fun d =>
        mkDev (LogicalVolume vg_name new_name) (unique_id d) (_children d)
              (VStr ("/dev/" +:+ py_str vg_name +:+ "/" +:+ py_str new_name))
              (major d) (minor d)).

(** [LogicalVolume.Close]: a no-op. *)
Definition LogicalVolume_Close : Meth unit := mret tt.

Close Scope meth_scope.

(** The first step of [LogicalVolume.Snapshot], "remove existing
    snapshot if found": the snapshot volume object is built with no
    children, attached by its constructor and removed; the results of
    both are dropped. *)
Definition remove_snapshot (vg_name : pyval) (snap_name : string) : Cmd unit :=
  snap <- LogicalVolume_init [vg_name; VStr snap_name] [] ;;
  fun s => let '(r, _, s') := LogicalVolume_Remove snap s in
           match r with
           | Ret _ => (Ret tt, s')
           | Raise e => (Raise e, s')
           | Diverge => (Diverge, s')
           end.

(** [LogicalVolume.Snapshot]. [self._lv_name + ".snap"] needs a
    string. *)
Definition LogicalVolume_Snapshot (d : BlockDev) (size : Z) : Cmd string :=
  let '(vg_name, lv_name) := lv_names d in
  match lv_name with
  | VStr name =>
      let snap_name := name +:+ ".snap" in
      remove_snapshot vg_name snap_name ;;;
      pvs_info <- GetPVInfo vg_name ;;
      match pvs_info with
      | None | Some [] =>
          raise (BlockDeviceError "Can't compute PV info for vg %s")
      | Some pvs_info =>
          match sort_reverse pvs_info with
          | [] => raise IndexError
          | (free_size, pv_name) :: _ =>
              if Qltb free_size (inject_Z size) then
                raise (BlockDeviceError
                  "Not enough free space: required %s, available %s")
              else
                result <- RunCmd [VStr "lvcreate";
                                  VStr ("-L" +:+ pretty size +:+ "m");
                                  VStr "-s";
                                  VStr ("-n" +:+ snap_name);
                                  dev_path d] ;;
                if failed result then
                  raise (BlockDeviceError "command: %s error: %s - %s")
                else ret snap_name
          end
      end
  | _ => raise TypeError
  end.

End LogicalVolumeMore.

(** ** DRBD8: Close, RemoveChildren, AddChildren *)

Section DRBD8More.
Context `{Env}.

Open Scope meth_scope.

(** [BaseDRBD.Rename] *)
Definition DRBD8_Rename (new_id : list pyval) : Meth unit :=
  mraise (ProgrammerError "Can't rename a drbd device").

(** [DRBD8.Close] *)
Definition DRBD8_Close : Meth unit :=
  na <- not_attached ;;
  if (na : bool) then mraise (BlockDeviceError "Can't find device")
  else
    d <- self ;;
    result <- lift (RunCmd [VStr "drbdsetup"; dev_path d; VStr "secondary"]) ;;
    if failed result then
      mraise (BlockDeviceError "Can't switch drbd device to secondary: %s")
    else mret tt.

(** [DRBD8.RemoveChildren]; [devices] are the paths of the devices to
    detach. A typed child list holds no [None], so the early return on
    two [None] children has no counterpart. *)
Definition DRBD8_RemoveChildren (devices : list pyval) : Meth unit :=
  d <- self ;;
  match minor d with
  | None =>
      mraise (BlockDeviceError "Can't attach to drbd8 during RemoveChildren")
  | Some m =>
      info <- lift (show_info m) ;;
      if negb (has_key "local_dev" info) then mret tt
      else
        match _children d with
        | [c0; c1] =>
            match devices with
            | [dev0; dev1] =>
                if negb (py_eqb dev0 (dev_path c0)) then
                  mraise (BlockDeviceError
                    "Mismatch in local storage (%s != %s) in RemoveChildren")
                else if negb (py_eqb dev1 (dev_path c1)) then
                  mraise (BlockDeviceError
                    "Mismatch in local storage (%s != %s) in RemoveChildren")
                else
                  ok <- lift (_ShutdownLocal m) ;;
                  if negb ok then
                    mraise (BlockDeviceError "Can't detach from local storage")
                  else assign (fun d => set_children d [])
            | _ =>
                mraise (BlockDeviceError "We need two children in RemoveChildren")
            end
        | _ => mraise (BlockDeviceError "We don't have two children: %s")
        end
  end.

Close Scope meth_scope.

End DRBD8More.

(** ** FileStorage: Remove, Close *)

Section FileStorageMore.
Context `{Env}.

(** [os.remove]: the world without the file, or [None] for [OSError]. *)
Variable os_remove : pyval -> World -> option World.

(** [FileStorage.Remove] *)
Definition FileStorage_Remove : Meth bool :=
  fun d s =>
    if negb (path_exists (dev_path d) (world s)) then (Ret true, d, s)
    else
      match os_remove (dev_path d) (world s) with
      | Some w => (Ret true, d, mkSt w (cmds s))
      | None => (Ret false, d, s)
      end.

(** [FileStorage.Close]: a no-op. *)
Definition FileStorage_Close : Meth unit := mret tt.

End FileStorageMore.

(** ** The sync speed *)

Section SetSyncSpeedClass.
Context `{Env}.

Variable child_SetSyncSpeed : BlockDev -> Z -> Cmd bool.

(** The loop of [BlockDev.SetSyncSpeed]:
    [result = result and child.SetSyncSpeed(speed)], which leaves the
    children after the first failure alone. No driver assigns anything
    in [SetSyncSpeed], so the objects stay out of the state. *)
Fixpoint syncspeed_children (children : list BlockDev) (speed : Z)
    (result : bool) : Cmd bool :=
  match children with
  | [] => ret result
  | child :: rest =>
      if result then
        r <- child_SetSyncSpeed child speed ;;
        syncspeed_children rest speed r
      else syncspeed_children rest speed false
  end.

(** [BlockDev.SetSyncSpeed] *)
Definition BlockDev_SetSyncSpeed (d : BlockDev) (speed : Z) : Cmd bool :=
  syncspeed_children (_children d) speed true.

(** [DRBD8.SetSyncSpeed] *)
Definition DRBD8_SetSyncSpeed (d : BlockDev) (kbytes : Z) : Cmd bool :=
  children_result <- BlockDev_SetSyncSpeed d kbytes ;;
  match minor d with
  | None => ret false
  | Some _ =>
      result <- RunCmd [VStr "drbdsetup"; dev_path d; VStr "syncer"; VStr "-r";
                        VStr (pretty kbytes)] ;;
      ret (negb (failed result) && children_result)
  end.

End SetSyncSpeedClass.

Section DispatchMore.
Context `{Env}.

(** [SetSyncSpeed]: only [DRBD8] overrides the default. *)
Fixpoint SetSyncSpeed (d : BlockDev) (speed : Z) : Cmd bool :=
  match cls d with
  | DRBD8 _ _ _ _ => DRBD8_SetSyncSpeed SetSyncSpeed d speed
  | _ => BlockDev_SetSyncSpeed SetSyncSpeed d speed
  end.

(** [DRBD8.AddChildren]. The two devices are opened in place, so the
    caller sees them as [Open] left them whatever the outcome: they are
    returned beside the receiver. *)
Definition DRBD8_AddChildren (devices : list BlockDev) (d : BlockDev) (s : St)
    : Res unit * BlockDev * list BlockDev * St :=
  match minor d with
  | None =>
      (Raise (BlockDeviceError "Can't attach to dbrd8 during AddChildren"),
       d, devices, s)
  | Some m =>
      match devices with
      | [backend; meta] =>
          match show_info m s with
          | (Ret info, s1) =>
              if has_key "local_dev" info then
                (Raise (BlockDeviceError "DRBD8 already attached to a local disk"),
                 d, devices, s1)
              else if py_eqb (dev_path backend) VNone
                      || py_eqb (dev_path meta) VNone then
                (Raise (BlockDeviceError "Children not ready during AddChildren"),
                 d, devices, s1)
              else
                match Open false backend s1 with
                | (Ret _, backend', s2) =>
                    match Open false meta s2 with
                    | (Ret _, meta', s3) =>
                        let '(r, s4) :=
                          (size_ok <- _CheckMetaSize (dev_path meta') ;;
                           if negb size_ok then
                             raise (BlockDeviceError "Invalid meta device size")
                           else
                             unused <- _FindUnusedMinor ;;
                             _InitMeta unused (dev_path meta') ;;;
                             valid <- _IsValidMeta (dev_path meta') ;;
                             if negb valid then
                               raise (BlockDeviceError "Cannot initalize meta device")
                             else
                               ok <- _AssembleLocal m (dev_path backend')
                                                    (dev_path meta') ;;
                               if negb ok then
                                 raise (BlockDeviceError
                                          "Can't attach to local storage")
                               else ret tt) s3 in
                        match r with
                        | Ret _ =>
                            (Ret tt, set_children d [backend'; meta'],
                             [backend'; meta'], s4)
                        | Raise e => (Raise e, d, [backend'; meta'], s4)
                        | Diverge => (Diverge, d, [backend'; meta'], s4)
                        end
                    | (Raise e, meta', s3) => (Raise e, d, [backend'; meta'], s3)
                    | (Diverge, meta', s3) => (Diverge, d, [backend'; meta'], s3)
                    end
                | (Raise e, backend', s2) => (Raise e, d, [backend'; meta], s2)
                | (Diverge, backend', s2) => (Diverge, d, [backend'; meta], s2)
                end
          | (Raise e, s1) => (Raise e, d, devices, s1)
          | (Diverge, s1) => (Diverge, d, devices, s1)
          end
      | _ =>
          (Raise (BlockDeviceError "Need two devices for AddChildren"),
           d, devices, s)
      end
  end.

(** [AttachOrAssemble]; the result of [Assemble] is dropped. *)
Definition AttachOrAssemble (dev_type : DevType) (unique_id : list pyval)
    (children : list BlockDev) : Cmd BlockDev :=
  device <- new_device dev_type unique_id children ;;
  fun s =>
    match Attach device s with
    | (Ret true, device1, s1) => (Ret device1, s1)
    | (Ret false, device1, s1) =>
        match Assemble device1 s1 with
        | (Ret _, device2, s2) =>
            match Attach device2 s2 with
            | (Ret true, device3, s3) => (Ret device3, s3)
            | (Ret false, _, s3) =>
                (Raise (BlockDeviceError
                          "Can't find a valid block device for %s/%s/%s"), s3)
            | (Raise e, _, s3) => (Raise e, s3)
            | (Diverge, _, s3) => (Diverge, s3)
            end
        | (Raise e, _, s2) => (Raise e, s2)
        | (Diverge, _, s2) => (Diverge, s2)
        end
    | (Raise e, _, s1) => (Raise e, s1)
    | (Diverge, _, s1) => (Diverge, s1)
    end.

End DispatchMore.

(** * Further properties of the module *)

(** ** Decimal numerals: printing and reading back *)

Fixpoint str_all (p : ascii -> bool) (s : string) : bool :=
  match s with
  | EmptyString => true
  | String c r => p c && str_all p r
  end.

(** The subject starts with a character of the class. *)
Definition starts_with (p : ascii -> bool) (s : string) : bool :=
  match s with
  | String c _ => p c
  | EmptyString => false
  end.

Fixpoint spaces (n : nat) : string :=
  match n with
  | O => ""
  | S n' => String " " (spaces n')
  end.

Lemma append_cons c (a b : string) : String c a +:+ b = String c (a +:+ b).
Proof. reflexivity. Qed.

Lemma append_nil_l (a : string) : "" +:+ a = a.
Proof. reflexivity. Qed.

Lemma append_assoc (a b c : string) : (a +:+ b) +:+ c = a +:+ (b +:+ c).
Proof.
  induction a as [| x a IH]; [reflexivity |].
  change (String x ((a +:+ b) +:+ c) = String x (a +:+ (b +:+ c))).
  f_equal. exact IH.
Qed.

Lemma append_nil_r (a : string) : a +:+ "" = a.
Proof.
  induction a as [| x a IH]; [reflexivity |].
  change (String x (a +:+ "") = String x a). f_equal. exact IH.
Qed.

Lemma length_append (a b : string) :
  String.length (a +:+ b) = (String.length a + String.length b)%nat.
Proof.
  induction a as [| x a IH]; [reflexivity |].
  rewrite append_cons. simpl. rewrite IH. reflexivity.
Qed.

Lemma str_all_app p a b :
  str_all p (a +:+ b) = str_all p a && str_all p b.
Proof.
  induction a as [| x a IH]; [reflexivity |].
  rewrite append_cons. simpl. rewrite IH, andb_assoc. reflexivity.
Qed.

Lemma span_all p s : str_all p (span p s).1 = true.
Proof.
  induction s as [| c r IH]; simpl; [reflexivity |].
  destruct (p c) eqn:Hc; [| reflexivity].
  destruct (span p r) as [a b]. simpl in IH. simpl. rewrite Hc. exact IH.
Qed.

Lemma span_app p ds r :
  str_all p ds = true -> starts_with p r = false ->
  span p (ds +:+ r) = (ds, r).
Proof.
  intros Hds Hr. induction ds as [| c ds IH].
  - rewrite append_nil_l. destruct r as [| c r]; [reflexivity |].
    simpl in Hr |- *. rewrite Hr. reflexivity.
  - rewrite append_cons. simpl in Hds |- *.
    apply andb_true_iff in Hds as [Hc Hds]. rewrite Hc, (IH Hds). reflexivity.
Qed.

Lemma digits1_app ds r :
  str_all is_digit ds = true -> ds <> "" -> starts_with is_digit r = false ->
  digits1 (ds +:+ r) = Some (ds, r).
Proof.
  intros Hds Hne Hr. unfold digits1. rewrite (span_app _ _ _ Hds Hr).
  destruct ds; [congruence | reflexivity].
Qed.

Definition is_blank (c : ascii) : bool := Ascii.eqb c " ".

Lemma skip_spaces_spaces n r :
  starts_with is_blank r = false -> skip_spaces (spaces n +:+ r) = r.
Proof.
  intros Hr. induction n as [| n IH].
  - rewrite append_nil_l. destruct r as [| c r]; [reflexivity |].
    change (is_blank c = false) in Hr.
    change ((if is_blank c then skip_spaces r else String c r) = String c r).
    rewrite Hr. reflexivity.
  - exact IH.
Qed.

Lemma eat_app lit r : eat lit (lit +:+ r) = Some r.
Proof.
  induction lit as [| c lit IH]; [destruct r; reflexivity |].
  rewrite append_cons. simpl. rewrite Ascii.eqb_refl. exact IH.
Qed.

Lemma int_of_digits_aux_app a ds1 ds2 :
  int_of_digits_aux a (ds1 +:+ ds2)
  = int_of_digits_aux (int_of_digits_aux a ds1) ds2.
Proof.
  revert a. induction ds1 as [| c ds1 IH]; intros a; [reflexivity |].
  rewrite append_cons. simpl. apply IH.
Qed.

Lemma int_of_digits_aux_nonneg a ds :
  str_all is_digit ds = true -> 0 <= a -> 0 <= int_of_digits_aux a ds.
Proof.
  revert a. induction ds as [| c ds IH]; intros a Hds Ha; simpl in *; [exact Ha |].
  apply andb_true_iff in Hds as [Hc Hds]. apply IH; [exact Hds |].
  unfold is_digit in Hc. apply andb_true_iff in Hc as [Hlo _].
  apply N.leb_le in Hlo. lia.
Qed.

Lemma pretty_N_char_value x :
  (x < 10)%N ->
  is_digit (pretty_N_char x) = true
  /\ Z.of_N (N_of_ascii (pretty_N_char x)) - 48 = Z.of_N x.
Proof.
  intros Hx.
  assert (Hcases : (x = 0 \/ x = 1 \/ x = 2 \/ x = 3 \/ x = 4 \/ x = 5 \/ x = 6
                    \/ x = 7 \/ x = 8 \/ x = 9)%N) by lia.
  repeat (destruct Hcases as [-> | Hcases]; [split; reflexivity |]).
  subst. split; reflexivity.
Qed.

(** The digits [pretty_N_go] puts in front of its accumulator. *)
Lemma pretty_N_go_digits (x : N) :
  exists ds,
    str_all is_digit ds = true
    /\ (forall s, pretty_N_go x s = ds +:+ s)
    /\ (forall a, int_of_digits_aux a ds
                  = a * 10 ^ Z.of_nat (String.length ds) + Z.of_N x)
    /\ ((0 < x)%N -> ds <> "").
Proof.
  induction (N.lt_wf_0 x) as [x _ IH].
  destruct (N.eq_dec x 0%N) as [-> | Hx].
  - exists "". repeat split; try reflexivity.
    + intros a. simpl. lia.
    + intros H0. lia.
  - assert (Hpos : (0 < x)%N) by lia.
    destruct (IH (x `div` 10)%N) as (ds & Hds & Happ & Hval & _).
    { apply N.div_lt; lia. }
    destruct (pretty_N_char_value (x `mod` 10)%N) as [Hc Hcv].
    { apply N.mod_lt. lia. }
    exists (ds +:+ String (pretty_N_char (x `mod` 10)) "").
    split; [| split; [| split]].
    + rewrite str_all_app, Hds. simpl. rewrite Hc. reflexivity.
    + intros s. rewrite (pretty_N_go_step x s Hpos), Happ, append_assoc.
      reflexivity.
    + intros a. rewrite int_of_digits_aux_app, Hval. simpl. rewrite Hcv.
      rewrite length_append. simpl String.length.
      replace (Z.of_nat (String.length ds + 1)) with (Z.of_nat (String.length ds) + 1)
        by lia.
      rewrite Z.pow_add_r by lia.
      pose proof (N.div_mod x 10 ltac:(lia)) as Hdm.
      assert (Hz : Z.of_N x = 10 * Z.of_N (x `div` 10) + Z.of_N (x `mod` 10)).
      { rewrite Hdm at 1. lia. }
      rewrite Hz. ring.
    + intros _. destruct ds; discriminate.
Qed.

(** A natural number prints as a non-empty string of digits that reads
    back as the number. *)
Lemma pretty_digits (n : Z) :
  0 <= n ->
  str_all is_digit (pretty n) = true
  /\ pretty n <> ""
  /\ int_of_digits (pretty n) = n.
Proof.
  intros Hn. destruct n as [| p | p]; [repeat split; discriminate | | lia].
  destruct (pretty_N_go_digits (N.pos p)) as (ds & Hds & Happ & Hval & Hne).
  assert (Hp : pretty (Z.pos p) = ds).
  { change (pretty (Z.pos p)) with (pretty_N_go (N.pos p) "").
    rewrite Happ. apply append_nil_r. }
  rewrite Hp.
  split; [exact Hds |]. split; [apply Hne; lia |].
  unfold int_of_digits. rewrite Hval. simpl. lia.
Qed.

(** ** Device paths and status lines *)

Lemma append_inj_l (p a b : string) : p +:+ a = p +:+ b -> a = b.
Proof.
  induction p as [| c p IH]; [intros Heq; exact Heq |].
  rewrite !append_cons. intros Heq. injection Heq as Heq. exact (IH Heq).
Qed.

(** X1. [_DevPath] gives distinct minors distinct device paths: two
    minors have the same path [/dev/drbd<minor>] only when they are the
    same minor, negative numbers included. *)
Theorem _DevPath_inj (m1 m2 : Z) : _DevPath m1 = _DevPath m2 <-> m1 = m2.
Proof.
  split; [| intros ->; reflexivity].
  unfold _DevPath. intros Heq. apply append_inj_l in Heq.
  exact (pretty_Z_inj _ _ Heq).
Qed.

(** A status line of /proc/drbd as the kernel prints it: the minor,
    right-aligned, its connection state and the other fields. *)
Definition status_line (pad : nat) (m : Z) (state rest : string) : string :=
  spaces pad +:+ (pretty m +:+ (": cs:" +:+ (state +:+ rest))).

(** A connection state is a non-empty word without blanks; the fields
    after it, if any, start with a blank. *)
Definition is_state (state : string) : bool :=
  str_all (fun c => negb (is_blank c)) state && negb (String.eqb state "").
Definition is_rest (rest : string) : bool :=
  match rest with
  | EmptyString => true
  | String c _ => is_blank c
  end.

Lemma digit_not_blank c : is_digit c = true -> is_blank c = false.
Proof. destruct c as [[] [] [] [] [] [] [] []]; intros Hc; try reflexivity; discriminate. Qed.

Lemma starts_with_digits_blank ds r :
  str_all is_digit ds = true -> ds <> "" ->
  starts_with is_blank (ds +:+ r) = false.
Proof.
  intros Hds Hne. destruct ds as [| c ds]; [congruence |].
  rewrite append_cons. simpl in Hds |- *.
  apply andb_true_iff in Hds as [Hc _]. apply digit_not_blank, Hc.
Qed.

(** The minor of a status line, as the three patterns read it. *)
Lemma status_line_minor pad m state rest :
  0 <= m ->
  digits1 (skip_spaces (status_line pad m state rest))
  = Some (pretty m, ": cs:" +:+ (state +:+ rest)).
Proof.
  intros Hm. destruct (pretty_digits m Hm) as (Hds & Hne & _).
  unfold status_line. rewrite skip_spaces_spaces.
  - apply digits1_app; [exact Hds | exact Hne | reflexivity].
  - apply starts_with_digits_blank; assumption.
Qed.

Lemma span_state state rest :
  is_state state = true -> is_rest rest = true ->
  span (fun c => negb (Ascii.eqb c " ")) (state +:+ rest) = (state, rest).
Proof.
  unfold is_state. intros Hst Hrest. apply andb_true_iff in Hst as [Hst _].
  apply span_app; [exact Hst |].
  destruct rest as [| c r]; [reflexivity |].
  simpl in Hrest. unfold is_blank in Hrest. cbn [starts_with]. rewrite Hrest.
  reflexivity.
Qed.

Lemma valid_line_status pad m state rest :
  0 <= m -> is_state state = true -> is_rest rest = true ->
  valid_line (status_line pad m state rest) = Some (pretty m, state).
Proof.
  intros Hm Hst Hrest. unfold valid_line.
  rewrite (status_line_minor pad m state rest Hm). cbn -[eat span String.eqb].
  rewrite (eat_app ": cs:"). cbn -[eat span String.eqb].
  rewrite (span_state _ _ Hst Hrest).
  unfold is_state in Hst. apply andb_true_iff in Hst as [_ Hne].
  destruct (String.eqb state ""); [discriminate | reflexivity].
Qed.

Lemma used_line_status pad m state rest :
  0 <= m -> used_line (status_line pad m state rest) = Some (pretty m).
Proof.
  intros Hm. unfold used_line.
  rewrite (status_line_minor pad m state rest Hm). cbn -[eat].
  rewrite (eat_app ": cs:"). reflexivity.
Qed.

Lemma eat_inv lit s r : eat lit s = Some r -> s = lit +:+ r.
Proof.
  revert s. induction lit as [| a l IH]; intros s Heat.
  - simpl in Heat. injection Heat as ->. reflexivity.
  - destruct s as [| c s]; [discriminate |]. simpl in Heat.
    destruct (Ascii.eqb a c) eqn:Hac; [| discriminate].
    apply Ascii.eqb_eq in Hac as ->. rewrite append_cons.
    f_equal. exact (IH _ Heat).
Qed.

Lemma eat_append a b s :
  eat (a +:+ b) s = match eat a s with Some r => eat b r | None => None end.
Proof.
  revert s. induction a as [| c a IH]; intros s; [reflexivity |].
  rewrite append_cons. destruct s as [| c' s]; [reflexivity |]. simpl.
  destruct (Ascii.eqb c c'); [apply IH | reflexivity].
Qed.

Lemma span_digits s d r : span is_digit s = (d, r) -> str_all is_digit d = true.
Proof.
  revert d r. induction s as [| c s IH]; intros d r Hs; simpl in Hs.
  - injection Hs as <- <-. reflexivity.
  - destruct (is_digit c) eqn:Hc.
    + destruct (span is_digit s) as [a b]. injection Hs as <- <-.
      simpl. rewrite Hc. exact (IH _ _ eq_refl).
    + injection Hs as <- <-. reflexivity.
Qed.

Lemma digits1_digits s d r : digits1 s = Some (d, r) -> str_all is_digit d = true.
Proof.
  unfold digits1. destruct (span is_digit s) as [a b] eqn:Hs.
  destruct (String.eqb a ""); [discriminate |].
  intros Heq. injection Heq as <- <-. exact (span_digits _ _ _ Hs).
Qed.

Lemma int_of_digits_nonneg d : str_all is_digit d = true -> 0 <= int_of_digits d.
Proof. intros Hd. apply int_of_digits_aux_nonneg; [exact Hd | lia]. Qed.

(** The three patterns of the status lines agree on the minor. *)
Lemma valid_line_used line d state :
  valid_line line = Some (d, state) -> used_line line = Some d.
Proof.
  unfold valid_line, used_line.
  destruct (digits1 (skip_spaces line)) as [[d0 r] |]; [| discriminate].
  cbn -[eat span String.eqb].
  destruct (eat ": cs:" r) as [r' |]; [| discriminate].
  cbn -[eat span String.eqb].
  destruct (span _ r') as [st rest]. destruct (String.eqb st ""); [discriminate |].
  intros Heq. injection Heq as -> _. reflexivity.
Qed.

Lemma unused_line_valid line d :
  unused_line line = Some d -> valid_line line = Some (d, _ST_UNCONFIGURED).
Proof.
  unfold valid_line, unused_line.
  destruct (digits1 (skip_spaces line)) as [[d0 r] |]; [| discriminate].
  cbn -[eat span String.eqb].
  change ": cs:Unconfigured" with (": cs:" +:+ "Unconfigured").
  rewrite eat_append.
  destruct (eat ": cs:" r) as [r' |]; [| discriminate].
  cbn -[eat span String.eqb].
  destruct (eat "Unconfigured" r') as [r'' |] eqn:Heat; [| discriminate].
  cbn -[eat span String.eqb].
  destruct (String.eqb r'' "") eqn:Hr; [| discriminate].
  apply String.eqb_eq in Hr as ->. apply eat_inv in Heat as ->.
  intros Heq. injection Heq as ->. reflexivity.
Qed.

Lemma used_line_nonneg line d : used_line line = Some d -> 0 <= int_of_digits d.
Proof.
  unfold used_line.
  destruct (digits1 (skip_spaces line)) as [[d0 r] |] eqn:Hd; [| discriminate].
  cbn -[eat]. destruct (eat ": cs:" r); [| discriminate].
  intros Heq. injection Heq as <-.
  exact (int_of_digits_nonneg _ (digits1_digits _ _ _ Hd)).
Qed.

(** ** The used minors *)

(** A line of the status file that shows minor [m] in state [state],
    which is not the unconfigured one. *)
Definition configured (line : string) (m : Z) (state : string) : Prop :=
  exists d, valid_line line = Some (d, state) /\ int_of_digits d = m
            /\ state <> _ST_UNCONFIGURED.

Lemma used_devs_scan_lookup data acc m state line :
  used_devs_scan data acc !! m = Some (state, line) ->
  acc !! m = Some (state, line) \/ (line ∈ data /\ configured line m state).
Proof.
  revert acc. induction data as [| l data IH]; intros acc Hl; [left; exact Hl |].
  cbn [used_devs_scan] in Hl.
  destruct (valid_line l) as [[d st] |] eqn:Hv.
  - destruct (String.eqb st _ST_UNCONFIGURED) eqn:Hst.
    + destruct (IH _ Hl) as [Ha | [Hin Hc]]; [left; exact Ha |].
      right. split; [apply elem_of_cons; right; exact Hin | exact Hc].
    + destruct (IH _ Hl) as [Ha | [Hin Hc]].
      * destruct (decide (int_of_digits d = m)) as [Hm | Hm].
        -- subst m. rewrite lookup_insert_eq in Ha. injection Ha as <- <-.
           right. split; [apply elem_of_cons; left; reflexivity |].
           exists d. split; [exact Hv |]. split; [reflexivity |].
           apply String.eqb_neq, Hst.
        -- rewrite lookup_insert_ne in Ha by exact Hm. left. exact Ha.
      * right. split; [apply elem_of_cons; right; exact Hin | exact Hc].
  - destruct (IH _ Hl) as [Ha | [Hin Hc]]; [left; exact Ha |].
    right. split; [apply elem_of_cons; right; exact Hin | exact Hc].
Qed.

Lemma used_devs_scan_keeps data acc m :
  is_Some (acc !! m) -> is_Some (used_devs_scan data acc !! m).
Proof.
  revert acc. induction data as [| l data IH]; intros acc Hs; [exact Hs |].
  cbn [used_devs_scan]. destruct (valid_line l) as [[d st] |]; [| apply IH, Hs].
  destruct (String.eqb st _ST_UNCONFIGURED); [apply IH, Hs |].
  apply IH. destruct (decide (int_of_digits d = m)) as [<- | Hm].
  - rewrite lookup_insert_eq. eexists. reflexivity.
  - rewrite lookup_insert_ne by exact Hm. exact Hs.
Qed.

Lemma used_devs_scan_lists data acc m state line :
  line ∈ data -> configured line m state ->
  is_Some (used_devs_scan data acc !! m).
Proof.
  revert acc. induction data as [| l data IH]; intros acc Hin Hc.
  - apply elem_of_nil in Hin. destruct Hin.
  - apply elem_of_cons in Hin as [-> | Hin].
    + destruct Hc as (d & Hv & Hm & Hst). cbn [used_devs_scan]. rewrite Hv.
      apply String.eqb_neq in Hst. rewrite Hst.
      apply used_devs_scan_keeps. subst m. rewrite lookup_insert_eq.
      eexists. reflexivity.
    + cbn [used_devs_scan]. destruct (valid_line l) as [[d st] |]; [| apply IH; assumption].
      destruct (String.eqb st _ST_UNCONFIGURED); apply IH; assumption.
Qed.

Section UsedDevs.
Context `{Env}.

Lemma _GetProcData_inv s data s' :
  _GetProcData s = (Ret data, s') ->
  s' = s /\ data = splitlines (proc_drbd (world s)) /\ data <> [].
Proof.
  unfold _GetProcData, bind, read_proc_drbd.
  destruct (splitlines (proc_drbd (world s))) as [| l ls] eqn:Hd.
  - unfold raise. intros Heq. discriminate.
  - unfold ret. intros Heq. injection Heq as <- <-.
    split; [reflexivity |]. split; [reflexivity | discriminate].
Qed.

Lemma _GetProcData_ret s :
  splitlines (proc_drbd (world s)) <> [] ->
  _GetProcData s = (Ret (splitlines (proc_drbd (world s))), s).
Proof.
  unfold _GetProcData, bind, read_proc_drbd. intros Hne.
  destruct (splitlines (proc_drbd (world s))) as [| l ls]; [congruence | reflexivity].
Qed.

Lemma _GetUsedDevs_inv s used s' :
  _GetUsedDevs s = (Ret used, s') ->
  s' = s /\ used = used_devs_scan (splitlines (proc_drbd (world s))) ∅.
Proof.
  unfold _GetUsedDevs, bind. destruct (_GetProcData s) as [[data | e |] s1] eqn:Hp;
    try discriminate.
  apply _GetProcData_inv in Hp as (-> & -> & _).
  unfold ret. intros Heq. injection Heq as <- <-. split; reflexivity.
Qed.

(** X2. [_GetUsedDevs] lists exactly the minors that some line of
    /proc/drbd shows in a state other than [Unconfigured]: every entry
    maps a minor to the state and the text of such a line of the file,
    every such line has its minor listed, and nothing is run or
    changed. *)
Theorem _GetUsedDevs_entries s used s' :
  _GetUsedDevs s = (Ret used, s') ->
  s' = s
  /\ (forall m state line, used !! m = Some (state, line) ->
        line ∈ splitlines (proc_drbd (world s)) /\ configured line m state)
  /\ (forall m state line, line ∈ splitlines (proc_drbd (world s)) ->
        configured line m state -> is_Some (used !! m)).
Proof.
  intros Hget. apply _GetUsedDevs_inv in Hget as (-> & ->).
  split; [reflexivity |]. split.
  - intros m state line Hl. apply used_devs_scan_lookup in Hl as [Hl | Hl].
    + rewrite lookup_empty in Hl. discriminate.
    + exact Hl.
  - intros m state line Hin Hc. exact (used_devs_scan_lists _ _ _ _ _ Hin Hc).
Qed.

End UsedDevs.

(** A node with two mirrors up and one minor left unconfigured. *)
Definition three_minors : string :=
  file_text ["version: 8.0.12 (api:86/proto:86)";
             " 0: cs:Connected st:Primary/Secondary ds:UpToDate/UpToDate C r---";
             " 1: cs:Unconfigured";
             " 2: cs:WFConnection st:Secondary/Unknown ds:UpToDate/DUnknown C r---"].

Lemma _GetUsedDevs_entries_witness :
  let s := Sim.start (Sim.mkWorld three_minors [] [] 0) in
  let used := used_devs_scan (splitlines three_minors) ∅ in
  s = s
  /\ (forall m state line, used !! m = Some (state, line) ->
        line ∈ splitlines (proc_drbd (world s)) /\ configured line m state)
  /\ (forall m state line, line ∈ splitlines (proc_drbd (world s)) ->
        configured line m state -> is_Some (used !! m)).
Proof.
  exact (_GetUsedDevs_entries (Sim.start (Sim.mkWorld three_minors [] [] 0))
           (used_devs_scan (splitlines three_minors) ∅) _ eq_refl).
Defined.

(** ** The allocated minor is a free one *)

Lemma find_unused_scan_fresh data highest n :
  (forall h, highest = Some h -> 0 <= h) ->
  find_unused_scan data highest = Ret n ->
  (exists line d, line ∈ data /\ unused_line line = Some d /\ int_of_digits d = n)
  \/ ((forall line d, line ∈ data -> used_line line = Some d -> int_of_digits d < n)
      /\ (forall h, highest = Some h -> h < n) /\ 0 <= n <= _MAX_MINORS).
Proof.
  revert highest. induction data as [| l data IH]; intros highest Hpos Hf.
  - right. split; [intros line d Hin; apply elem_of_nil in Hin; destruct Hin |].
    cbn [find_unused_scan] in Hf. destruct highest as [h |].
    + destruct (Z.leb_spec _MAX_MINORS h); [discriminate |].
      injection Hf as <-. specialize (Hpos _ eq_refl).
      split; [intros h' Heq; injection Heq as <-; lia | lia].
    + injection Hf as <-.
      split; [intros h' Heq; discriminate |]. unfold _MAX_MINORS. lia.
  - cbn [find_unused_scan] in Hf. destruct (unused_line l) as [d |] eqn:Hu.
    + injection Hf as <-. left. exists l, d.
      split; [apply elem_of_cons; left; reflexivity |]. split; [exact Hu | reflexivity].
    + destruct (used_line l) as [d |] eqn:Hd.
      * pose proof (used_line_nonneg _ _ Hd) as Hd0.
        assert (Hpos' : forall h, Some (max_highest highest (int_of_digits d)) = Some h
                                  -> 0 <= h).
        { intros h Heq. injection Heq as <-. unfold max_highest.
          destruct highest as [h' |]; [rewrite py_max_Zmax; lia | exact Hd0]. }
        destruct (IH _ Hpos' Hf) as [(line & d' & Hin & Hl & Hn) | (Hall & Hh & Hn)].
        -- left. exists line, d'. split; [apply elem_of_cons; right; exact Hin |].
           split; assumption.
        -- specialize (Hh _ eq_refl). right.
           assert (Hmax : int_of_digits d < n /\ forall h, highest = Some h -> h < n).
           { unfold max_highest in Hh. destruct highest as [h |].
             - rewrite py_max_Zmax in Hh. split; [lia |].
               intros h' Heq. injection Heq as <-. lia.
             - split; [exact Hh | intros h' Heq; discriminate]. }
           destruct Hmax as [Hdn Hhn]. split; [| split; assumption].
           intros line d' Hin Hl. apply elem_of_cons in Hin as [-> | Hin].
           ++ rewrite Hd in Hl. injection Hl as <-. exact Hdn.
           ++ exact (Hall _ _ Hin Hl).
      * destruct (IH _ Hpos Hf) as [(line & d' & Hin & Hl & Hn) | (Hall & Hh & Hn)].
        -- left. exists line, d'. split; [apply elem_of_cons; right; exact Hin |].
           split; assumption.
        -- right. split; [| split; assumption].
           intros line d' Hin Hl. apply elem_of_cons in Hin as [-> | Hin].
           ++ rewrite Hd in Hl. discriminate.
           ++ exact (Hall _ _ Hin Hl).
Qed.

(** No two lines of the file show the same minor. *)
Definition minors_distinct (data : list string) : Prop :=
  NoDup (minors_seen data).

Lemma minors_seen_elem data line d :
  line ∈ data -> used_line line = Some d -> int_of_digits d ∈ minors_seen data.
Proof.
  intros Hin Hu. unfold minors_seen. apply list_elem_of_omap.
  exists line. split; [exact Hin |]. rewrite Hu. reflexivity.
Qed.

Lemma minors_distinct_lines data l1 l2 d1 d2 :
  minors_distinct data -> l1 ∈ data -> l2 ∈ data ->
  used_line l1 = Some d1 -> used_line l2 = Some d2 ->
  int_of_digits d1 = int_of_digits d2 -> l1 = l2.
Proof.
  unfold minors_distinct. induction data as [| l data IH];
    intros Hnd H1 H2 Hu1 Hu2 Heq.
  - apply elem_of_nil in H1. destruct H1.
  - unfold minors_seen in Hnd. cbn [omap list_omap] in Hnd.
    fold (minors_seen data) in Hnd.
    apply elem_of_cons in H1 as [-> | H1]; apply elem_of_cons in H2 as [-> | H2].
    + reflexivity.
    + exfalso. rewrite Hu1 in Hnd. cbn [fmap option_fmap option_map] in Hnd.
      apply NoDup_cons in Hnd as [Hnin _]. apply Hnin. rewrite Heq.
      exact (minors_seen_elem _ _ _ H2 Hu2).
    + exfalso. rewrite Hu2 in Hnd. cbn [fmap option_fmap option_map] in Hnd.
      apply NoDup_cons in Hnd as [Hnin _]. apply Hnin. rewrite <- Heq.
      exact (minors_seen_elem _ _ _ H1 Hu1).
    + apply IH; try assumption.
      destruct (int_of_digits <$> used_line l); [| exact Hnd].
      apply NoDup_cons in Hnd as [_ Hnd]. exact Hnd.
Qed.

Section FreeMinor.
Context `{Env}.

(** X3. The minor [_FindUnusedMinor] hands out is not in use: when no
    two lines of /proc/drbd show the same minor, the minor it returns
    is non-negative and is not a key of what [_GetUsedDevs] returns on
    the same file. It is at most 255 unless it was read off an
    [Unconfigured] line, for which the bound is not checked. *)
Theorem _FindUnusedMinor_not_used s n s' :
  minors_distinct (splitlines (proc_drbd (world s))) ->
  _FindUnusedMinor s = (Ret n, s') ->
  s' = s /\ 0 <= n
  /\ (n <= _MAX_MINORS
      \/ exists line d, line ∈ splitlines (proc_drbd (world s))
                        /\ unused_line line = Some d /\ int_of_digits d = n)
  /\ exists used, _GetUsedDevs s = (Ret used, s) /\ used !! n = None.
Proof.
  intros Hdist. unfold _FindUnusedMinor, bind.
  destruct (_GetProcData s) as [[data | e |] s1] eqn:Hp; try discriminate.
  pose proof Hp as Hp'. apply _GetProcData_inv in Hp' as (-> & Hdata & Hne).
  unfold lift_res. intros Heq. injection Heq as Hscan <-.
  split; [reflexivity |].
  apply find_unused_scan_fresh in Hscan; [| intros h Heq; discriminate].
  assert (Hget : _GetUsedDevs s = (Ret (used_devs_scan data ∅), s)).
  { unfold _GetUsedDevs, bind. rewrite Hp. reflexivity. }
  rewrite <- Hdata in *.
  destruct Hscan as [(line & d & Hin & Hu & Hn) | (Hall & _ & Hn)].
  - split; [subst n; apply (used_line_nonneg line), valid_line_used with _ST_UNCONFIGURED,
                     unused_line_valid, Hu |].
    split; [right; exists line, d; split; [exact Hin | split; [exact Hu | exact Hn]] |].
    exists (used_devs_scan data ∅). split; [exact Hget |].
    destruct (used_devs_scan data ∅ !! n) as [[state l2] |] eqn:Hl; [| reflexivity].
    exfalso. apply used_devs_scan_lookup in Hl as [Hl | [Hin2 (d2 & Hv2 & Hm2 & Hst2)]].
    + rewrite lookup_empty in Hl. discriminate.
    + pose proof (unused_line_valid _ _ Hu) as Hv.
      assert (l2 = line).
      { apply (minors_distinct_lines _ l2 line d2 d Hdist Hin2 Hin
                 (valid_line_used _ _ _ Hv2) (valid_line_used _ _ _ Hv)).
        congruence. }
      subst l2. rewrite Hv in Hv2. injection Hv2 as _ Hst. congruence.
  - split; [lia |]. split; [left; lia |].
    exists (used_devs_scan data ∅). split; [exact Hget |].
    destruct (used_devs_scan data ∅ !! n) as [[state l2] |] eqn:Hl; [| reflexivity].
    exfalso. apply used_devs_scan_lookup in Hl as [Hl | [Hin2 (d2 & Hv2 & Hm2 & Hst2)]].
    + rewrite lookup_empty in Hl. discriminate.
    + pose proof (Hall _ _ Hin2 (valid_line_used _ _ _ Hv2)). lia.
Qed.

End FreeMinor.

Lemma three_minors_distinct : minors_distinct (splitlines three_minors).
Proof.
  unfold minors_distinct.
  change (minors_seen (splitlines three_minors)) with [0; 1; 2].
  apply (bool_decide_unpack _). reflexivity.
Qed.

Lemma _FindUnusedMinor_not_used_witness :
  let s := Sim.start (Sim.mkWorld three_minors [] [] 0) in
  s = s /\ 0 <= 1
  /\ (1 <= _MAX_MINORS
      \/ exists line d, line ∈ splitlines (proc_drbd (world s))
                        /\ unused_line line = Some d /\ int_of_digits d = 1)
  /\ exists used, _GetUsedDevs s = (Ret used, s) /\ used !! 1 = None.
Proof.
  exact (_FindUnusedMinor_not_used (Sim.start (Sim.mkWorld three_minors [] [] 0))
           1 _ three_minors_distinct eq_refl).
Defined.

(** ** The default Assemble: success, and errors that are not rolled back *)

Section AssembleOutcome.
Context `{Env}.
Variable child_Assemble : Meth bool.
Variable child_Open : Meth (option bool).
Variable child_Shutdown : Meth bool.

Lemma assemble_children_true done todo s cs s' :
  assemble_children child_Assemble child_Open child_Shutdown done todo s
  = (Ret true, cs, s') ->
  exists cs', cs = done ++ cs'
              /\ brought_up child_Assemble child_Open todo s cs' s'.
Proof.
  revert done s. induction todo as [| c rest IH]; intros done s Ha.
  - cbn [assemble_children] in Ha. injection Ha as <- <-.
    exists []. split; [rewrite app_nil_r; reflexivity | constructor].
  - cbn [assemble_children] in Ha.
    destruct (child_Assemble c s) as [[[status | e |] c1] s1] eqn:Hc;
      try discriminate.
    destruct status; cbn [negb] in Ha; [| discriminate].
    destruct (child_Open c1 s1) as [[[o | e |] c2] s2] eqn:Ho; try discriminate.
    + destruct (IH _ _ Ha) as (cs' & -> & Hup).
      exists (c2 :: cs'). split; [rewrite <- app_assoc; reflexivity |].
      econstructor; eassumption.
    + destruct e; try discriminate.
      destruct (shutdown_children child_Shutdown [] (done ++ c2 :: rest) s2)
        as [[[u | e |] cs3] s3]; discriminate.
Qed.

End AssembleOutcome.

(** X4. The default [Assemble] returns true exactly when every child,
    taken in list order, was assembled (its [Assemble] returned true)
    and then opened; the state it ends in is the one the last [Open]
    left, so no [Shutdown] has been called, and only the child list of
    the device is replaced by the children as these calls left them. *)
Theorem BlockDev_Assemble_true :
  forall (E : Env) (child_Assemble : Meth bool) (child_Open : Meth (option bool))
         (child_Shutdown : Meth bool) (d : BlockDev) (s : St) (d' : BlockDev)
         (s' : St),
    BlockDev_Assemble child_Assemble child_Open child_Shutdown d s
    = (Ret true, d', s')
    <-> exists cs', brought_up child_Assemble child_Open (_children d) s cs' s'
                    /\ d' = set_children d cs'.
Proof.
  intros E cA cO cS d s d' s'. unfold BlockDev_Assemble. split.
  - destruct (assemble_children cA cO cS [] (_children d) s)
      as [[[status | e |] cs] s1] eqn:Ha; try discriminate.
    destruct status; cbn [negb].
    + intros Heq. injection Heq as <- <-.
      apply assemble_children_true in Ha as (cs' & -> & Hup).
      exists cs'. split; [exact Hup | reflexivity].
    + destruct (shutdown_children cS [] cs s1) as [[[u | e |] cs'] s2];
        discriminate.
  - intros (cs' & Hup & ->).
    pose proof (assemble_children_brought_up cA cO cS _ [] [] _ _ _ Hup) as Heq.
    rewrite app_nil_r in Heq. rewrite Heq. reflexivity.
Qed.

(** X5. In the default [Assemble] only a [BlockDeviceError] of a
    child's [Open], and a child's [Assemble] that returns false, are
    followed by the shutdown of the children. When the children before
    the i-th were brought up and the [Assemble] of the i-th raises (any
    exception), or its [Open] raises something else than
    [BlockDeviceError], the exception leaves the method at once: the
    final state is the one the failing call left, so no [Shutdown] has
    run and the children before stay assembled and open. *)
Theorem BlockDev_Assemble_raise_no_rollback :
  forall (E : Env) (child_Assemble : Meth bool) (child_Open : Meth (option bool))
         (child_Shutdown : Meth bool) (d : BlockDev)
         (pre : list BlockDev) (child : BlockDev) (post : list BlockDev)
         (s : St) (pre' : list BlockDev) (s1 : St) (e : Exc)
         (c1 : BlockDev) (s2 : St),
    _children d = pre ++ child :: post ->
    brought_up child_Assemble child_Open pre s pre' s1 ->
    child_raises child_Assemble child_Open child s1 e c1 s2 ->
    BlockDev_Assemble child_Assemble child_Open child_Shutdown d s
    = (Raise e, set_children d (pre' ++ c1 :: post), s2).
Proof.
  intros E cA cO cS d pre child post s pre' s1 e c1 s2 Hch Hup Hfail.
  exact (BlockDev_Assemble_raises cA cO cS d pre child post s pre' s1 e c1 s2
           Hch Hup Hfail).
Qed.

(** A mirror over a logical volume and a file device whose file is not
    there: the volume comes up, the file device raises. *)
Definition mirror_mixed : BlockDev :=
  mkDev (DRBD8 (VStr "10.0.0.1") (VInt 11000) (VStr "10.0.0.2") (VInt 11000))
        [VStr "10.0.0.1"; VInt 11000; VStr "10.0.0.2"; VInt 11000]
        [lv_dev "lv1" 0; file_dev "/srv/meta.img"]
        VNone (Some 147) None.

Definition lv1_up : @St Sim.sim_env :=
  @mkSt Sim.sim_env rollback_scenario
        [map VStr ["lvchange"; "-ay"; "/dev/vg0/lv1"]].

Lemma BlockDev_Assemble_raise_no_rollback_witness :
  BlockDev_Assemble Assemble (Open false) Shutdown mirror_mixed
                    (Sim.start rollback_scenario)
  = (Raise (BlockDeviceError "File device '%s' does not exist."),
     set_children mirror_mixed ([lv_dev "lv1" 0] ++ file_dev "/srv/meta.img" :: []),
     lv1_up).
Proof.
  apply (BlockDev_Assemble_raise_no_rollback Sim.sim_env Assemble (Open false)
           Shutdown mirror_mixed [lv_dev "lv1" 0] (file_dev "/srv/meta.img") []
           (Sim.start rollback_scenario) [lv_dev "lv1" 0] lv1_up).
  - reflexivity.
  - eapply bu_cons; [reflexivity | reflexivity | apply bu_nil].
  - apply cr_assemble. reflexivity.
Defined.

(** ** Coherence of the sync status *)

(** A status [(sync_percent, estimated_time, is_degraded, ldisk)] is
    coherent when a failed local disk counts as degraded and the
    percentage and the estimated time are present together. *)
Definition coherent (st : SyncStatus) : bool :=
  let '(percent, time, is_degraded, ldisk) := st in
  implb ldisk is_degraded
  && bool_decide (is_Some percent <-> is_Some time).

Lemma combine_status_coherent acc c :
  coherent acc = true -> coherent c = true ->
  coherent (combine_status acc c) = true.
Proof.
  destruct acc as [[[p t] deg] ld], c as [[[cp ct] cdeg] cld].
  unfold coherent, combine_status. intros Ha Hc.
  apply andb_true_iff in Ha as [Ha1 Ha2]. apply andb_true_iff in Hc as [Hc1 Hc2].
  apply bool_decide_eq_true in Ha2, Hc2.
  apply andb_true_iff. split.
  - destruct ld, deg, cld, cdeg; try reflexivity; discriminate.
  - apply bool_decide_eq_true.
    destruct p, t, cp, ct; split; intros Hs; try (eexists; reflexivity);
      try (apply Ha2 in Hs; exact Hs); try (apply Hc2 in Hs; exact Hs);
      try (exfalso; destruct Ha2 as [Ha2 Ha2']; first
             [ destruct Ha2 as [? Hx]; [eexists; reflexivity | discriminate]
             | destruct Ha2' as [? Hx]; [eexists; reflexivity | discriminate] ]);
      try (exfalso; destruct Hc2 as [Hc2 Hc2']; first
             [ destruct Hc2 as [? Hx]; [eexists; reflexivity | discriminate]
             | destruct Hc2' as [? Hx]; [eexists; reflexivity | discriminate] ]).
Qed.

Section Coherence.
Context `{Env}.

Lemma GetSyncStatus_coherent d s st d' s' :
  GetSyncStatus d s = (Ret st, d', s') -> coherent st = true.
Proof.
  unfold GetSyncStatus. destruct (cls d).
  - unfold LogicalVolume_GetSyncStatus.
    destruct (RunCmd _ s) as [[result | e |] s1]; try discriminate.
    destruct (failed result); [intros Heq; injection Heq as <- _ _; reflexivity |].
    destruct (negb _); [intros Heq; injection Heq as <- _ _; reflexivity |].
    intros Heq. injection Heq as <- _ _.
    destruct (match strip (stdout result) with
              | EmptyString => false | String c _ => Ascii.eqb c "v" end);
      reflexivity.
  - unfold DRBD8_GetSyncStatus, mbind.
    destruct (not_attached d s) as [[[na | e |] d1] s1]; try discriminate.
    destruct na; [discriminate |].
    unfold lift. destruct (_GetProcData s1) as [[data | e |] s2]; try discriminate.
    unfold self. destruct (minor d1) as [m |]; [| discriminate].
    destruct (_MassageProcData data !! m) as [line |]; [| discriminate].
    unfold lift_res.
    destruct (find_last synced_match line) as [[p [[hh mm] ss]] |].
    + destruct (py_float p) as [q |]; [| discriminate].
      destruct (state_match line) as [[cs ds] |]; [| discriminate].
      unfold mret. intros Heq. injection Heq as <- _ _. cbn [fst snd].
      unfold coherent. apply andb_true_iff. split.
      * destruct (negb (String.eqb ds "UpToDate")), (negb (String.eqb cs "Connected"));
          reflexivity.
      * apply bool_decide_eq_true. split; intros _; eexists; reflexivity.
    + destruct (state_match line) as [[cs ds] |]; [| discriminate].
      unfold mret. intros Heq. injection Heq as <- _ _. cbn [fst snd].
      unfold coherent. apply andb_true_iff. split.
      * destruct (negb (String.eqb ds "UpToDate")), (negb (String.eqb cs "Connected"));
          reflexivity.
      * apply bool_decide_eq_true. split; intros [x Hx]; discriminate.
  - unfold BlockDev_GetSyncStatus, mret. intros Heq. injection Heq as <- _ _.
    reflexivity.
Qed.

Lemma combine_children_coherent done todo acc s st cs s' :
  coherent acc = true ->
  combine_children GetSyncStatus done todo acc s = (Ret st, cs, s') ->
  coherent st = true.
Proof.
  revert done acc s. induction todo as [| c rest IH]; intros done acc s Hacc Hc.
  - cbn [combine_children] in Hc. injection Hc as <- _ _. exact Hacc.
  - cbn [combine_children] in Hc.
    destruct (GetSyncStatus c s) as [[[stc | e |] c'] s1] eqn:Hg; try discriminate.
    apply (IH _ _ _ (combine_status_coherent _ _ Hacc (GetSyncStatus_coherent _ _ _ _ _ Hg)) Hc).
Qed.

(** X6. Every status that [GetSyncStatus] of one of the three drivers
    returns, and every status that [CombinedSyncStatus] computes from
    them, is coherent: a failed local disk is always reported as
    degraded, and the sync percentage is present exactly when the
    estimated time is. *)
Theorem CombinedSyncStatus_coherent d s st d' s' :
  CombinedSyncStatus GetSyncStatus d s = (Ret st, d', s') ->
  coherent st = true
  /\ forall c s0 stc c' s1, GetSyncStatus c s0 = (Ret stc, c', s1) ->
                            coherent stc = true.
Proof.
  intros Hc. split; [| intros c s0 stc c' s1; apply GetSyncStatus_coherent].
  unfold CombinedSyncStatus in Hc.
  destruct (GetSyncStatus d s) as [[[own | e |] d1] s1] eqn:Hg; try discriminate.
  destruct (combine_children GetSyncStatus [] (_children d1) own s1)
    as [[r cs] s2] eqn:Hcc.
  injection Hc as -> _ _.
  exact (combine_children_coherent _ _ _ _ _ _ _
           (GetSyncStatus_coherent _ _ _ _ _ Hg) Hcc).
Qed.

End Coherence.

Lemma CombinedSyncStatus_coherent_witness :
  coherent (None, None, false, false) = true
  /\ forall c s0 stc c' s1,
       @GetSyncStatus Sim.sim_env c s0 = (Ret stc, c', s1) -> coherent stc = true.
Proof.
  apply (@CombinedSyncStatus_coherent Sim.sim_env outer_mirror
           (Sim.start stacked_scenario) (None, None, false, false)
           (CombinedSyncStatus GetSyncStatus outer_mirror
              (Sim.start stacked_scenario)).1.2
           (CombinedSyncStatus GetSyncStatus outer_mirror
              (Sim.start stacked_scenario)).2).
  reflexivity.
Defined.

(** ** Status lines are read back *)

Lemma str_all_nonblank_rest state rest :
  str_all (fun c => negb (is_blank c)) (state +:+ rest) = true ->
  is_rest rest = true -> rest = "".
Proof.
  rewrite str_all_app. intros Hall Hrest. apply andb_true_iff in Hall as [_ Hr].
  destruct rest as [| c r]; [reflexivity |]. simpl in Hr, Hrest.
  rewrite Hrest in Hr. discriminate.
Qed.

(** X7. The three patterns that [_GetUsedDevs] and [_FindUnusedMinor]
    apply to /proc/drbd read a status line back as it was printed: for
    every minor [m >= 0], whatever the padding, the state and the
    fields after it, the line [ m: cs:State ...] yields the minor [m]
    and the state [State], and it counts as free exactly when it is
    [ m: cs:Unconfigured] with nothing after it. *)
Theorem status_line_read pad m state rest :
  0 <= m -> is_state state = true -> is_rest rest = true ->
  valid_line (status_line pad m state rest) = Some (pretty m, state)
  /\ used_line (status_line pad m state rest) = Some (pretty m)
  /\ unused_line (status_line pad m state rest)
     = (if String.eqb state _ST_UNCONFIGURED && String.eqb rest ""
        then Some (pretty m) else None)
  /\ int_of_digits (pretty m) = m.
Proof.
  intros Hm Hst Hrest.
  split; [exact (valid_line_status pad m state rest Hm Hst Hrest) |].
  split; [exact (used_line_status pad m state rest Hm) |].
  split; [| exact (proj2 (proj2 (pretty_digits m Hm)))].
  unfold unused_line. rewrite (status_line_minor pad m state rest Hm).
  cbn -[eat String.eqb].
  change ": cs:Unconfigured" with (": cs:" +:+ "Unconfigured").
  rewrite eat_append, (eat_app ": cs:").
  destruct (String.eqb state _ST_UNCONFIGURED) eqn:Hs.
  - apply String.eqb_eq in Hs as ->. unfold _ST_UNCONFIGURED.
    rewrite (eat_app "Unconfigured"). cbn -[String.eqb].
    destruct (String.eqb rest ""); reflexivity.
  - cbn [andb].
    destruct (eat "Unconfigured" (state +:+ rest)) as [r' |] eqn:Heat;
      [| reflexivity].
    cbn -[String.eqb]. destruct (String.eqb r' "") eqn:Hr'; [| reflexivity].
    exfalso. apply String.eqb_eq in Hr' as ->. apply eat_inv in Heat.
    rewrite append_nil_r in Heat.
    assert (Hrest' : rest = "").
    { apply (str_all_nonblank_rest state); [rewrite Heat; reflexivity | exact Hrest]. }
    subst rest. rewrite append_nil_r in Heat. subst state. discriminate.
Qed.

Lemma status_line_read_witness :
  valid_line " 12: cs:WFConnection st:Secondary/Unknown"
  = Some ("12", "WFConnection")
  /\ used_line " 12: cs:WFConnection st:Secondary/Unknown" = Some "12"
  /\ unused_line " 12: cs:WFConnection st:Secondary/Unknown" = None
  /\ int_of_digits "12" = 12.
Proof.
  exact (status_line_read 1 12 "WFConnection" " st:Secondary/Unknown"
           ltac:(lia) eq_refl eq_refl).
Defined.

(** ** LogicalVolume *)

(** The line of [lvdisplay] that shows the device numbers. *)
Definition block_device_line (pad1 pad2 : nat) (ma mi : Z) (rest : string)
    : string :=
  spaces pad1 +:+ ("Block device" +:+ (spaces pad2 +:+
    (pretty ma +:+ (":" +:+ (pretty mi +:+ rest))))).

Lemma block_device_match_line pad1 pad2 ma mi rest :
  0 <= ma -> 0 <= mi -> starts_with is_digit rest = false ->
  block_device_match (block_device_line pad1 pad2 ma mi rest)
  = Some (pretty ma, pretty mi).
Proof.
  intros Hma Hmi Hrest.
  destruct (pretty_digits ma Hma) as (Ha & Hane & _).
  destruct (pretty_digits mi Hmi) as (Hi & Hine & _).
  unfold block_device_match, block_device_line.
  rewrite skip_spaces_spaces by reflexivity.
  rewrite (eat_app "Block device").
  rewrite skip_spaces_spaces by (apply starts_with_digits_blank; assumption).
  rewrite digits1_app by (try assumption; reflexivity).
  rewrite (eat_app ":").
  rewrite digits1_app by assumption. reflexivity.
Qed.

Lemma lv_attach_scan_first pre line post ma mi :
  Forall (fun l => block_device_match l = None) pre ->
  block_device_match line = Some (ma, mi) ->
  lv_attach_scan (pre ++ line :: post) = Some (int_of_digits ma, int_of_digits mi).
Proof.
  intros Hpre Hline. induction Hpre as [| l pre Hl _ IH].
  - cbn [app lv_attach_scan]. rewrite Hline. reflexivity.
  - cbn [app lv_attach_scan]. rewrite Hl. exact IH.
Qed.

Section LogicalVolumeProps.
Context `{Env}.

(** X8. [LogicalVolume.Attach] takes the device numbers from the first
    line of the [lvdisplay] output that shows them: when the command
    succeeds and the first line of the form [Block device MAJOR:MINOR]
    carries the numbers [ma] and [mi] (any padding, anything but a digit
    after them), [Attach] returns true with [major = ma] and
    [minor = mi], having run [lvdisplay <dev_path>] and nothing else;
    the other attributes stay. *)
Theorem LogicalVolume_Attach_reads d s out w pre post pad1 pad2 ma mi rest :
  run [VStr "lvdisplay"; dev_path d] (world s) = (mkRunResult false out, w) ->
  splitlines out = pre ++ block_device_line pad1 pad2 ma mi rest :: post ->
  Forall (fun l => block_device_match l = None) pre ->
  0 <= ma -> 0 <= mi -> starts_with is_digit rest = false ->
  LogicalVolume_Attach d s
  = (Ret true,
     mkDev (cls d) (unique_id d) (_children d) (dev_path d) (Some ma) (Some mi),
     mkSt w (cmds s ++ [[VStr "lvdisplay"; dev_path d]])).
Proof.
  intros Hrun Hlines Hpre Hma Hmi Hrest.
  unfold LogicalVolume_Attach, RunCmd. rewrite Hrun. cbn [failed stdout].
  rewrite Hlines.
  rewrite (lv_attach_scan_first pre _ post _ _ Hpre
             (block_device_match_line pad1 pad2 ma mi rest Hma Hmi Hrest)).
  rewrite (proj2 (proj2 (pretty_digits ma Hma))).
  rewrite (proj2 (proj2 (pretty_digits mi Hmi))). reflexivity.
Qed.

End LogicalVolumeProps.

(** A volume as [lvdisplay] shows it. *)
Definition lvdisplay_text : string :=
  file_text ["  --- Logical volume ---";
             "  LV Name                /dev/vg0/lv1";
             "  LV Size                1.00 GB";
             "  Block device           253:7"].

Definition lvdisplay_scenario : Sim.SimWorld :=
  Sim.mkWorld "" [Sim.ok ["lvdisplay"; "/dev/vg0/lv1"] lvdisplay_text false] [] 0.

Definition lv_unattached (name : string) : BlockDev :=
  mkDev (LogicalVolume (VStr "vg0") (VStr name)) [VStr "vg0"; VStr name] []
        (VStr ("/dev/vg0/" +:+ name)) None None.

Lemma LogicalVolume_Attach_reads_witness :
  LogicalVolume_Attach (lv_unattached "lv1") (Sim.start lvdisplay_scenario)
  = (Ret true,
     mkDev (LogicalVolume (VStr "vg0") (VStr "lv1")) [VStr "vg0"; VStr "lv1"] []
           (VStr "/dev/vg0/lv1") (Some 253) (Some 7),
     @mkSt Sim.sim_env lvdisplay_scenario [[VStr "lvdisplay"; VStr "/dev/vg0/lv1"]]).
Proof.
  apply (@LogicalVolume_Attach_reads Sim.sim_env (lv_unattached "lv1")
           (Sim.start lvdisplay_scenario) lvdisplay_text lvdisplay_scenario
           ["  --- Logical volume ---";
            "  LV Name                /dev/vg0/lv1";
            "  LV Size                1.00 GB"]
           [] 2 11 253 7 "").
  - reflexivity.
  - reflexivity.
  - repeat constructor.
  - lia.
  - lia.
  - reflexivity.
Defined.

Section LogicalVolumeRemove.
Context `{Env}.

(** X9. [LogicalVolume.Remove] tests [not self.minor], which holds for
    an absent minor and for minor 0 alike. When the volume cannot be
    displayed: a device whose minor is absent or 0 is looked up first,
    and [Remove] returns true having run only that [lvdisplay], the
    object unchanged; a device with any other minor is not looked up,
    [lvremove -f vg/lv] is the only command and its outcome the
    result. *)
Theorem LogicalVolume_Remove_missing d s :
  failed (run [VStr "lvdisplay"; dev_path d] (world s)).1 = true ->
  LogicalVolume_Remove d s
  = if minor_falsy d then
      (Ret true, d,
       mkSt (run [VStr "lvdisplay"; dev_path d] (world s)).2
            (cmds s ++ [[VStr "lvdisplay"; dev_path d]]))
    else
      let argv := [VStr "lvremove"; VStr "-f";
                   VStr (py_str (lv_names d).1 +:+ "/" +:+ py_str (lv_names d).2)] in
      (Ret (negb (failed (run argv (world s)).1)), d,
       mkSt (run argv (world s)).2 (cmds s ++ [argv])).
Proof.
  intros Hfail. unfold LogicalVolume_Remove, mbind, self.
  destruct (minor_falsy d) eqn:Hm.
  - unfold LogicalVolume_Attach, RunCmd.
    destruct (run [VStr "lvdisplay"; dev_path d] (world s)) as [result w].
    cbn [fst snd] in Hfail |- *. rewrite Hfail. reflexivity.
  - clear Hfail. unfold mret at 1. cbn iota beta.
    destruct (lv_names d) as [vg lv]. cbn [fst snd].
    unfold lift, RunCmd, mret. cbn zeta.
    destruct (run _ (world s)) as [result w]. reflexivity.
Qed.

(** X10. [LogicalVolume.Rename] to [(new_vg, new_name)] never touches
    [unique_id], the children, [major] or [minor]. A new volume group
    other than the current one is a [ProgrammerError] raised before any
    command; otherwise [lvrename vg old new] is the one command run:
    when it fails, [BlockDeviceError] is raised and the object is as it
    was; when it succeeds, the volume name and [dev_path =
    /dev/vg/new] follow, while [unique_id] still holds the old name. *)
Theorem LogicalVolume_Rename_outcome d new_vg new_name s r d' s' :
  LogicalVolume_Rename new_vg new_name d s = (r, d', s') ->
  unique_id d' = unique_id d /\ _children d' = _children d
  /\ major d' = major d /\ minor d' = minor d
  /\ match r with
     | Ret _ =>
         new_vg = (lv_names d).1
         /\ lv_names d' = (new_vg, new_name)
         /\ dev_path d'
            = VStr ("/dev/" +:+ py_str new_vg +:+ "/" +:+ py_str new_name)
         /\ cmds s' = cmds s ++ [[VStr "lvrename"; new_vg; (lv_names d).2; new_name]]
     | Raise e =>
         d' = d
         /\ ((new_vg <> (lv_names d).1 /\ s' = s
              /\ e = ProgrammerError
                   "Can't move a logical volume across volume groups (from %s to to %s)")
             \/ (new_vg = (lv_names d).1
                 /\ cmds s' = cmds s ++ [[VStr "lvrename"; new_vg; (lv_names d).2; new_name]]
                 /\ e = BlockDeviceError "Failed to rename the logical volume: %s"))
     | Diverge => False
     end.
Proof.
  unfold LogicalVolume_Rename, mbind, self.
  destruct (lv_names d) as [vg lv] eqn:Hn. cbn [fst snd].
  unfold py_eqb. destruct (bool_decide (new_vg = vg)) eqn:Hvg; cbn [negb].
  - apply bool_decide_eq_true in Hvg. subst vg.
    unfold lift, RunCmd. destruct (run _ (world s)) as [result w].
    destruct (failed result).
    + unfold mraise. intros Heq. injection Heq as <- <- <-.
      repeat (split; [reflexivity |]).
      right. repeat split.
    + unfold assign. intros Heq. injection Heq as <- <- <-.
      repeat (split; [reflexivity |]). repeat split.
  - apply bool_decide_eq_false in Hvg. unfold mraise.
    intros Heq. injection Heq as <- <- <-.
    repeat (split; [reflexivity |]).
    left. repeat split. exact Hvg.
Qed.

End LogicalVolumeRemove.

(** A volume with device numbers 253:7 that is gone from the volume
    group: every command fails. *)
Definition empty_node : Sim.SimWorld := Sim.mkWorld "" [] [] 0.

Lemma LogicalVolume_Remove_missing_witness :
  LogicalVolume_Remove (lv_dev "lv1" 0) (Sim.start empty_node)
  = (Ret true, lv_dev "lv1" 0,
     @mkSt Sim.sim_env empty_node [[VStr "lvdisplay"; VStr "/dev/vg0/lv1"]])
  /\ LogicalVolume_Remove (lv_dev "lv1" 7) (Sim.start empty_node)
     = (Ret false, lv_dev "lv1" 7,
        @mkSt Sim.sim_env empty_node [[VStr "lvremove"; VStr "-f"; VStr "vg0/lv1"]]).
Proof.
  split.
  - exact (@LogicalVolume_Remove_missing Sim.sim_env (lv_dev "lv1" 0)
             (Sim.start empty_node) eq_refl).
  - exact (@LogicalVolume_Remove_missing Sim.sim_env (lv_dev "lv1" 7)
             (Sim.start empty_node) eq_refl).
Defined.

Definition rename_scenario : Sim.SimWorld :=
  Sim.mkWorld "" [Sim.ok ["lvrename"; "vg0"; "lv1"; "lv2"] "" false] [] 0.

Lemma LogicalVolume_Rename_outcome_witness :
  let d' := mkDev (LogicalVolume (VStr "vg0") (VStr "lv2")) [VStr "vg0"; VStr "lv1"]
                  [] (VStr "/dev/vg0/lv2") (Some 253) (Some 7) in
  unique_id d' = [VStr "vg0"; VStr "lv1"] /\ _children d' = []
  /\ major d' = Some 253 /\ minor d' = Some 7
  /\ VStr "vg0" = VStr "vg0"
  /\ lv_names d' = (VStr "vg0", VStr "lv2")
  /\ dev_path d' = VStr "/dev/vg0/lv2"
  /\ [map VStr ["lvrename"; "vg0"; "lv1"; "lv2"]]
     = [] ++ [[VStr "lvrename"; VStr "vg0"; VStr "lv1"; VStr "lv2"]].
Proof.
  exact (@LogicalVolume_Rename_outcome Sim.sim_env (lv_dev "lv1" 7)
           (VStr "vg0") (VStr "lv2") (Sim.start rename_scenario) (Ret tt)
           (mkDev (LogicalVolume (VStr "vg0") (VStr "lv2")) [VStr "vg0"; VStr "lv1"]
                  [] (VStr "/dev/vg0/lv2") (Some 253) (Some 7))
           (@mkSt Sim.sim_env rename_scenario
                  [map VStr ["lvrename"; "vg0"; "lv1"; "lv2"]])
           eq_refl).
Defined.

(** ** Snapshots need one physical volume with enough room *)

Definition snapshot_argv (size : Z) (snap_name : string) (dev : pyval)
    : list pyval :=
  [VStr "lvcreate"; VStr ("-L" +:+ pretty size +:+ "m"); VStr "-s";
   VStr ("-n" +:+ snap_name); dev].

Lemma sort_reverse_head data p rest :
  sort_reverse data = p :: rest ->
  p ∈ data /\ forall q, q ∈ data -> (q.1 <= p.1)%Q.
Proof.
  intros Hs. destruct (sort_reverse_sorted data) as [Hperm Hsorted].
  rewrite Hs in Hperm, Hsorted. split.
  - rewrite <- Hperm. apply elem_of_cons. left. reflexivity.
  - intros q Hq. rewrite <- Hperm in Hq. apply elem_of_cons in Hq as [-> | Hq].
    + apply Qle_refl.
    + apply StronglySorted_inv in Hsorted as [_ Hall].
      rewrite Forall_forall in Hall. exact (Hall _ Hq).
Qed.

Lemma Qltb_head_forallb data p rest size :
  sort_reverse data = p :: rest ->
  Qltb p.1 size = forallb (fun pv : Q * string => Qltb pv.1 size) data.
Proof.
  intros Hs. destruct (sort_reverse_head _ _ _ Hs) as [Hin Hmax].
  destruct (Qltb p.1 size) eqn:Hp.
  - symmetry. apply forallb_forall. intros q Hq.
    apply list_elem_of_In in Hq. apply Qltb_lt.
    eapply Qle_lt_trans; [exact (Hmax _ Hq) | apply Qltb_lt, Hp].
  - symmetry. apply not_true_is_false. intros Hall.
    rewrite forallb_forall in Hall.
    apply list_elem_of_In in Hin. rewrite (Hall _ Hin) in Hp. discriminate.
Qed.

Section Snapshot.
Context `{Env}.

(** X11. [LogicalVolume.Snapshot] compares the requested size with the
    free space of the largest accepted physical volume alone (where
    [Create] takes the sum): once the stale snapshot is out of the way
    and [pvs] has reported the accepted volumes, it raises the
    not-enough-free-space error, running nothing more, exactly when
    every one of them has less free space than requested; otherwise it
    runs [lvcreate -L<size>m -s -n<lv>.snap <dev_path>] and returns the
    snapshot name [<lv>.snap] when that succeeds. *)
Theorem LogicalVolume_Snapshot_largest_pv d size s vg name s1 pvs s2 :
  lv_names d = (vg, VStr name) ->
  remove_snapshot vg (name +:+ ".snap") s = (Ret tt, s1) ->
  GetPVInfo vg s1 = (Ret (Some pvs), s2) ->
  pvs <> [] ->
  LogicalVolume_Snapshot d size s
  = if forallb (fun pv : Q * string => Qltb pv.1 (inject_Z size)) pvs then
      (Raise (BlockDeviceError "Not enough free space: required %s, available %s"),
       s2)
    else
      let argv := snapshot_argv size (name +:+ ".snap") (dev_path d) in
      (if failed (run argv (world s2)).1
       then Raise (BlockDeviceError "command: %s error: %s - %s")
       else Ret (name +:+ ".snap"),
       mkSt (run argv (world s2)).2 (cmds s2 ++ [argv])).
Proof.
  intros Hn Hrm Hpv Hne. unfold LogicalVolume_Snapshot. rewrite Hn.
  unfold bind at 1. rewrite Hrm. unfold bind at 1. rewrite Hpv.
  destruct pvs as [| pv0 pvs0]; [congruence |].
  destruct (sort_reverse (pv0 :: pvs0)) as [| [free_size pv_name] rest] eqn:Hs.
  - exfalso. destruct (sort_reverse_sorted (pv0 :: pvs0)) as [Hperm _].
    rewrite Hs in Hperm. apply Permutation_nil_l in Hperm. discriminate.
  - rewrite <- (Qltb_head_forallb _ _ _ (inject_Z size) Hs). cbn [fst].
    destruct (Qltb free_size (inject_Z size)); [reflexivity |].
    unfold bind, RunCmd, snapshot_argv. cbn zeta.
    destruct (run _ (world s2)) as [result w]. cbn [fst snd].
    destruct (failed result); reflexivity.
Qed.

End Snapshot.

(** Two physical volumes with 600 and 500 MiB free: a snapshot of 700
    MiB is refused although 1100 MiB are free in the group. *)
Definition snapshot_scenario : Sim.SimWorld :=
  Sim.mkWorld ""
    [Sim.ok ["pvs"; "--noheadings"; "--nosuffix"; "--units=m";
             "-opv_name,vg_name,pv_free,pv_attr"; "--unbuffered"; "--separator=:"]
            (file_text ["  /dev/sdb:vg0:500.00:a-"; "  /dev/sda:vg0:600.00:a-"])
            false]
    [] 0.

Lemma LogicalVolume_Snapshot_largest_pv_witness :
  LogicalVolume_Snapshot (lv_dev "lv1" 7) 700 (Sim.start snapshot_scenario)
  = (Raise (BlockDeviceError "Not enough free space: required %s, available %s"),
     @mkSt Sim.sim_env snapshot_scenario
       [[VStr "lvdisplay"; VStr "/dev/vg0/lv1.snap"];
        [VStr "lvdisplay"; VStr "/dev/vg0/lv1.snap"];
        pvs_argv]).
Proof.
  apply (@LogicalVolume_Snapshot_largest_pv Sim.sim_env (lv_dev "lv1" 7) 700
           (Sim.start snapshot_scenario) (VStr "vg0") "lv1"
           (@mkSt Sim.sim_env snapshot_scenario
              [[VStr "lvdisplay"; VStr "/dev/vg0/lv1.snap"];
               [VStr "lvdisplay"; VStr "/dev/vg0/lv1.snap"]])
           [(inject_Z 500, "/dev/sdb"); (inject_Z 600, "/dev/sda")]).
  - reflexivity.
  - reflexivity.
  - reflexivity.
  - discriminate.
Defined.

(** ** DRBD8: what Attach binds *)

Section AttachBinds.
Context `{Env}.

Lemma Attach_find_used d s m s' :
  (forall keys k, k ∈ dict_order keys -> k ∈ keys) ->
  Attach_find d s = (Ret (Some m), s') ->
  exists state line,
    line ∈ splitlines (proc_drbd (world s)) /\ configured line m state.
Proof.
  intros Horder. unfold Attach_find. unfold bind at 1.
  destruct (_GetUsedDevs s) as [[used | e |] s1] eqn:Hu; try discriminate.
  apply _GetUsedDevs_inv in Hu as (-> & ->).
  intros Hloop. apply Attach_loop_In, Horder in Hloop.
  apply list_elem_of_In, in_map_iff in Hloop as ([k [state line]] & Hk & Hin).
  cbn [fst] in Hk. subst k.
  apply list_elem_of_In, elem_of_map_to_list in Hin.
  exists state, line.
  apply used_devs_scan_lookup in Hin as [Hin | Hin]; [| exact Hin].
  rewrite lookup_empty in Hin. discriminate.
Qed.

(** X12. What [DRBD8.Attach] leaves behind. It assigns nothing but
    [minor] and [dev_path], and keeps the two in step: when it returns
    true the device holds a minor [m] with [dev_path = /dev/drbd<m>],
    and [m] is a minor that /proc/drbd showed in a state other than
    [Unconfigured] when [Attach] started; when it returns false both
    are absent, even if the device held a minor before; when it raises
    the object is unchanged. The iteration over the dictionary of used
    minors is assumed to yield keys of that dictionary. *)
Theorem DRBD8_Attach_binds d s r d' s' :
  (forall keys k, k ∈ dict_order keys -> k ∈ keys) ->
  DRBD8_Attach d s = (r, d', s') ->
  cls d' = cls d /\ unique_id d' = unique_id d /\ _children d' = _children d
  /\ major d' = major d
  /\ match r with
     | Ret true =>
         exists m state line,
           minor d' = Some m /\ dev_path d' = VStr (_DevPath m)
           /\ line ∈ splitlines (proc_drbd (world s)) /\ configured line m state
     | Ret false => minor d' = None /\ dev_path d' = VNone
     | _ => d' = d
     end.
Proof.
  intros Horder Hat.
  apply DRBD8_Attach_inv in Hat as [(found & Hfind & -> & ->) | (-> & Hr & _)].
  - repeat (split; [reflexivity |]). destruct found as [m |].
    + rewrite bool_decide_eq_true_2 by discriminate.
      destruct (Attach_find_used _ _ _ _ Horder Hfind) as (state & line & Hin & Hc).
      exists m, state, line. repeat split; assumption.
    + rewrite bool_decide_eq_false_2 by (intros Hn; apply Hn; reflexivity).
      split; reflexivity.
  - repeat (split; [reflexivity |]). destruct r as [b | e |]; [discriminate | |];
      reflexivity.
Qed.

End AttachBinds.

(** The mirror of the node is up on minor 3 with the right peer; the
    object still carries the minor 9 of an earlier life. *)
Definition attach_scenario : Sim.SimWorld :=
  Sim.mkWorld
    (file_text ["version: 8.0.12 (api:86/proto:86)";
                " 3: cs:Connected st:Secondary/Secondary ds:UpToDate/UpToDate C r---"])
    [Sim.ok ["drbdsetup"; "/dev/drbd3"; "show"] (Sim.show_text "10.0.0.2") false]
    [] 0.

Definition mirror_stale : BlockDev :=
  mkDev (DRBD8 (VStr "10.0.0.1") (VInt 11000) (VStr "10.0.0.2") (VInt 11000))
        [VStr "10.0.0.1"; VInt 11000; VStr "10.0.0.2"; VInt 11000]
        [lv_dev "lv1" 0; lv_dev "lv1meta" 1]
        (VStr "/dev/drbd9") (Some 147) (Some 9).

Lemma DRBD8_Attach_binds_witness :
  cls mirror_attached = cls mirror_stale
  /\ unique_id mirror_attached = unique_id mirror_stale
  /\ _children mirror_attached = _children mirror_stale
  /\ major mirror_attached = major mirror_stale
  /\ exists m state line,
       minor mirror_attached = Some m /\ dev_path mirror_attached = VStr (_DevPath m)
       /\ line ∈ splitlines (proc_drbd (world (Sim.start attach_scenario)))
       /\ configured line m state.
Proof.
  exact (@DRBD8_Attach_binds Sim.sim_env mirror_stale (Sim.start attach_scenario)
           (Ret true) mirror_attached
           (@mkSt Sim.sim_env attach_scenario
                  [map VStr ["drbdsetup"; "/dev/drbd3"; "show"]])
           (fun keys k Hk => Hk) eq_refl).
Defined.

(** ** DRBD8: Assemble ends attached or not at all *)

Section AssembleMinor.
Context `{Env}.

Lemma BlockDev_Assemble_own cA cO cS d s r d' s' :
  BlockDev_Assemble cA cO cS d s = (r, d', s') ->
  exists cs, d' = set_children d cs.
Proof.
  unfold BlockDev_Assemble.
  destruct (assemble_children cA cO cS [] (_children d) s) as [[[status | e |] cs] s1].
  - destruct (negb status).
    + destruct (shutdown_children cS [] cs s1) as [[[u | e |] cs'] s2];
        intros Heq; injection Heq as _ <- _; eexists; reflexivity.
    + intros Heq; injection Heq as _ <- _; eexists; reflexivity.
  - intros Heq; injection Heq as _ <- _; eexists; reflexivity.
  - intros Heq; injection Heq as _ <- _; eexists; reflexivity.
Qed.

(** X13. [Assemble] of a mirror returns true only with the device
    attached, and false only with it unattached: after true the device
    holds a minor [m] and [dev_path = /dev/drbd<m>]; after false it
    holds neither minor nor path. Class, unique id and major are never
    assigned. *)
Theorem DRBD8_Assemble_minor d s b d' s' :
  (exists lhost lport rhost rport, cls d = DRBD8 lhost lport rhost rport) ->
  Assemble d s = (Ret b, d', s') ->
  cls d' = cls d /\ unique_id d' = unique_id d /\ major d' = major d
  /\ if b then exists m, minor d' = Some m /\ dev_path d' = VStr (_DevPath m)
     else minor d' = None /\ dev_path d' = VNone.
Proof.
  intros (lhost & lport & rhost & rport & Hcls).
  destruct d as [c uid ch p ma mi]. cbn [cls] in Hcls. subst c.
  cbn [Assemble cls]. unfold DRBD8_Assemble.
  destruct (Attach_find _ s) as [[found | e |] s1]; try discriminate.
  destruct found as [m |].
  - intros Heq. injection Heq as <- <- _. repeat (split; [reflexivity |]).
    exists m. split; reflexivity.
  - destruct (BlockDev_Assemble _ _ _ _ s1) as [[r d2] s2] eqn:Hsuper.
    apply BlockDev_Assemble_own in Hsuper as [cs ->].
    destruct r as [result | e |]; try discriminate.
    destruct result; cbn [negb].
    + destruct (assemble_fresh _ s2) as [[[m |] | e |] s3]; try discriminate.
      * intros Heq. injection Heq as <- <- _. repeat (split; [reflexivity |]).
        exists m. split; reflexivity.
      * intros Heq. injection Heq as <- <- _. repeat (split; [reflexivity |]).
        split; reflexivity.
    + intros Heq. injection Heq as <- <- _. repeat (split; [reflexivity |]).
      split; reflexivity.
Qed.

End AssembleMinor.

Lemma DRBD8_Assemble_minor_witness :
  cls mirror_attached = cls mirror_stale
  /\ unique_id mirror_attached = unique_id mirror_stale
  /\ major mirror_attached = major mirror_stale
  /\ exists m, minor mirror_attached = Some m
               /\ dev_path mirror_attached = VStr (_DevPath m).
Proof.
  exact (@DRBD8_Assemble_minor Sim.sim_env mirror_stale (Sim.start attach_scenario)
           true mirror_attached
           (@mkSt Sim.sim_env attach_scenario
                  [map VStr ["drbdsetup"; "/dev/drbd3"; "show"]])
           (ex_intro _ _ (ex_intro _ _ (ex_intro _ _ (ex_intro _ _ eq_refl))))
           eq_refl).
Defined.

(** ** DRBD8: changing the role, and a shutdown that fails *)

Section Role.
Context `{Env}.

Lemma not_attached_false d s d1 s1 :
  minor d = None -> DRBD8_Attach d s = (Ret false, d1, s1) ->
  not_attached d s = (Ret true, d1, s1).
Proof. intros Hm Hat. unfold not_attached. rewrite Hm, Hat. reflexivity. Qed.

(** X14. On a mirror that holds no minor and to which [Attach] finds
    nothing, [Open] and [Close] part ways: [Open] returns [False]
    without an error, [Close] raises [BlockDeviceError]; neither runs a
    command of its own beyond what [Attach] ran. On a mirror that holds
    a minor, each runs exactly one command, [drbdsetup <dev_path>
    primary] (with [-o] appended when forced) respectively
    [... secondary], without asking [Attach], and raises
    [BlockDeviceError] exactly when the command fails. *)
Theorem DRBD8_Open_Close d s :
  (forall force d1 s1,
     minor d = None -> DRBD8_Attach d s = (Ret false, d1, s1) ->
     DRBD8_Open force d s = (Ret (Some false), d1, s1)
     /\ DRBD8_Close d s = (Raise (BlockDeviceError "Can't find device"), d1, s1))
  /\ (forall force m,
        minor d = Some m ->
        let primary := [VStr "drbdsetup"; dev_path d; VStr "primary"]
                       ++ (if force : bool then [VStr "-o"] else []) in
        let secondary := [VStr "drbdsetup"; dev_path d; VStr "secondary"] in
        DRBD8_Open force d s
        = (if failed (run primary (world s)).1
           then Raise (BlockDeviceError "Can't make drbd device primary: %s")
           else Ret None,
           d, mkSt (run primary (world s)).2 (cmds s ++ [primary]))
        /\ DRBD8_Close d s
           = (if failed (run secondary (world s)).1
              then Raise (BlockDeviceError
                            "Can't switch drbd device to secondary: %s")
              else Ret tt,
              d, mkSt (run secondary (world s)).2 (cmds s ++ [secondary]))).
Proof.
  split.
  - intros force d1 s1 Hm Hat. unfold DRBD8_Open, DRBD8_Close, mbind.
    rewrite (not_attached_false _ _ _ _ Hm Hat). split; reflexivity.
  - intros force m Hm primary secondary.
    unfold DRBD8_Open, DRBD8_Close, mbind, not_attached. rewrite Hm.
    unfold self, lift, RunCmd. split.
    + replace (if force then _ ++ [VStr "-o"] else _) with primary
        by (subst primary; destruct force; reflexivity).
      destruct (run primary (world s)) as [result w]. cbn [fst snd].
      destruct (failed result); reflexivity.
    + fold secondary. destruct (run secondary (world s)) as [result w].
      cbn [fst snd]. destruct (failed result); reflexivity.
Qed.

(** X15. A [Shutdown] of a mirror that returns false has run
    [drbdsetup /dev/drbd<m> down] as its last command, and the device
    still holds that minor [m] and its path: either it is unchanged, or
    the minor is the one [Attach] had just bound. Nothing is cleared, so
    the shutdown can be tried again. *)
Theorem DRBD8_Shutdown_failed d s d' s' :
  DRBD8_Shutdown d s = (Ret false, d', s') ->
  exists m cs,
    cmds s' = cs ++ [[VStr "drbdsetup"; VStr (_DevPath m); VStr "down"]]
    /\ minor d' = Some m
    /\ ((minor d = Some m /\ d' = d)
        \/ (minor d = None /\ d' = _SetFromMinor d (Some m))).
Proof.
  rewrite DRBD8_Shutdown_unfold.
  destruct (not_attached d s) as [[r d1] s1] eqn:Hna.
  apply not_attached_inv in Hna
    as [(m & Hm & -> & -> & ->)
       | [(Hm & found & Hfind & -> & ->) | (Hm & -> & Hr & Hs)]].
  - rewrite Hm. unfold shutdown_down. cbv zeta. rewrite _ShutdownAll_run.
    cbn [fst snd]. destruct (negb _); [discriminate |].
    intros Heq. injection Heq as <- <-. exists m, (cmds s).
    split; [reflexivity |]. split; [first [exact Hm | reflexivity] |].
    left. split; first [exact Hm | reflexivity].
  - destruct found as [m |].
    + rewrite bool_decide_eq_true_2 by discriminate. cbn [negb _SetFromMinor minor].
      unfold shutdown_down. cbv zeta. rewrite _ShutdownAll_run.
      cbn [fst snd]. destruct (negb _); [discriminate |].
      intros Heq. injection Heq as <- <-. exists m, (cmds s1).
      split; [reflexivity |]. split; [reflexivity |]. right.
      split; [exact Hm | reflexivity].
    + rewrite bool_decide_eq_false_2 by (intros Hn; apply Hn; reflexivity).
      discriminate.
  - destruct r; simpl in Hr; discriminate.
Qed.

End Role.

(** On a node without any configured minor the unassembled mirror
    cannot be opened, silently, and cannot be closed, loudly. *)
Lemma DRBD8_Open_Close_witness :
  DRBD8_Open false mirror_new (Sim.start rollback_scenario)
  = (Ret (Some false), mirror_new, Sim.start rollback_scenario)
  /\ DRBD8_Close mirror_new (Sim.start rollback_scenario)
     = (Raise (BlockDeviceError "Can't find device"), mirror_new,
        Sim.start rollback_scenario).
Proof.
  exact (proj1 (@DRBD8_Open_Close Sim.sim_env mirror_new
                  (Sim.start rollback_scenario))
           false mirror_new (Sim.start rollback_scenario) eq_refl eq_refl).
Defined.

Lemma DRBD8_Shutdown_failed_witness :
  exists m cs,
    [map VStr ["drbdsetup"; "/dev/drbd3"; "down"]]
    = cs ++ [[VStr "drbdsetup"; VStr (_DevPath m); VStr "down"]]
    /\ minor mirror_attached = Some m
    /\ ((minor mirror_attached = Some m /\ mirror_attached = mirror_attached)
        \/ (minor mirror_attached = None
            /\ mirror_attached = _SetFromMinor mirror_attached (Some m))).
Proof.
  exact (@DRBD8_Shutdown_failed Sim.sim_env mirror_attached (Sim.start empty_node)
           mirror_attached
           (@mkSt Sim.sim_env empty_node
                  [map VStr ["drbdsetup"; "/dev/drbd3"; "down"]])
           eq_refl).
Defined.

(** ** The sync speed reaches every mirror of the tree *)

(** Induction over the device tree. *)
Lemma BlockDev_tree_ind (P : BlockDev -> Prop) :
  (forall c u ch p ma mi, Forall P ch -> P (mkDev c u ch p ma mi)) ->
  forall d, P d.
Proof.
  intros IH. fix F 1. intros [c u ch p ma mi]. apply IH.
  induction ch as [| a ch IHch]; constructor; [apply F | exact IHch].
Qed.

(** The [syncer] commands of the mirrors of a tree, children before
    their parent. *)
Fixpoint syncer_trace (speed : Z) (d : BlockDev) : list (list pyval) :=
  flat_map (syncer_trace speed) (_children d)
  ++ match cls d with
     | DRBD8 _ _ _ _ =>
         [[VStr "drbdsetup"; dev_path d; VStr "syncer"; VStr "-r";
           VStr (pretty speed)]]
     | _ => []
     end.

(** Every mirror of the tree holds a minor. *)
Fixpoint mirrors_attached (d : BlockDev) : bool :=
  forallb mirrors_attached (_children d)
  && match cls d with
     | DRBD8 _ _ _ _ => bool_decide (minor d <> None)
     | _ => true
     end.

Section SyncSpeed.
Context `{Env}.

Definition speed_ok (speed : Z) (d : BlockDev) : Prop :=
  forall s r s',
    SetSyncSpeed d speed s = (r, s') ->
    exists b, r = Ret b
      /\ (b = true -> cmds s' = cmds s ++ syncer_trace speed d
                      /\ mirrors_attached d = true).

Lemma syncspeed_children_ok speed ch :
  Forall (speed_ok speed) ch ->
  forall result s r s',
    syncspeed_children SetSyncSpeed ch speed result s = (r, s') ->
    exists b, r = Ret b
      /\ (b = true ->
          result = true
          /\ cmds s' = cmds s ++ flat_map (syncer_trace speed) ch
          /\ forallb mirrors_attached ch = true).
Proof.
  induction 1 as [| c ch Hc _ IH]; intros result s r s' Hrun.
  - cbn [syncspeed_children] in Hrun. unfold ret in Hrun.
    injection Hrun as <- <-. exists result. split; [reflexivity |].
    intros ->. cbn [flat_map forallb]. rewrite app_nil_r. repeat split.
  - cbn [syncspeed_children] in Hrun. destruct result.
    + unfold bind in Hrun.
      destruct (SetSyncSpeed c speed s) as [r1 s1] eqn:Hc1.
      destruct (Hc _ _ _ Hc1) as (b1 & -> & Hb1).
      destruct (IH _ _ _ _ Hrun) as (b & -> & Hb).
      exists b. split; [reflexivity |]. intros ->.
      destruct (Hb eq_refl) as (-> & Hcmds & Hall).
      destruct (Hb1 eq_refl) as (Hcmds1 & Hatt1).
      split; [reflexivity |]. cbn [flat_map forallb].
      rewrite Hcmds, Hcmds1, Hatt1, Hall, app_assoc. repeat split.
    + destruct (IH _ _ _ _ Hrun) as (b & -> & Hb).
      exists b. split; [reflexivity |]. intros ->.
      destruct (Hb eq_refl) as (Hf & _). discriminate.
Qed.

Lemma SetSyncSpeed_ok speed d : speed_ok speed d.
Proof.
  induction d as [c u ch p ma mi IH] using BlockDev_tree_ind.
  pose proof (syncspeed_children_ok speed ch IH) as Hch.
  intros s r s' Hrun. cbn [SetSyncSpeed cls] in Hrun.
  assert (Hplain :
    BlockDev_SetSyncSpeed SetSyncSpeed (mkDev c u ch p ma mi) speed s = (r, s') ->
    (forall a b c' d', c <> DRBD8 a b c' d') ->
    exists b, r = Ret b
      /\ (b = true ->
          cmds s' = cmds s ++ syncer_trace speed (mkDev c u ch p ma mi)
          /\ mirrors_attached (mkDev c u ch p ma mi) = true)).
  { intros Hr Hc. unfold BlockDev_SetSyncSpeed in Hr. cbn [_children] in Hr.
    destruct (Hch _ _ _ _ Hr) as (b & -> & Hb). exists b.
    split; [reflexivity |]. intros ->. destruct (Hb eq_refl) as (_ & Hcmds & Hall).
    cbn [syncer_trace mirrors_attached _children cls]. rewrite Hall, Hcmds.
    destruct c; [| exfalso; eapply Hc; reflexivity |];
      rewrite app_nil_r; split; reflexivity. }
  destruct c as [vg lv | lhost lport rhost rport | drv].
  - apply Hplain; [exact Hrun | discriminate].
  - clear Hplain. unfold DRBD8_SetSyncSpeed, BlockDev_SetSyncSpeed in Hrun.
    cbn [_children minor dev_path] in Hrun. unfold bind at 1 in Hrun.
    destruct (syncspeed_children SetSyncSpeed ch speed true s) as [r1 s1] eqn:Hc1.
    destruct (Hch _ _ _ _ Hc1) as (b1 & -> & Hb1).
    destruct mi as [m |].
    + unfold bind, RunCmd, ret in Hrun.
      destruct (run _ (world s1)) as [result w]. injection Hrun as <- <-.
      eexists. split; [reflexivity |]. intros Hb.
      apply andb_true_iff in Hb as [_ ->].
      destruct (Hb1 eq_refl) as (_ & Hcmds & Hall).
      cbn [syncer_trace mirrors_attached _children cls cmds minor dev_path].
      rewrite Hall, Hcmds, app_assoc. split; reflexivity.
    + unfold ret in Hrun. injection Hrun as <- <-. exists false.
      split; [reflexivity | discriminate].
  - apply Hplain; [exact Hrun | discriminate].
Qed.

(** X16. [SetSyncSpeed] never raises, and when it returns true on a
    device tree it has set the speed of every mirror in the tree: the
    commands it ran are exactly [drbdsetup <dev_path> syncer -r <speed>]
    once for each mirror, the mirrors below a device before the device
    itself, and every mirror of the tree holds a minor. (A child that
    fails makes the siblings after it be skipped, and the answer
    false.) *)
Theorem SetSyncSpeed_true d speed s :
  exists b s',
    SetSyncSpeed d speed s = (Ret b, s')
    /\ (b = true -> cmds s' = cmds s ++ syncer_trace speed d
                    /\ mirrors_attached d = true).
Proof.
  destruct (SetSyncSpeed d speed s) as [r s'] eqn:Hrun.
  destruct (SetSyncSpeed_ok speed d _ _ _ Hrun) as (b & -> & Hb).
  exists b, s'. split; [reflexivity | exact Hb].
Qed.

End SyncSpeed.

(** The syncer of both mirrors of the stacked pair accepts the rate. *)
Definition syncer_scenario : Sim.SimWorld :=
  Sim.mkWorld ""
    [Sim.ok ["drbdsetup"; "/dev/drbd0"; "syncer"; "-r"; "2048"] "" false;
     Sim.ok ["drbdsetup"; "/dev/drbd1"; "syncer"; "-r"; "2048"] "" false]
    [] 0.

Example SetSyncSpeed_stacked :
  SetSyncSpeed outer_mirror 2048 (Sim.start syncer_scenario)
  = (Ret true,
     @mkSt Sim.sim_env syncer_scenario
       [map VStr ["drbdsetup"; "/dev/drbd0"; "syncer"; "-r"; "2048"];
        map VStr ["drbdsetup"; "/dev/drbd1"; "syncer"; "-r"; "2048"]]).
Proof. reflexivity. Qed.

(** ** DRBD8: attaching and detaching the local storage *)

Section Children.
Context `{Env}.

Lemma show_info_cmds m s r s' :
  show_info m s = (r, s') ->
  cmds s' = cmds s ++ [[VStr "drbdsetup"; VStr (_DevPath m); VStr "show"]].
Proof.
  unfold show_info, _GetShowData, bind, RunCmd.
  destruct (run _ (world s)) as [result w].
  destruct (failed result); unfold ret, _GetDevInfo.
  - intros Heq. injection Heq as _ <-. reflexivity.
  - destruct (stdout result) as [| c out].
    + intros Heq. injection Heq as _ <-. reflexivity.
    + destruct (parseString (String c out)) as [results |].
      * unfold lift_res. intros Heq. injection Heq as _ <-. reflexivity.
      * unfold raise. intros Heq. injection Heq as _ <-. reflexivity.
Qed.

(** The situation in which [RemoveChildren] detaches: the device holds
    a minor [m] and two children, [drbdsetup /dev/drbd<m> show] reports
    a local disk, the paths given are those of the two children in
    order, and [drbdsetup /dev/drbd<m> detach] then succeeds. *)
Definition detaches (devices : list pyval) (d : BlockDev) (s : St) : Prop :=
  exists m info s1 c0 c1,
    minor d = Some m
    /\ show_info m s = (Ret info, s1)
    /\ has_key "local_dev" info = true
    /\ _children d = [c0; c1]
    /\ devices = [dev_path c0; dev_path c1]
    /\ failed (run [VStr "drbdsetup"; VStr (_DevPath m); VStr "detach"]
                   (world s1)).1 = false.

(** X17. [DRBD8.RemoveChildren] assigns nothing but the child list,
    and empties it exactly when the local storage was detached. In the
    situation [detaches] (minor [m], two children, [show] reports a
    local disk, the paths given are the children's, the [detach]
    succeeds) it returns with the child list empty, having run
    [drbdsetup /dev/drbd<m> show] and [drbdsetup /dev/drbd<m> detach]
    and nothing else. Conversely every run that changes the object is
    such a run; in every other run (an error, or the early return when
    the minor has no local disk) the object is unchanged. *)
Theorem DRBD8_RemoveChildren_outcome devices d s :
  (detaches devices d s ->
   exists m s',
     minor d = Some m
     /\ DRBD8_RemoveChildren devices d s = (Ret tt, set_children d [], s')
     /\ cmds s' = cmds s
          ++ [[VStr "drbdsetup"; VStr (_DevPath m); VStr "show"];
              [VStr "drbdsetup"; VStr (_DevPath m); VStr "detach"]])
  /\ (forall r d' s',
        DRBD8_RemoveChildren devices d s = (r, d', s') ->
        d' = d
        \/ (r = Ret tt /\ d' = set_children d [] /\ detaches devices d s)).
Proof.
  split.
  - intros (m & info & s1 & c0 & c1 & Hm & Hshow & Hkey & Hch & -> & Hdet).
    unfold DRBD8_RemoveChildren, mbind, self. rewrite Hm.
    unfold lift at 1. rewrite Hshow. rewrite Hkey, Hch. cbn [negb].
    unfold py_eqb. rewrite !bool_decide_eq_true_2 by reflexivity. cbn [negb].
    apply show_info_cmds in Hshow.
    unfold lift, _ShutdownLocal, bind, RunCmd, ret.
    destruct (run _ (world s1)) as [result w]. cbn [fst] in Hdet.
    rewrite Hdet. cbn [negb]. unfold assign.
    eexists m, _. split; [reflexivity |]. split; [reflexivity |].
    cbn [cmds]. rewrite Hshow, <- app_assoc. reflexivity.
  - intros r d' s'. unfold DRBD8_RemoveChildren, mbind, self.
    destruct (minor d) as [m |] eqn:Hm;
      [| unfold mraise; intros Heq; injection Heq as _ <- _; left; reflexivity].
    unfold lift at 1. destruct (show_info m s) as [[info | e |] s1] eqn:Hshow;
      try (intros Heq; injection Heq as _ <- _; left; reflexivity).
    destruct (has_key "local_dev" info) eqn:Hkey; cbn [negb];
      [| unfold mret; intros Heq; injection Heq as _ <- _; left; reflexivity].
    destruct (_children d) as [| c0 [| c1 [| c2 cs]]] eqn:Hch;
      try (unfold mraise; intros Heq; injection Heq as _ <- _; left; reflexivity).
    destruct devices as [| dev0 [| dev1 [| dev2 devs]]];
      try (unfold mraise; intros Heq; injection Heq as _ <- _; left; reflexivity).
    unfold py_eqb.
    destruct (bool_decide (dev0 = dev_path c0)) eqn:H0; cbn [negb];
      [| unfold mraise; intros Heq; injection Heq as _ <- _; left; reflexivity].
    destruct (bool_decide (dev1 = dev_path c1)) eqn:H1; cbn [negb];
      [| unfold mraise; intros Heq; injection Heq as _ <- _; left; reflexivity].
    apply bool_decide_eq_true in H0, H1. subst dev0 dev1.
    unfold lift, _ShutdownLocal, bind, RunCmd, ret.
    destruct (run _ (world s1)) as [result w] eqn:Hrun.
    destruct (failed result) eqn:Hfail; cbn [negb].
    + unfold mraise. intros Heq. injection Heq as _ <- _. left. reflexivity.
    + unfold assign. intros Heq. injection Heq as <- <- <-. right.
      split; [reflexivity |]. split; [reflexivity |].
      exists m, info, s1, c0, c1. repeat split; try assumption.
      rewrite Hrun. exact Hfail.
Qed.

(** X18. [DRBD8.AddChildren] assigns nothing but the child list, and
    only when it returns: then the device holds a minor [m], the child
    list is the two given devices as [Open] left them, and the last
    command was the attach of the local storage, [drbdsetup
    /dev/drbd<m> disk <backend> <meta> 0 -e detach --create-device].
    In every run that raises (no minor, not two devices, a local disk
    already there, a child without path, a bad or uninitialisable
    metadata device, a failed attach) the object is unchanged. *)
Theorem DRBD8_AddChildren_outcome devices d s r d' devs' s' :
  DRBD8_AddChildren devices d s = (r, d', devs', s') ->
  match r with
  | Ret _ =>
      exists m backend meta cs,
        minor d = Some m /\ devs' = [backend; meta]
        /\ d' = set_children d [backend; meta]
        /\ cmds s' = cs ++ [[VStr "drbdsetup"; VStr (_DevPath m); VStr "disk";
                             dev_path backend; dev_path meta; VStr "0";
                             VStr "-e"; VStr "detach"; VStr "--create-device"]]
  | _ => d' = d
  end.
Proof.
  unfold DRBD8_AddChildren.
  destruct (minor d) as [m |] eqn:Hm;
    [| intros Heq; injection Heq as <- <- _ _; reflexivity].
  destruct devices as [| backend [| meta [| x xs]]];
    try (intros Heq; injection Heq as <- <- _ _; reflexivity).
  destruct (show_info m s) as [[info | e |] s1];
    try (intros Heq; injection Heq as <- <- _ _; reflexivity).
  destruct (has_key "local_dev" info);
    [intros Heq; injection Heq as <- <- _ _; reflexivity |].
  destruct (py_eqb (dev_path backend) VNone || py_eqb (dev_path meta) VNone);
    [intros Heq; injection Heq as <- <- _ _; reflexivity |].
  destruct (Open false backend s1) as [[[o | e |] backend'] s2];
    try (intros Heq; injection Heq as <- <- _ _; reflexivity).
  destruct (Open false meta s2) as [[[o' | e |] meta'] s3];
    try (intros Heq; injection Heq as <- <- _ _; reflexivity).
  unfold bind at 1.
  destruct (_CheckMetaSize (dev_path meta') s3) as [[size_ok | e |] s4];
    try (intros Heq; injection Heq as <- <- _ _; reflexivity).
  destruct (negb size_ok);
    [unfold raise; intros Heq; injection Heq as <- <- _ _; reflexivity |].
  unfold bind at 1.
  destruct (_FindUnusedMinor s4) as [[unused | e |] s5];
    try (intros Heq; injection Heq as <- <- _ _; reflexivity).
  unfold bind at 1.
  destruct (_InitMeta unused (dev_path meta') s5) as [[u | e |] s6];
    try (intros Heq; injection Heq as <- <- _ _; reflexivity).
  unfold bind at 1.
  destruct (_IsValidMeta (dev_path meta') s6) as [[valid | e |] s7];
    try (intros Heq; injection Heq as <- <- _ _; reflexivity).
  destruct (negb valid);
    [unfold raise; intros Heq; injection Heq as <- <- _ _; reflexivity |].
  unfold bind at 1. unfold _AssembleLocal. unfold bind at 1.
  destruct (_IsValidMeta (dev_path meta') s7) as [[valid' | e |] s8];
    try (intros Heq; injection Heq as <- <- _ _; reflexivity).
  destruct (negb valid').
  - unfold ret, raise. cbn [negb]. intros Heq. injection Heq as <- <- _ _.
    reflexivity.
  - unfold bind, RunCmd, ret, raise. destruct (run _ (world s8)) as [result w].
    destruct (failed result); cbn [negb].
    + intros Heq. injection Heq as <- <- _ _. reflexivity.
    + intros Heq. injection Heq as <- <- <- <-.
      exists m, backend', meta', (cmds s8). repeat split.
Qed.

End Children.

(** Minor 3 with its local storage attached; the detach succeeds. *)
Definition detach_scenario : Sim.SimWorld :=
  Sim.mkWorld ""
    [Sim.ok ["drbdsetup"; "/dev/drbd3"; "show"] Sim.show_local_text false;
     Sim.ok ["drbdsetup"; "/dev/drbd3"; "detach"] "" false]
    [] 0.

Lemma DRBD8_RemoveChildren_outcome_witness :
  exists m s',
    minor mirror_attached = Some m
    /\ DRBD8_RemoveChildren [VStr "/dev/vg0/lv1"; VStr "/dev/vg0/lv1meta"]
         mirror_attached (Sim.start detach_scenario)
       = (Ret tt, set_children mirror_attached [], s')
    /\ cmds s' = cmds (Sim.start detach_scenario)
         ++ [[VStr "drbdsetup"; VStr (_DevPath m); VStr "show"];
             [VStr "drbdsetup"; VStr (_DevPath m); VStr "detach"]].
Proof.
  apply (proj1 (@DRBD8_RemoveChildren_outcome Sim.sim_env
                  [VStr "/dev/vg0/lv1"; VStr "/dev/vg0/lv1meta"] mirror_attached
                  (Sim.start detach_scenario))).
  eexists 3, _, _, (lv_dev "lv1" 0), (lv_dev "lv1meta" 1).
  split; [reflexivity |]. split; [reflexivity |].
  split; [reflexivity |]. split; [reflexivity |].
  split; reflexivity.
Defined.

(** A mirror on minor 3 that runs without local storage, and the two
    volumes to give it. *)
Definition mirror_diskless : BlockDev :=
  mkDev (DRBD8 (VStr "10.0.0.1") (VInt 11000) (VStr "10.0.0.2") (VInt 11000))
        [VStr "10.0.0.1"; VInt 11000; VStr "10.0.0.2"; VInt 11000]
        [] (VStr "/dev/drbd3") (Some 147) (Some 3).

Definition add_scenario : Sim.SimWorld :=
  Sim.mkWorld
    (file_text ["version: 8.0.12 (api:86/proto:86)";
                " 3: cs:Connected st:Secondary/Secondary ds:Diskless/UpToDate C r---"])
    [Sim.ok ["blockdev"; "--getsize"; "/dev/vg0/lv1meta"] "262144" false;
     Sim.ok ["drbdmeta"; "--force"; "/dev/drbd4"; "v08"; "/dev/vg0/lv1meta"; "0";
             "create-md"] "" false;
     Sim.ok ["drbdmeta"; "/dev/drbd4"; "v08"; "/dev/vg0/lv1meta"; "0"; "dstate"]
            "" false;
     Sim.ok ["drbdsetup"; "/dev/drbd3"; "disk"; "/dev/vg0/lv1"; "/dev/vg0/lv1meta";
             "0"; "-e"; "detach"; "--create-device"] "" false]
    [] 0.

Lemma DRBD8_AddChildren_outcome_witness :
  exists m backend meta cs,
    minor mirror_diskless = Some m
    /\ [lv_dev "lv1" 0; lv_dev "lv1meta" 1] = [backend; meta]
    /\ mirror_attached = set_children mirror_diskless [backend; meta]
    /\ cmds (DRBD8_AddChildren [lv_dev "lv1" 0; lv_dev "lv1meta" 1]
               mirror_diskless (Sim.start add_scenario)).2
       = cs ++ [[VStr "drbdsetup"; VStr (_DevPath m); VStr "disk";
                 dev_path backend; dev_path meta; VStr "0";
                 VStr "-e"; VStr "detach"; VStr "--create-device"]].
Proof.
  apply (@DRBD8_AddChildren_outcome Sim.sim_env
           [lv_dev "lv1" 0; lv_dev "lv1meta" 1] mirror_diskless
           (Sim.start add_scenario) (Ret tt) mirror_attached
           [lv_dev "lv1" 0; lv_dev "lv1meta" 1]).
  reflexivity.
Defined.

(** ** FileStorage *)

Section FileStorageProps.
Context `{Env}.

(** What the file system is assumed to do: a file opened for writing
    exists afterwards, truncating a file does not make any path appear
    or vanish, and a removed file is gone. *)
Variable os_remove : pyval -> World -> option World.
Hypothesis open_creates :
  forall p w w', open_w p w = Some w' -> path_exists p w' = true.
Hypothesis truncate_keeps :
  forall p n w w' q, truncate p n w = Some w' -> path_exists q w' = path_exists q w.
Hypothesis remove_removes :
  forall p w w', os_remove p w = Some w' -> path_exists p w' = false.

(** X19. A file device that [FileStorage.Create] returns is there:
    [Attach] and [Assemble] on the returned object then answer true, no
    command was run, the object has the path of the unique id as
    [dev_path] and neither children nor device numbers. When the file
    cannot be opened for writing, [Create] does not raise the
    [BlockDeviceError] it means to raise: the format string of that
    error is malformed, and [ValueError] comes out instead. *)
Theorem FileStorage_Create_attach driver path children size s :
  (forall dev s',
     FileStorage_Create [driver; path] children size s = (Ret dev, s') ->
     FileStorage_Attach dev s' = (Ret true, dev, s')
     /\ FileStorage_Assemble dev s' = (Ret true, dev, s')
     /\ cmds s' = cmds s
     /\ dev = mkDev (FileStorage driver) [driver; path] [] path None None)
  /\ (open_w path (world s) = None ->
      FileStorage_Create [driver; path] children size s
      = (Raise (ValueError "unsupported format character"), s)).
Proof.
  unfold FileStorage_Create. split.
  - intros dev s'. destruct (open_w path (world s)) as [w |] eqn:Hopen;
      [| discriminate].
    destruct (truncate path (size * 1024 * 1024) w) as [w' |] eqn:Htr;
      [| discriminate].
    unfold FileStorage_init. destruct children as [| c cs]; [| discriminate].
    unfold ret. intros Heq. injection Heq as <- <-.
    unfold FileStorage_Attach, FileStorage_Assemble.
    cbn [world cmds dev_path set_dev_path BlockDev_init].
    rewrite (truncate_keeps _ _ _ _ path Htr), (open_creates _ _ _ Hopen).
    repeat split.
  - intros ->. reflexivity.
Qed.

(** X20. [FileStorage.Remove] is idempotent: once it has returned
    true the file is not there, so that [Attach] answers false and a
    second [Remove] returns true at once, leaving the world as it is.
    No command is run and the object is not touched. *)
Theorem FileStorage_Remove_twice d s d' s' :
  FileStorage_Remove os_remove d s = (Ret true, d', s') ->
  d' = d /\ cmds s' = cmds s
  /\ FileStorage_Attach d' s' = (Ret false, d', s')
  /\ FileStorage_Remove os_remove d' s' = (Ret true, d', s').
Proof.
  unfold FileStorage_Remove, FileStorage_Attach.
  destruct (path_exists (dev_path d) (world s)) eqn:Hex; cbn [negb].
  - destruct (os_remove (dev_path d) (world s)) as [w |] eqn:Hrm; [| discriminate].
    intros Heq. injection Heq as <- <-. cbn [world cmds].
    rewrite (remove_removes _ _ _ Hrm). repeat split.
  - intros Heq. injection Heq as <- <-. rewrite Hex. repeat split.
Qed.

End FileStorageProps.

(** [os.remove] on the simulated node. *)
Definition sim_remove (p : pyval) (w : Sim.SimWorld) : option Sim.SimWorld :=
  Some (Sim.mkWorld (Sim.proc w) (Sim.rules w)
          (filter (fun q => q <> p) (Sim.files w)) (Sim.clock w)).

Lemma sim_remove_removes p w w' :
  sim_remove p w = Some w' -> @path_exists Sim.sim_env p w' = false.
Proof.
  unfold sim_remove. intros Heq. injection Heq as <-.
  cbn [path_exists Sim.sim_env Sim.files].
  apply bool_decide_eq_false. intros Hin.
  apply list_elem_of_filter in Hin as [Hne _]. apply Hne. reflexivity.
Qed.

Definition file_node : Sim.SimWorld :=
  Sim.mkWorld "" [] [VStr "/srv/disk0.img"] 0.

Lemma FileStorage_Remove_twice_witness :
  file_dev "/srv/disk0.img" = file_dev "/srv/disk0.img"
  /\ @nil (list pyval) = []
  /\ FileStorage_Attach (file_dev "/srv/disk0.img") (Sim.start empty_node)
     = (Ret false, file_dev "/srv/disk0.img", Sim.start empty_node)
  /\ FileStorage_Remove sim_remove (file_dev "/srv/disk0.img") (Sim.start empty_node)
     = (Ret true, file_dev "/srv/disk0.img", Sim.start empty_node).
Proof.
  exact (@FileStorage_Remove_twice Sim.sim_env sim_remove sim_remove_removes
           (file_dev "/srv/disk0.img") (Sim.start file_node)
           (file_dev "/srv/disk0.img") (Sim.start empty_node) eq_refl).
Defined.

(** ** The factory returns attached devices *)

(** What a true answer of [Attach] means for each driver. *)
Definition attached `{Env} (d : BlockDev) (s : St) : Prop :=
  match cls d with
  | LogicalVolume _ _ => major d <> None /\ minor d <> None
  | DRBD8 _ _ _ _ =>
      exists m, minor d = Some m /\ dev_path d = VStr (_DevPath m)
  | FileStorage _ => path_exists (dev_path d) (world s) = true
  end.

Section FactoryProps.
Context `{Env}.

Lemma Attach_true d s d' s' :
  Attach d s = (Ret true, d', s') -> attached d' s'.
Proof.
  unfold Attach, attached. destruct (cls d) eqn:Hcls.
  - unfold LogicalVolume_Attach. destruct (RunCmd _ s) as [[result | e |] s1];
      try discriminate.
    destruct (failed result); [discriminate |].
    destruct (lv_attach_scan _) as [[ma mi] |]; [| discriminate].
    intros Heq. injection Heq as <- <-. cbn [cls set_minor set_major]. rewrite Hcls.
    split; discriminate.
  - intros Hat. apply DRBD8_Attach_inv in Hat
      as [(found & _ & Hr & ->) | (_ & Hr & _)]; [| discriminate].
    cbn [cls _SetFromMinor]. rewrite Hcls. destruct found as [m |].
    + exists m. split; reflexivity.
    + rewrite bool_decide_eq_false_2 in Hr by (intros Hn; apply Hn; reflexivity).
      discriminate.
  - unfold FileStorage_Attach. intros Heq. injection Heq as Hex <- <-.
    rewrite Hcls. exact Hex.
Qed.

(** X21. [FindDevice] and [AttachOrAssemble] hand out attached devices
    only: the object they return is one on which [Attach] has just
    answered true, so a logical volume carries its device numbers, a
    mirror a minor [m] and [dev_path = /dev/drbd<m>], and the file of a
    file device exists. [FindDevice] returns [None] instead of an
    unattached device, [AttachOrAssemble] raises. *)
Theorem factory_returns_attached dev_type unique_id children s :
  (forall dev s',
     FindDevice dev_type unique_id children s = (Ret (Some dev), s') ->
     attached dev s')
  /\ (forall dev s',
        AttachOrAssemble dev_type unique_id children s = (Ret dev, s') ->
        attached dev s').
Proof.
  split; intros dev s'.
  - unfold FindDevice, bind.
    destruct (new_device dev_type unique_id children s) as [[device | e |] s0];
      try discriminate.
    destruct (Attach device s0) as [[[[] | e |] device'] s1] eqn:Hat;
      try discriminate.
    intros Heq. injection Heq as <- <-. exact (Attach_true _ _ _ _ Hat).
  - unfold AttachOrAssemble, bind.
    destruct (new_device dev_type unique_id children s) as [[device | e |] s0];
      try discriminate.
    destruct (Attach device s0) as [[[[] | e |] device1] s1] eqn:Hat;
      try discriminate.
    + intros Heq. injection Heq as <- <-. exact (Attach_true _ _ _ _ Hat).
    + destruct (Assemble device1 s1) as [[[b | e |] device2] s2]; try discriminate.
      destruct (Attach device2 s2) as [[[[] | e |] device3] s3] eqn:Hat2;
        try discriminate.
      intros Heq. injection Heq as <- <-. exact (Attach_true _ _ _ _ Hat2).
Qed.

End FactoryProps.

(** On the node where [lvdisplay] shows the volume, [FindDevice] finds
    it, with its device numbers. *)
Lemma factory_returns_attached_witness :
  attached (lv_dev "lv1" 7)
    (@mkSt Sim.sim_env lvdisplay_scenario
       [[VStr "lvdisplay"; VStr "/dev/vg0/lv1"];
        [VStr "lvdisplay"; VStr "/dev/vg0/lv1"]]).
Proof.
  exact (proj1 (@factory_returns_attached Sim.sim_env LD_LV
                  [VStr "vg0"; VStr "lv1"] [] (Sim.start lvdisplay_scenario))
           (lv_dev "lv1" 7) _ eq_refl).
Defined.

Lemma sim_open_creates p w w' :
  @open_w Sim.sim_env p w = Some w' -> @path_exists Sim.sim_env p w' = true.
Proof.
  cbn [open_w Sim.sim_env]. intros Heq. injection Heq as <-.
  cbn [path_exists Sim.sim_env Sim.files]. apply bool_decide_eq_true.
  apply elem_of_cons. left. reflexivity.
Qed.

Lemma sim_truncate_keeps p n w w' q :
  @truncate Sim.sim_env p n w = Some w' ->
  @path_exists Sim.sim_env q w' = @path_exists Sim.sim_env q w.
Proof. cbn [truncate Sim.sim_env]. intros Heq. injection Heq as <-. reflexivity. Qed.

Lemma FileStorage_Create_attach_witness :
  let s' := @mkSt Sim.sim_env file_node [] in
  FileStorage_Attach (file_dev "/srv/disk0.img") s'
  = (Ret true, file_dev "/srv/disk0.img", s')
  /\ FileStorage_Assemble (file_dev "/srv/disk0.img") s'
     = (Ret true, file_dev "/srv/disk0.img", s')
  /\ cmds s' = cmds (Sim.start empty_node)
  /\ file_dev "/srv/disk0.img"
     = mkDev (FileStorage (VStr "loop")) [VStr "loop"; VStr "/srv/disk0.img"] []
             (VStr "/srv/disk0.img") None None.
Proof.
  exact (proj1 (@FileStorage_Create_attach Sim.sim_env sim_open_creates
                  sim_truncate_keeps (VStr "loop") (VStr "/srv/disk0.img") [] 1024
                  (Sim.start empty_node))
           (file_dev "/srv/disk0.img") (@mkSt Sim.sim_env file_node []) eq_refl).
Defined.

(** ** The version of the kernel module *)

(** The first line of /proc/drbd, as the kernel module prints it. *)
Definition version_header (a b c ap pr : Z) (pr2 : option Z) : string :=
  "version: " +:+ pretty a +:+ "." +:+ pretty b +:+ "." +:+ pretty c
  +:+ " (api:" +:+ pretty ap +:+ "/proto:" +:+ pretty pr
  +:+ match pr2 with
      | Some f => "-" +:+ pretty f +:+ ")"
      | None => ")"
      end.

Fixpoint ends_nonspace (s : string) : bool :=
  match s with
  | EmptyString => false
  | String c EmptyString => negb (is_space c)
  | String _ r => ends_nonspace r
  end.

Lemma rstrip_id s : ends_nonspace s = true -> rstrip s = s.
Proof.
  induction s as [| c r IH]; [discriminate |].
  destruct r as [| c' r'].
  - cbn [ends_nonspace rstrip]. intros Hc. apply negb_true_iff in Hc.
    rewrite Hc. reflexivity.
  - intros He. change (ends_nonspace (String c' r') = true) in He.
    specialize (IH He). remember (String c' r') as t eqn:Ht.
    cbn [rstrip]. rewrite IH. rewrite Ht. reflexivity.
Qed.

Lemma ends_nonspace_app a b :
  ends_nonspace b = true -> ends_nonspace (a +:+ b) = true.
Proof.
  intros Hb. induction a as [| c a IH]; [exact Hb |].
  rewrite append_cons. destruct (a +:+ b) as [| c' r] eqn:Hab; [discriminate |].
  exact IH.
Qed.

Lemma version_header_strip a b c ap pr pr2 :
  strip (version_header a b c ap pr pr2) = version_header a b c ap pr pr2.
Proof.
  unfold strip.
  assert (Hl : lstrip (version_header a b c ap pr pr2) = version_header a b c ap pr pr2)
    by reflexivity.
  rewrite Hl. apply rstrip_id. unfold version_header.
  repeat apply ends_nonspace_app.
  destruct pr2; [repeat apply ends_nonspace_app |]; reflexivity.
Qed.

Lemma version_match_header a b c ap pr pr2 :
  0 <= a -> 0 <= b -> 0 <= c -> 0 <= ap -> 0 <= pr ->
  (forall f, pr2 = Some f -> 0 <= f) ->
  version_match (version_header a b c ap pr pr2)
  = Some (mkVersion a b c ap pr (option_map pretty pr2)).
Proof.
  intros Ha Hb Hc Hap Hpr Hpr2.
  destruct (pretty_digits a Ha) as (Hda & Hna & Hia).
  destruct (pretty_digits b Hb) as (Hdb & Hnb & Hib).
  destruct (pretty_digits c Hc) as (Hdc & Hnc & Hic).
  destruct (pretty_digits ap Hap) as (Hdap & Hnap & Hiap).
  destruct (pretty_digits pr Hpr) as (Hdpr & Hnpr & Hipr).
  unfold version_match, version_header.
  rewrite (eat_app "version: "). cbn -[eat digits1 int_of_digits].
  rewrite digits1_app by (try assumption; reflexivity).
  cbn -[eat digits1 int_of_digits]. rewrite (eat_app ".").
  cbn -[eat digits1 int_of_digits].
  rewrite digits1_app by (try assumption; reflexivity).
  cbn -[eat digits1 int_of_digits]. rewrite (eat_app ".").
  cbn -[eat digits1 int_of_digits].
  rewrite digits1_app by (try assumption; reflexivity).
  cbn -[eat digits1 int_of_digits]. rewrite (eat_app " (api:").
  cbn -[eat digits1 int_of_digits].
  rewrite digits1_app by (try assumption; reflexivity).
  cbn -[eat digits1 int_of_digits]. rewrite (eat_app "/proto:").
  cbn -[eat digits1 int_of_digits].
  rewrite digits1_app by (try assumption; destruct pr2; reflexivity).
  cbn -[eat digits1 int_of_digits].
  rewrite Hia, Hib, Hic, Hiap, Hipr.
  destruct pr2 as [f |].
  - destruct (pretty_digits f (Hpr2 f eq_refl)) as (Hdf & Hnf & _).
    rewrite (eat_app "-"). cbn -[eat digits1 int_of_digits].
    rewrite digits1_app by (try assumption; reflexivity).
    reflexivity.
  - reflexivity.
Qed.

Section KernelVersion.
Context `{Env}.

(** X22. [_GetVersion] reads the numbers of the header line of
    /proc/drbd back as the kernel module printed them, for every
    version [a.b.c], API and protocol numbers, with or without the
    upper end of a protocol range (which is kept as text); and the
    constructor of [DRBD8] refuses, with [BlockDeviceError], every
    kernel module whose major version [a] is not 8, before it looks at
    the unique id or the children and before any command is run. *)
Theorem _GetVersion_reads s a b c ap pr pr2 lines :
  0 <= a -> 0 <= b -> 0 <= c -> 0 <= ap -> 0 <= pr ->
  (forall f, pr2 = Some f -> 0 <= f) ->
  splitlines (proc_drbd (world s)) = version_header a b c ap pr pr2 :: lines ->
  _GetVersion s = (Ret (mkVersion a b c ap pr (option_map pretty pr2)), s)
  /\ (a <> 8 ->
      forall unique_id children,
        DRBD8_init unique_id children s
        = (Raise (BlockDeviceError
             "Mismatch in DRBD kernel version and requested ganeti usage: kernel is %s.%s, ganeti wants 8.x"),
           s)).
Proof.
  intros Ha Hb Hc Hap Hpr Hpr2 Hlines.
  assert (Hver : _GetVersion s
                 = (Ret (mkVersion a b c ap pr (option_map pretty pr2)), s)).
  { unfold _GetVersion, bind. rewrite _GetProcData_ret by (rewrite Hlines; discriminate).
    rewrite Hlines, version_header_strip.
    rewrite (version_match_header a b c ap pr pr2 Ha Hb Hc Hap Hpr Hpr2).
    reflexivity. }
  split; [exact Hver |].
  intros Hne unique_id children. unfold DRBD8_init, bind. rewrite Hver.
  cbn [k_major]. destruct (Z.eqb_spec a 8) as [-> | _]; [destruct (Hne eq_refl) |].
  reflexivity.
Qed.

End KernelVersion.

(** A node that runs the 0.7 series of the kernel module. *)
Definition old_kernel : Sim.SimWorld :=
  Sim.mkWorld (file_text ["version: 0.7.24 (api:79/proto:74)"]) [] [] 0.

Lemma _GetVersion_reads_witness :
  _GetVersion (Sim.start old_kernel)
  = (Ret (mkVersion 0 7 24 79 74 None), Sim.start old_kernel)
  /\ (0 <> 8 ->
      forall unique_id children,
        DRBD8_init unique_id children (Sim.start old_kernel)
        = (Raise (BlockDeviceError
             "Mismatch in DRBD kernel version and requested ganeti usage: kernel is %s.%s, ganeti wants 8.x"),
           Sim.start old_kernel)).
Proof.
  apply (@_GetVersion_reads Sim.sim_env (Sim.start old_kernel) 0 7 24 79 74 None []);
    try lia; [discriminate | reflexivity].
Defined.

(** ** The joined status text covers every used minor *)

Lemma valid_line_lmatch line d state :
  valid_line line = Some (d, state) -> lmatch line = Some d.
Proof.
  unfold valid_line, lmatch.
  destruct (digits1 (skip_spaces line)) as [[d0 r] |]; [| discriminate].
  cbn -[eat span String.eqb].
  change ": cs:" with (":" +:+ " cs:"). rewrite eat_append.
  destruct (eat ":" r) as [r1 |]; [| discriminate].
  destruct (eat " cs:" r1) as [r' |]; [| discriminate].
  cbn -[eat span String.eqb].
  destruct (span _ r') as [st rest]. destruct (String.eqb st ""); [discriminate |].
  intros Heq. injection Heq as -> _. reflexivity.
Qed.

Lemma massage_keeps_results data results old m :
  is_Some (results !! m) -> is_Some (massage_loop data results old !! m).
Proof.
  revert results old. induction data as [| l data IH]; intros results old Hs.
  - cbn [massage_loop]. destruct old as [[om ol] |]; [| exact Hs].
    destruct (decide (om = m)) as [-> | Hne].
    + rewrite lookup_insert_eq. eexists. reflexivity.
    + rewrite lookup_insert_ne by exact Hne. exact Hs.
  - cbn [massage_loop]. destruct (lmatch l) as [d |].
    + apply IH. destruct old as [[om ol] |]; [| exact Hs].
      destruct (decide (om = m)) as [-> | Hne].
      * rewrite lookup_insert_eq. eexists. reflexivity.
      * rewrite lookup_insert_ne by exact Hne. exact Hs.
    + destruct old as [[om ol] |]; apply IH; exact Hs.
Qed.

Lemma massage_keeps_old data results m text :
  is_Some (massage_loop data results (Some (m, text)) !! m).
Proof.
  revert results text. induction data as [| l data IH]; intros results text.
  - cbn [massage_loop]. rewrite lookup_insert_eq. eexists. reflexivity.
  - cbn [massage_loop]. destruct (lmatch l) as [d |].
    + apply massage_keeps_results. rewrite lookup_insert_eq. eexists. reflexivity.
    + apply IH.
Qed.

Lemma massage_covers data results old line d :
  line ∈ data -> lmatch line = Some d ->
  is_Some (massage_loop data results old !! int_of_digits d).
Proof.
  revert results old. induction data as [| l data IH]; intros results old Hin Hl.
  - apply elem_of_nil in Hin. destruct Hin.
  - apply elem_of_cons in Hin as [<- | Hin].
    + cbn [massage_loop]. rewrite Hl. apply massage_keeps_old.
    + cbn [massage_loop]. destruct (lmatch l) as [d' |].
      * apply IH; assumption.
      * destruct old as [[om ol] |]; apply IH; assumption.
Qed.

Lemma massage_sound data results old m :
  is_Some (massage_loop data results old !! m) ->
  is_Some (results !! m)
  \/ (exists text, old = Some (m, text))
  \/ (exists line d, line ∈ data /\ lmatch line = Some d /\ int_of_digits d = m).
Proof.
  revert results old. induction data as [| l data IH]; intros results old Hs.
  - cbn [massage_loop] in Hs. destruct old as [[om ol] |]; [| left; exact Hs].
    destruct (decide (om = m)) as [-> | Hne].
    + right. left. exists ol. reflexivity.
    + rewrite lookup_insert_ne in Hs by exact Hne. left. exact Hs.
  - assert (Hlift : forall line d, line ∈ data /\ lmatch line = Some d
                                   /\ int_of_digits d = m ->
                      exists line d, line ∈ l :: data /\ lmatch line = Some d
                                     /\ int_of_digits d = m).
    { intros line d (Hin & Hl & Hd). exists line, d.
      split; [apply elem_of_cons; right; exact Hin |]. split; assumption. }
    cbn [massage_loop] in Hs. destruct (lmatch l) as [d |] eqn:Hl.
    + destruct (IH _ _ Hs) as [Hr | [(text & Heq) | (line & d' & Hx)]].
      * destruct old as [[om ol] |]; [| left; exact Hr].
        destruct (decide (om = m)) as [-> | Hne].
        -- right. left. exists ol. reflexivity.
        -- rewrite lookup_insert_ne in Hr by exact Hne. left. exact Hr.
      * injection Heq as Hd _. right. right. exists l, d.
        split; [apply elem_of_cons; left; reflexivity |]. split; assumption.
      * right. right. exact (Hlift _ _ Hx).
    + destruct old as [[om ol] |].
      * destruct (IH _ _ Hs) as [Hr | [(text & Heq) | (line & d' & Hx)]].
        -- left. exact Hr.
        -- injection Heq as -> _. right. left. eexists. reflexivity.
        -- right. right. exact (Hlift _ _ Hx).
      * destruct (IH _ _ Hs) as [Hr | [(text & Heq) | (line & d' & Hx)]].
        -- left. exact Hr.
        -- discriminate.
        -- right. right. exact (Hlift _ _ Hx).
Qed.

(** X23. [_MassageProcData] has an entry for exactly the minors that
    start a line of the file ([ N:] at its beginning), whatever
    follows on the line; in particular it has an entry for every minor
    that [_GetUsedDevs] lists on the same file, so [GetSyncStatus]
    finds the status text of every minor that [Attach] can bind. *)
Theorem _MassageProcData_covers data m :
  (is_Some (_MassageProcData data !! m)
   <-> exists line d, line ∈ data /\ lmatch line = Some d /\ int_of_digits d = m)
  /\ (is_Some (used_devs_scan data ∅ !! m) -> is_Some (_MassageProcData data !! m)).
Proof.
  assert (Hiff : is_Some (_MassageProcData data !! m)
                 <-> exists line d, line ∈ data /\ lmatch line = Some d
                                    /\ int_of_digits d = m).
  { unfold _MassageProcData. split.
    - intros Hs. apply massage_sound in Hs as [Hr | [(text & Heq) | Hx]].
      + rewrite lookup_empty in Hr. destruct Hr as [x Hx]. discriminate.
      + discriminate.
      + exact Hx.
    - intros (line & d & Hin & Hl & <-). exact (massage_covers _ _ _ _ _ Hin Hl). }
  split; [exact Hiff |].
  intros [[state line] Hu]. apply Hiff.
  apply used_devs_scan_lookup in Hu as [Hu | [Hin (d & Hv & Hd & _)]].
  - rewrite lookup_empty in Hu. discriminate.
  - exists line, d. split; [exact Hin |].
    split; [exact (valid_line_lmatch _ _ _ Hv) | exact Hd].
Qed.

(** ** The physical volumes of a group *)

(** A row of the [pvs] listing that is accepted for the volume group:
    four fields, the second the group, the fourth starting with [a],
    the third a number. *)
Definition accepted_row (vg_name : pyval) (line : string) (pv : Q * string)
    : Prop :=
  exists f1 f2 f3 c,
    split_on ":" (strip line) = [pv.2; f1; f2; String c f3]
    /\ VStr f1 = vg_name /\ c = "a"%char.

Section PVInfo.
Context `{Env}.

Lemma pv_rows_sound vg_name lines data out :
  pv_rows vg_name lines data = Ret (Some out) ->
  Forall (fun line => length (split_on ":" (strip line)) = 4%nat) lines
  /\ exists new,
       out = data ++ new
       /\ forall pv, pv ∈ new ->
            exists line, line ∈ lines /\ accepted_row vg_name line pv
                         /\ exists f1 f2 f3,
                              split_on ":" (strip line) = [pv.2; f1; f2; f3]
                              /\ py_float f2 = Some pv.1.
Proof.
  revert data. induction lines as [| line rest IH]; intros data Hrows.
  - cbn [pv_rows] in Hrows. injection Hrows as <-.
    split; [constructor |]. exists []. split; [rewrite app_nil_r; reflexivity |].
    intros pv Hin. apply elem_of_nil in Hin. destruct Hin.
  - cbn [pv_rows] in Hrows.
    destruct (split_on ":" (strip line)) as [| f0 [| f1 [| f2 [| f3 [| f4 fs]]]]] eqn:Hsplit;
      try discriminate.
    assert (Hskip : forall data', pv_rows vg_name rest data' = Ret (Some out) ->
              data' = data ->
              Forall (fun line => length (split_on ":" (strip line)) = 4%nat)
                     (line :: rest)
              /\ exists new,
                   out = data ++ new
                   /\ forall pv, pv ∈ new ->
                        exists line0, line0 ∈ line :: rest
                          /\ accepted_row vg_name line0 pv
                          /\ exists f1 f2 f3,
                               split_on ":" (strip line0) = [pv.2; f1; f2; f3]
                               /\ py_float f2 = Some pv.1).
    { intros data' Hr ->. destruct (IH _ Hr) as (Hall & new & -> & Hnew).
      split; [constructor; [rewrite Hsplit; reflexivity | exact Hall] |].
      exists new. split; [reflexivity |]. intros pv Hin.
      destruct (Hnew _ Hin) as (line0 & Hin0 & Hacc).
      exists line0. split; [apply elem_of_cons; right; exact Hin0 | exact Hacc]. }
    unfold py_eqb in Hrows.
    destruct (bool_decide (VStr f1 = vg_name)) eqn:Hvg; cbn [negb] in Hrows;
      [| exact (Hskip _ Hrows eq_refl)].
    apply bool_decide_eq_true in Hvg.
    destruct f3 as [| c f3]; [discriminate |].
    destruct (Ascii.eqb c "a") eqn:Hc; cbn [negb] in Hrows;
      [| exact (Hskip _ Hrows eq_refl)].
    apply Ascii.eqb_eq in Hc.
    destruct (py_float f2) as [free |] eqn:Hfree; [| discriminate].
    destruct (IH _ Hrows) as (Hall & new & -> & Hnew).
    split; [constructor; [rewrite Hsplit; reflexivity | exact Hall] |].
    exists ((free, f0) :: new). split; [rewrite <- app_assoc; reflexivity |].
    intros pv Hin. apply elem_of_cons in Hin as [-> | Hin].
    + exists line. split; [apply elem_of_cons; left; reflexivity |]. split.
      * exists f1, f2, f3, c. cbn [snd]. split; [exact Hsplit |]. split; assumption.
      * exists f1, f2, (String c f3). cbn [fst snd]. split; [exact Hsplit | exact Hfree].
    + destruct (Hnew _ Hin) as (line0 & Hin0 & Hacc).
      exists line0. split; [apply elem_of_cons; right; exact Hin0 | exact Hacc].
Qed.

(** X24. [GetPVInfo] runs the [pvs] listing and nothing else. A list
    it returns holds only physical volumes of the requested volume
    group that are allocatable: each entry [(free, name)] comes from a
    row [name:vg:free:a...] of the listing. It returns a list only when
    every row of the listing, of whichever volume group, has exactly
    four fields. *)
Theorem GetPVInfo_rows vg_name s out s' :
  GetPVInfo vg_name s = (Ret (Some out), s') ->
  let rows := splitlines (stdout (run pvs_argv (world s)).1) in
  cmds s' = cmds s ++ [pvs_argv]
  /\ Forall (fun line => length (split_on ":" (strip line)) = 4%nat) rows
  /\ forall pv, pv ∈ out ->
       exists line, line ∈ rows /\ accepted_row vg_name line pv
                    /\ exists f1 f2 f3,
                         split_on ":" (strip line) = [pv.2; f1; f2; f3]
                         /\ py_float f2 = Some pv.1.
Proof.
  intros Hget rows. split; [exact (GetPVInfo_cmds _ _ _ _ Hget) |].
  unfold GetPVInfo, bind, RunCmd in Hget. subst rows. unfold pvs_argv.
  destruct (run _ (world s)) as [result w]. cbn [fst].
  destruct (failed result); [discriminate |].
  unfold lift_res in Hget. injection Hget as Hrows _.
  apply pv_rows_sound in Hrows as (Hall & new & -> & Hnew).
  split; [exact Hall | exact Hnew].
Qed.

End PVInfo.

Lemma GetPVInfo_rows_witness :
  let s := Sim.start snapshot_scenario in
  let rows := splitlines (stdout (run pvs_argv (world s)).1) in
  [pvs_argv] = cmds s ++ [pvs_argv]
  /\ Forall (fun line => length (split_on ":" (strip line)) = 4%nat) rows
  /\ forall pv, pv ∈ [(inject_Z 500, "/dev/sdb"); (inject_Z 600, "/dev/sda")] ->
       exists line, line ∈ rows /\ accepted_row (VStr "vg0") line pv
                    /\ exists f1 f2 f3,
                         split_on ":" (strip line) = [pv.2; f1; f2; f3]
                         /\ py_float f2 = Some pv.1.
Proof.
  apply (@GetPVInfo_rows Sim.sim_env (VStr "vg0") (Sim.start snapshot_scenario)
           [(inject_Z 500, "/dev/sdb"); (inject_Z 600, "/dev/sda")]
           (@mkSt Sim.sim_env snapshot_scenario [pvs_argv])).
  reflexivity.
Defined.

(** ** SetInfo tags every logical volume of the tree *)

(** The tagging commands of the logical volumes of a tree, children
    before their parent. *)
Fixpoint tag_trace (text : string) (d : BlockDev) : list (list pyval) :=
  flat_map (tag_trace text) (_children d)
  ++ match cls d with
     | LogicalVolume _ _ =>
         [[VStr "lvchange"; VStr "--addtag"; VStr (sanitize_tag text); dev_path d]]
     | _ => []
     end.

(** Running a list of tagging commands one after the other: the first
    that fails raises the error of [LogicalVolume.SetInfo], and the
    commands after it are not run. *)
Fixpoint tag_run `{Env} (argvs : list (list pyval)) : Cmd unit :=
  match argvs with
  | [] => ret tt
  | argv :: rest =>
      result <- RunCmd argv ;;
      if failed result then
        raise (BlockDeviceError "Command: %s error: %s - %s")
      else tag_run rest
  end.

(** The world after a list of commands, and the fact that none of them
    failed. *)
Definition run_all `{Env} (argvs : list (list pyval)) (w : World) : World :=
  fold_left (fun w argv => (run argv w).2) argvs w.

Fixpoint all_ok `{Env} (argvs : list (list pyval)) (w : World) : Prop :=
  match argvs with
  | [] => True
  | argv :: rest => failed (run argv w).1 = false /\ all_ok rest (run argv w).2
  end.

Section SetInfoTree.
Context `{Env}.

Lemma tag_run_app a b s :
  tag_run (a ++ b) s = (tag_run a ;;; tag_run b) s.
Proof.
  revert s. induction a as [| argv a IH]; intros s; [reflexivity |].
  cbn [app tag_run]. unfold bind.
  destruct (RunCmd argv s) as [[result | e |] s1]; try reflexivity.
  destruct (failed result); [reflexivity |].
  rewrite IH. reflexivity.
Qed.

Lemma tag_run_trace argvs s0 :
  match tag_run argvs s0 with
  | (Ret _, s') =>
      all_ok argvs (world s0)
      /\ s' = mkSt (run_all argvs (world s0)) (cmds s0 ++ argvs)
  | (Raise e, s') =>
      e = BlockDeviceError "Command: %s error: %s - %s"
      /\ exists done argv rest,
           argvs = done ++ argv :: rest
           /\ all_ok done (world s0)
           /\ failed (run argv (run_all done (world s0))).1 = true
           /\ s' = mkSt (run argv (run_all done (world s0))).2
                        (cmds s0 ++ done ++ [argv])
  | (Diverge, _) => False
  end.
Proof.
  revert s0. induction argvs as [| argv rest IH]; intros [w0 c0].
  - cbn [tag_run all_ok run_all fold_left world cmds]. unfold ret.
    rewrite app_nil_r. split; [exact I | reflexivity].
  - cbn [tag_run]. unfold bind, RunCmd. cbn [world cmds].
    destruct (run argv w0) as [result w] eqn:Hrun.
    destruct (failed result) eqn:Hfail.
    + unfold raise. split; [reflexivity |].
      exists [], argv, rest. cbn [all_ok run_all fold_left app].
      rewrite Hrun. cbn [fst snd].
      split; [reflexivity |]. split; [exact I |]. split; [exact Hfail |].
      reflexivity.
    + specialize (IH (mkSt w (c0 ++ [argv]))). cbn [world cmds] in IH.
      destruct (tag_run rest (mkSt w (c0 ++ [argv]))) as [[u | e |] s'].
      * destruct IH as [Hok ->]. cbn [all_ok run_all fold_left].
        rewrite Hrun. cbn [fst snd]. split; [split; [exact Hfail | exact Hok] |].
        rewrite <- app_assoc. reflexivity.
      * destruct IH as (He & done & argv' & rest' & -> & Hok & Hf & ->).
        split; [exact He |]. exists (argv :: done), argv', rest'.
        cbn [all_ok run_all fold_left app]. rewrite Hrun. cbn [fst snd].
        split; [reflexivity |]. split; [split; [exact Hfail | exact Hok] |].
        split; [exact Hf |]. rewrite <- !app_assoc. reflexivity.
      * exact IH.
Qed.

Lemma setinfo_children_run text ch :
  Forall (fun c => forall s, SetInfo c text s = tag_run (tag_trace text c) s) ch ->
  forall s, setinfo_children SetInfo ch text s
            = tag_run (flat_map (tag_trace text) ch) s.
Proof.
  induction 1 as [| c ch Hc _ IH]; intros s; [reflexivity |].
  cbn [setinfo_children flat_map]. rewrite tag_run_app. unfold bind.
  rewrite Hc. destruct (tag_run (tag_trace text c) s) as [[u | e |] s1];
    [apply IH | reflexivity | reflexivity].
Qed.

Lemma SetInfo_own_run text d s :
  LogicalVolume_SetInfo_own d text s
  = tag_run [[VStr "lvchange"; VStr "--addtag"; VStr (sanitize_tag text);
              dev_path d]] s.
Proof.
  unfold LogicalVolume_SetInfo_own. cbn [tag_run].
  change (slice_to 128 (sub_rest (sub_first text))) with (sanitize_tag text).
  unfold bind. destruct (RunCmd _ s) as [[result | e |] s1]; reflexivity.
Qed.

Lemma SetInfo_run text d :
  forall s, SetInfo d text s = tag_run (tag_trace text d) s.
Proof.
  induction d as [c u ch p ma mi IH] using BlockDev_tree_ind.
  pose proof (setinfo_children_run text ch IH) as Hch. intros s.
  destruct c as [vg lv | lhost lport rhost rport | drv].
  - change (SetInfo (mkDev (LogicalVolume vg lv) u ch p ma mi) text s)
      with ((setinfo_children SetInfo ch text ;;;
             LogicalVolume_SetInfo_own (mkDev (LogicalVolume vg lv) u ch p ma mi)
                                       text) s).
    cbn [tag_trace _children cls]. rewrite tag_run_app. unfold bind.
    rewrite Hch.
    destruct (tag_run (flat_map (tag_trace text) ch) s) as [[u0 | e |] s1];
      [apply SetInfo_own_run | reflexivity | reflexivity].
  - change (SetInfo (mkDev (DRBD8 lhost lport rhost rport) u ch p ma mi) text s)
      with (setinfo_children SetInfo ch text s).
    cbn [tag_trace _children cls]. rewrite app_nil_r. apply Hch.
  - change (SetInfo (mkDev (FileStorage drv) u ch p ma mi) text s)
      with (setinfo_children SetInfo ch text s).
    cbn [tag_trace _children cls]. rewrite app_nil_r. apply Hch.
Qed.

(** X25. [SetInfo] on a device tree tags the logical volumes of the
    whole tree and does nothing else: it is the run, one after the
    other, of the commands [lvchange --addtag <sanitized text>
    <dev_path>], one for every logical volume of the tree, the volumes
    below a device before the device itself, all with the same
    sanitized text. It returns exactly when every one of them has
    succeeded, all of them having been run; it raises [BlockDeviceError]
    at the first that fails, the commands before it having succeeded
    and the commands after it not being run. *)
Theorem SetInfo_tags_tree d text s :
  SetInfo d text s = tag_run (tag_trace text d) s
  /\ match SetInfo d text s with
     | (Ret _, s') =>
         all_ok (tag_trace text d) (world s)
         /\ s' = mkSt (run_all (tag_trace text d) (world s))
                      (cmds s ++ tag_trace text d)
     | (Raise e, s') =>
         e = BlockDeviceError "Command: %s error: %s - %s"
         /\ exists done argv rest,
              tag_trace text d = done ++ argv :: rest
              /\ all_ok done (world s)
              /\ failed (run argv (run_all done (world s))).1 = true
              /\ s' = mkSt (run argv (run_all done (world s))).2
                           (cmds s ++ done ++ [argv])
     | (Diverge, _) => False
     end.
Proof.
  split; [apply SetInfo_run |].
  rewrite SetInfo_run. apply tag_run_trace.
Qed.

End SetInfoTree.

(** A node on which the first volume of the mirror accepts the tag and
    the second refuses it. *)
Definition tag_scenario : Sim.SimWorld :=
  Sim.mkWorld (file_text ["version: 8.0.12 (api:86/proto:86)"])
    [Sim.ok ["lvchange"; "--addtag"; "web_1"; "/dev/vg0/lv1"] "" false;
     Sim.ko ["lvchange"; "--addtag"; "web_1"; "/dev/vg0/lv1meta"] false]
    [] 0.

(** Tagging the mirror over the two volumes runs one command for each
    volume and none for the mirror; the second one fails and [SetInfo]
    raises. *)
Lemma SetInfo_tags_tree_witness :
  tag_trace "web 1" mirror_new
  = [map VStr ["lvchange"; "--addtag"; "web_1"; "/dev/vg0/lv1"];
     map VStr ["lvchange"; "--addtag"; "web_1"; "/dev/vg0/lv1meta"]]
  /\ (@SetInfo Sim.sim_env mirror_new "web 1" (Sim.start tag_scenario)).1
     = Raise (BlockDeviceError "Command: %s error: %s - %s")
  /\ cmds (@SetInfo Sim.sim_env mirror_new "web 1" (Sim.start tag_scenario)).2
     = tag_trace "web 1" mirror_new
  /\ (@SetInfo Sim.sim_env (lv_dev "lv1" 0) "web 1" (Sim.start tag_scenario)).1
     = Ret tt.
Proof.
  split; [reflexivity |].
  rewrite (proj1 (@SetInfo_tags_tree Sim.sim_env mirror_new "web 1"
                    (Sim.start tag_scenario))).
  rewrite (proj1 (@SetInfo_tags_tree Sim.sim_env (lv_dev "lv1" 0) "web 1"
                    (Sim.start tag_scenario))).
  repeat split.
Defined.
